(** * agentic-dev-pipeline: the orchestration core, embedded and verified

    A shallow embedding of [pipeline.py], [runner.py], [verify.py] and
    [domain.py], with the merge of the configuration layers of [config.py]
    and the detection of changed files of [detect.py].

    - Python [str] values are [string]s, one [ascii] per character; Python
      [int]s are [Z]; durations are [Z] hundredths of a second.
    - Everything the code does to the outside world (subprocesses, calls of
      gate functions, sleeps, reads of the shutdown flag, the webhook) is
      appended to a chronological list of events.  What the outside world
      answers (how a subprocess ends, whether a signal has arrived, the
      time, which future completes next) is read from an oracle that sees
      the events so far.
    - The artifacts of the output directory are the fields of a record;
      every save of the metrics document is kept, so that saves can be
      counted.
    - A function that can raise returns a [Result].
    - A [Path] is given by a text; where the code prints or joins paths
      the text is the one [pathlib] gives.  A file holds the text written
      to it and is read back in text mode, line ends turned into LF.
    - Of the logger, the phase brackets are kept; its text lines are not
      modelled.  To [run_pipeline] the plugins, the detected configuration
      and the parsed arguments are inputs; plugin discovery is embedded on
      its own, over a listing of the plugin directory. *)

From Stdlib Require Import String Ascii List ZArith Lia Bool Permutation.
From Stdlib Require Import DecimalString Sorted.
Import ListNotations.
Open Scope Z_scope.
Open Scope string_scope.

(* ================================================================== *)
(** * Part I: the embedding *)
(* ================================================================== *)

(** ** Python string operations used by the code *)

Module Str.

(** [sep.join(xs)] *)
Fixpoint join (sep : string) (xs : list string) : string :=
  match xs with
  | [] => ""
  | [x] => x
  | x :: rest => x ++ sep ++ join sep rest
  end.

(** [needle in hay] *)
Fixpoint contains (needle hay : string) : bool :=
  match hay with
  | EmptyString => prefix needle EmptyString
  | String _ hay' => prefix needle hay || contains needle hay'
  end.

(** [s[:n]] *)
Definition slice_to (n : nat) (s : string) : string := substring 0%nat n s.

(** [str(z)] for an integer, as an f-string renders it. *)
Definition of_Z (z : Z) : string := NilZero.string_of_int (Z.to_int z).

(** Truthiness of a string: [if s:] *)
Definition truthy (s : string) : bool :=
  match s with EmptyString => false | _ => true end.

(** [path.read_text()] of a file that holds [content]: the file is opened
    in text mode, which turns CR LF and a lone CR into LF.  (On the POSIX
    systems the program runs on, [write_text] stores a text as it is.) *)
Fixpoint read_text (content : string) : string :=
  match content with
  | EmptyString => EmptyString
  | String c rest =>
      if (nat_of_ascii c =? 13)%nat then
        match rest with
        | String c' _ =>
            if (nat_of_ascii c' =? 10)%nat then read_text rest
            else String (ascii_of_nat 10) (read_text rest)
        | EmptyString => String (ascii_of_nat 10) EmptyString
        end
      else String c (read_text rest)
  end.

(** The text holds a CR. *)
Fixpoint has_cr (s : string) : bool :=
  match s with
  | EmptyString => false
  | String c s' => (nat_of_ascii c =? 13)%nat || has_cr s'
  end.

(** A text that holds neither CR nor LF. *)
Fixpoint one_line (s : string) : bool :=
  match s with
  | EmptyString => true
  | String c s' =>
      negb (nat_of_ascii c =? 10)%nat && negb (nat_of_ascii c =? 13)%nat
      && one_line s'
  end.

End Str.

(** ** Paths, as [pathlib] prints them *)

(** A [Path] is given by a text it can be built from; [Pathlib.str] is the
    text [str(Path(p))] that an f-string shows, [Pathlib.div] the text of
    [Path(p) / key]. *)
Module Pathlib.

(** [s.split("/")] *)
Fixpoint split_from (cur s : string) : list string :=
  match s with
  | EmptyString => [cur]
  | String c s' =>
      if Ascii.eqb c "/" then cur :: split_from EmptyString s'
      else split_from (cur ++ String c EmptyString) s'
  end.

(** The root of a POSIX path: two leading slashes are kept, one or more
    than two are one. *)
Definition root (p : string) : string :=
  match p with
  | String "/" (String "/" (String "/" _)) => "/"
  | String "/" (String "/" _) => "//"
  | String "/" _ => "/"
  | _ => ""
  end.

(** The components: empty ones and [.] are dropped, [..] is kept. *)
Definition parts (p : string) : list string :=
  filter (fun x => Str.truthy x && negb (String.eqb x "."))
         (split_from EmptyString p).

Definition format (root : string) (parts : list string) : string :=
  if Str.truthy root then root ++ Str.join "/" parts
  else match parts with
       | [] => "."
       | _ => Str.join "/" parts
       end.

Definition str (p : string) : string := format (root p) (parts p).

Definition div (p key : string) : string :=
  if Str.truthy (root key) then str key
  else format (root p) (parts p ++ parts key).

End Pathlib.

(** ** The fragment of Python's [re] that [_UNSAFE_PATTERN] needs *)

Module Regex.

Inductive re : Type :=
| Nul                              (* matches nothing *)
| Eps                              (* matches the empty string *)
| Chr (c : ascii)
| Cls (p : ascii -> bool)          (* a character class *)
| Cat (r1 r2 : re)
| Alt (r1 r2 : re)
| Star (r : re).

Fixpoint nullable (r : re) : bool :=
  match r with
  | Nul => false
  | Eps => true
  | Chr _ => false
  | Cls _ => false
  | Cat r1 r2 => nullable r1 && nullable r2
  | Alt r1 r2 => nullable r1 || nullable r2
  | Star _ => true
  end.

(** Brzozowski derivative: what remains to be matched after reading [c]. *)
Fixpoint deriv (c : ascii) (r : re) : re :=
  match r with
  | Nul => Nul
  | Eps => Nul
  | Chr d => if Ascii.eqb c d then Eps else Nul
  | Cls p => if p c then Eps else Nul
  | Cat r1 r2 =>
      if nullable r1
      then Alt (Cat (deriv c r1) r2) (deriv c r2)
      else Cat (deriv c r1) r2
  | Alt r1 r2 => Alt (deriv c r1) (deriv c r2)
  | Star r1 => Cat (deriv c r1) (Star r1)
  end.

(** [r.match(s)]: some prefix of [s] is matched by [r]. *)
Fixpoint match_prefix (s : string) (r : re) : bool :=
  nullable r ||
  match s with
  | EmptyString => false
  | String c s' => match_prefix s' (deriv c r)
  end.

(** [r.search(s)]: a match starts at some position of [s]. *)
Fixpoint search (r : re) (s : string) : bool :=
  match_prefix s r ||
  match s with
  | EmptyString => false
  | String _ s' => search r s'
  end.

(** A literal string as a pattern. *)
Fixpoint lit (s : string) : re :=
  match s with
  | EmptyString => Eps
  | String c s' => Cat (Chr c) (lit s')
  end.

(** [\s] on a [str] pattern: Unicode whitespace.  Below code point 256
    these are TAB..CR, FS..US, SPACE, NEL and NBSP. *)
Definition is_space (c : ascii) : bool :=
  let n := nat_of_ascii c in
  (((9 <=? n) && (n <=? 13)) || ((28 <=? n) && (n <=? 32))
   || (n =? 133) || (n =? 160))%nat.

Definition space : re := Cls is_space.

(** The strings a pattern matches in full. *)
Inductive Matches : re -> string -> Prop :=
| MEps : Matches Eps ""
| MChr (c : ascii) : Matches (Chr c) (String c "")
| MCls (p : ascii -> bool) (c : ascii) :
    p c = true -> Matches (Cls p) (String c "")
| MCat (r1 r2 : re) (s1 s2 : string) :
    Matches r1 s1 -> Matches r2 s2 -> Matches (Cat r1 r2) (s1 ++ s2)
| MAltL (r1 r2 : re) (s : string) : Matches r1 s -> Matches (Alt r1 r2) s
| MAltR (r1 r2 : re) (s : string) : Matches r2 s -> Matches (Alt r1 r2) s
| MStar0 (r : re) : Matches (Star r) ""
| MStarApp (r : re) (s1 s2 : string) :
    Matches r s1 -> Matches (Star r) s2 -> Matches (Star r) (s1 ++ s2).

(** A run of whitespace, possibly empty. *)
Fixpoint all_space (s : string) : bool :=
  match s with
  | EmptyString => true
  | String c s' => is_space c && all_space s'
  end.

End Regex.

(** ** [domain.py] *)

Module GateStatus.
Inductive t : Type := PASS | FAIL | SKIPPED | BLOCKED.
End GateStatus.

Module IterationOutcome.
Inductive t : Type := PASS | GATE_FAIL | VERIFY_FAIL.
End IterationOutcome.

Definition TRIANGULAR_PASS_MARKER : string := "TRIANGULAR_PASS".

(** Durations are kept in hundredths of a second: the code rounds every
    duration it stores to two decimals. *)
Definition seconds : Type := Z.

Record GateResult : Type := mkGateResult {
  name : string;
  status : GateStatus.t;
  output : string;
  gr_duration_s : seconds
}.

Record IterationMetrics : Type := mkIterationMetrics {
  iteration : Z;
  duration_s : seconds;
  phase1_done : bool;
  gate_results : list GateResult;
  verification_status : GateStatus.t;
  outcome : option IterationOutcome.t
}.

Record PipelineMetrics : Type := mkPipelineMetrics {
  started_at : string;
  ended_at : string;
  total_duration_s : seconds;
  total_iterations : Z;
  converged : bool;
  iterations : list IterationMetrics
}.

(** The dataclass defaults. *)
Definition GateResult_new (n : string) (st : GateStatus.t) (out : string) : GateResult :=
  {| name := n; status := st; output := out; gr_duration_s := 0 |}.

Definition IterationMetrics_new (i : Z) : IterationMetrics :=
  {| iteration := i; duration_s := 0; phase1_done := false;
     gate_results := []; verification_status := GateStatus.SKIPPED; outcome := None |}.

Definition PipelineMetrics_new (started : string) : PipelineMetrics :=
  {| started_at := started; ended_at := ""; total_duration_s := 0;
     total_iterations := 0; converged := false; iterations := [] |}.

(** ** The outside world *)

(** What the process does to its environment, in the order it does it. *)
Inductive Event : Type :=
| EvClaude (prompt : string) (timeout : Z)
    (* subprocess.run(["claude", "--print", "-p", prompt], timeout=timeout) *)
| EvShell (cmd : string) (timeout : Z)
    (* subprocess.run(cmd, shell=True, timeout=timeout) *)
| EvCall (gate : string)          (* an in-process gate function is called *)
| EvSleep (secs : Z)              (* time.sleep(secs) *)
| EvCheckShutdown                 (* the loop reads shutdown_requested *)
| EvWebhook (url : string) (conv : bool) (iters : Z) (dur : seconds).

(** How a [subprocess.run] call ends. *)
Inductive ProcOutcome : Type :=
| Exited (returncode : Z) (stdout stderr : string)
| TimeoutExpired
| FileNotFoundError (msg : string)
| OtherException (msg : string).

(** How a call of an in-process gate function ends. *)
Inductive CallOutcome : Type :=
| Returns (passed : bool) (msg : string)
| Raises (e : string).

(** [GateFunction = Callable[[], tuple[bool, str]]]: a closure, whose
    answer may depend on what has happened so far. *)
Definition GateFunction : Type := list Event -> CallOutcome.

(** The answers of the environment, each a function of the history. *)
Record OS : Type := mkOS {
  run_claude : list Event -> string -> Z -> ProcOutcome;
  run_shell : list Event -> string -> Z -> ProcOutcome;
  signal_delivered : list Event -> bool;   (* SIGINT or SIGTERM has arrived *)
  which_claude : bool;                     (* shutil.which("claude") *)
  clock : list Event -> seconds;           (* time.time() *)
  strftime : list Event -> string;         (* time.strftime(...) *)
  completion_pick : list Event -> nat -> nat
    (* which of the pending futures completes next *)
}.

(** Python exceptions that leave a function. *)
Inductive exn : Type :=
| RuntimeError (msg : string)
| Uncaught (msg : string).

Inductive Result (A : Type) : Type :=
| Ok (a : A)
| Raise (e : exn).
Arguments Ok {A} a.
Arguments Raise {A} e.

Definition nl : string := String (ascii_of_nat 10) EmptyString.

(** [range(lo, hi)] *)
Definition range (lo hi : Z) : list Z :=
  map (fun k => lo + Z.of_nat k) (seq 0 (Z.to_nat (hi - lo))).

(** ** [runner.py] *)

(** The [ClaudeRunner] protocol: [run(prompt, timeout, max_retries)]. *)
Definition ClaudeRunner : Type :=
  string -> Z -> Z -> list Event -> Result string * list Event.

Section Runner.
Variable os : OS.

(** The body of [for attempt in range(1, max_retries + 1)] over the
    attempts that remain, and the [raise] after the loop. *)
Fixpoint CliClaudeRunner_attempts (prompt : string) (timeout max_retries : Z)
    (attempts : list Z) (tr : list Event) : Result string * list Event :=
  match attempts with
  | [] =>
      (Raise (RuntimeError
         ("claude failed after " ++ Str.of_Z max_retries ++ " attempts")), tr)
  | attempt :: rest =>
      let tr1 := (tr ++ [EvClaude prompt timeout])%list in
      let slept :=
        if (attempt <? max_retries)%Z
        then (tr1 ++ [EvSleep (2 ^ attempt)])%list
        else tr1 in
      match run_claude os tr prompt timeout with
      | Exited returncode stdout _ =>
          if (returncode =? 0)%Z then (Ok stdout, tr1)
          else CliClaudeRunner_attempts prompt timeout max_retries rest slept
      | TimeoutExpired =>
          CliClaudeRunner_attempts prompt timeout max_retries rest slept
      | FileNotFoundError _ =>
          (Raise (RuntimeError
             "'claude' CLI not found in PATH. Install Claude Code first."), tr1)
      | OtherException e => (Raise (Uncaught e), tr1)
      end
  end.

Definition CliClaudeRunner_run : ClaudeRunner :=
  fun prompt timeout max_retries tr =>
    CliClaudeRunner_attempts prompt timeout max_retries
      (range 1 (max_retries + 1)) tr.

End Runner.

(** ** [pipeline.py]: the gate executor *)

Definition _GATE_OUTPUT_LIMIT : nat := 500%nat.

(** [re.compile(r"\$\(|`|;\s*rm\s|&&\s*rm\s|>\s*/dev/")] *)
Definition _UNSAFE_PATTERN : Regex.re :=
  Regex.Alt (Regex.lit "$(")
 (Regex.Alt (Regex.Chr "`")
 (Regex.Alt (Regex.Cat (Regex.Chr ";")
              (Regex.Cat (Regex.Star Regex.space)
                (Regex.Cat (Regex.lit "rm") Regex.space)))
 (Regex.Alt (Regex.Cat (Regex.lit "&&")
              (Regex.Cat (Regex.Star Regex.space)
                (Regex.Cat (Regex.lit "rm") Regex.space)))
            (Regex.Cat (Regex.Chr ">")
              (Regex.Cat (Regex.Star Regex.space) (Regex.lit "/dev/")))))).

Definition _is_safe_command (cmd : string) : bool :=
  negb (Regex.search _UNSAFE_PATTERN cmd).

(** The unsafe fragments, as the documentation lists them: a subshell
    opened by dollar-parenthesis or a backtick, [rm] after a semicolon or
    after a double ampersand, and a redirection into [/dev/]. *)
Inductive UnsafeFragment : string -> Prop :=
| UnsafeSubshell : UnsafeFragment "$("
| UnsafeBacktick : UnsafeFragment "`"
| UnsafeSemicolonRm (ws : string) (c : ascii) :
    Regex.all_space ws = true -> Regex.is_space c = true ->
    UnsafeFragment (";" ++ ws ++ "rm" ++ String c "")
| UnsafeAndRm (ws : string) (c : ascii) :
    Regex.all_space ws = true -> Regex.is_space c = true ->
    UnsafeFragment ("&&" ++ ws ++ "rm" ++ String c "")
| UnsafeRedirect (ws : string) :
    Regex.all_space ws = true ->
    UnsafeFragment (">" ++ ws ++ "/dev/").

(** A finished future: the gate's name and what its function returned. *)
Definition Future : Type := (string * (bool * string))%type.

(** [as_completed]: the futures in the order in which they finish; the
    environment picks, at each step, one of those still pending. *)
Fixpoint remove_at {A : Type} (i : nat) (l : list A) : list A :=
  match l with
  | [] => []
  | x :: l' => match i with O => l' | S i' => x :: remove_at i' l' end
  end.

Fixpoint complete_in_order {A : Type} (pick : nat -> nat) (step n : nat)
    (pending : list A) : list A :=
  match n with
  | O => []
  | S n' =>
      match pending with
      | [] => []
      | x :: _ =>
          let i := Nat.modulo (pick step) (length pending) in
          nth i pending x
            :: complete_in_order pick (S step) n' (remove_at i pending)
      end
  end.

Definition as_completed {A : Type} (pick : nat -> nat) (futures : list A) : list A :=
  complete_in_order pick 0 (length futures) futures.

Section Gates.
Variable os : OS.

Definition _run_gate_command (cmd : string) (timeout : Z) (tr : list Event)
    : (bool * string) * list Event :=
  if negb (_is_safe_command cmd) then
    ((false, "BLOCKED: command contains unsafe patterns: " ++ cmd), tr)
  else
    let tr' := (tr ++ [EvShell cmd timeout])%list in
    match run_shell os tr cmd timeout with
    | Exited returncode stdout stderr =>
        (((returncode =? 0)%Z, stdout ++ stderr), tr')
    | TimeoutExpired =>
        ((false, "Command timed out after " ++ Str.of_Z timeout ++ "s: " ++ cmd), tr')
    | FileNotFoundError e | OtherException e =>
        ((false, "Command failed: " ++ e), tr')
    end.

Definition _run_callable_gate (name : string) (func : GateFunction)
    (tr : list Event) : (bool * string) * list Event :=
  let tr' := (tr ++ [EvCall name])%list in
  match func tr with
  | Returns passed msg => ((passed, msg), tr')
  | Raises e => ((false, "Gate '" ++ name ++ "' raised: " ++ e), tr')
  end.

Definition status_of (passed : bool) : GateStatus.t :=
  if passed then GateStatus.PASS else GateStatus.FAIL.

(** *** Parallel discipline *)

(** [for name, cmd in gates: future_map[executor.submit(...)] = name] *)
Fixpoint submit_commands (gates : list (string * string)) (timeout : Z)
    (tr : list Event) : list Future * list Event :=
  match gates with
  | [] => ([], tr)
  | (name, cmd) :: rest =>
      let '(r, tr1) := _run_gate_command cmd timeout tr in
      let '(fs, tr2) := submit_commands rest timeout tr1 in
      ((name, r) :: fs, tr2)
  end.

(** [for cname, cfunc in callable_gates: ... = f"callable:{cname}"] *)
Fixpoint submit_callables (callable_gates : list (string * GateFunction))
    (tr : list Event) : list Future * list Event :=
  match callable_gates with
  | [] => ([], tr)
  | (cname, cfunc) :: rest =>
      let '(r, tr1) := _run_callable_gate cname cfunc tr in
      let '(fs, tr2) := submit_callables rest tr1 in
      (("callable:" ++ cname, r) :: fs, tr2)
  end.

(** [for future in as_completed(future_map): ...] *)
Fixpoint collect_completed (done : list Future)
    (results : list GateResult) (failures : list string)
    : list GateResult * list string :=
  match done with
  | [] => (results, failures)
  | (name, (passed, output)) :: rest =>
      let results' :=
        (results ++ [GateResult_new name (status_of passed)
                       (Str.slice_to _GATE_OUTPUT_LIMIT output)])%list in
      let failures' :=
        if passed then failures
        else (failures ++ [(name ++ " FAILED:" ++ nl ++ output)%string])%list in
      collect_completed rest results' failures'
  end.

Definition _run_gates_parallel (gates : list (string * string))
    (callable_gates : list (string * GateFunction)) (timeout : Z)
    (tr : list Event) : (bool * string * list GateResult) * list Event :=
  let '(fs1, tr1) := submit_commands gates timeout tr in
  let '(fs2, tr2) := submit_callables callable_gates tr1 in
  let future_map := (fs1 ++ fs2)%list in
  let '(results, failures) :=
    collect_completed (as_completed (completion_pick os tr2) future_map) [] [] in
  match failures with
  | _ :: _ => ((false, Str.join (nl ++ nl) failures, results), tr2)
  | [] => ((true, "", results), tr2)
  end.

(** *** Sequential discipline *)

(** The loop variables [gate_pass], [gate_output], [results]. *)
Record SeqState : Type := mkSeqState {
  gate_pass : bool;
  gate_output : string;
  results : list GateResult;
  seq_trace : list Event
}.

(** [for name, cmd in gates: if not gate_pass: break ...] *)
Fixpoint sequential_commands (gates : list (string * string)) (timeout : Z)
    (st : SeqState) : SeqState :=
  match gates with
  | [] => st
  | (name, cmd) :: rest =>
      if negb (gate_pass st) then st
      else
        let '((passed, output), tr') := _run_gate_command cmd timeout (seq_trace st) in
        let results' :=
          (results st ++ [GateResult_new name (status_of passed)
                            (Str.slice_to _GATE_OUTPUT_LIMIT output)])%list in
        sequential_commands rest timeout
          (if passed
           then mkSeqState (gate_pass st) (gate_output st) results' tr'
           else mkSeqState false
                  (name ++ " (" ++ cmd ++ ") FAILED:" ++ nl ++ output)
                  results' tr')
  end.

(** [for cname, cfunc in callable_gates: if not gate_pass: break ...] *)
Fixpoint sequential_callables (callable_gates : list (string * GateFunction))
    (st : SeqState) : SeqState :=
  match callable_gates with
  | [] => st
  | (cname, cfunc) :: rest =>
      if negb (gate_pass st) then st
      else
        let '((passed, output), tr') := _run_callable_gate cname cfunc (seq_trace st) in
        let results' :=
          (results st ++ [GateResult_new ("callable:" ++ cname)%string (status_of passed)
                            (Str.slice_to _GATE_OUTPUT_LIMIT output)])%list in
        sequential_callables rest
          (if passed
           then mkSeqState (gate_pass st) (gate_output st) results' tr'
           else mkSeqState false
                  ("callable:" ++ cname ++ " FAILED:" ++ nl ++ output)
                  results' tr')
  end.

Definition _run_gates_sequential (gates : list (string * string))
    (callable_gates : list (string * GateFunction)) (timeout : Z)
    (tr : list Event) : (bool * string * list GateResult) * list Event :=
  let st := sequential_commands gates timeout (mkSeqState true "" [] tr) in
  let st := sequential_callables callable_gates st in
  ((gate_pass st, gate_output st, results st), seq_trace st).

(** *** Phase 2 entry point *)

Definition _run_quality_gates (gates : list (string * string))
    (callable_gates : list (string * GateFunction)) (use_parallel : bool)
    (timeout : Z) (tr : list Event)
    : (bool * string * list GateResult) * list Event :=
  let total_gates := (length gates + length callable_gates)%nat in
  if (total_gates =? 0)%nat then ((true, "", []), tr)
  else if use_parallel then _run_gates_parallel gates callable_gates timeout tr
  else _run_gates_sequential gates callable_gates timeout tr.

End Gates.

(** ** The artifacts of the output directory *)

(** The logger's phase brackets and the runner output that phase 1 appends
    to [loop-execution.log]; the logger's plain text lines are left out. *)
Inductive LogEntry : Type :=
| LogPhaseStart (phase : string) (it : Z)
| LogPhaseEnd (phase result : string) (it : Z)
| LogRunnerOutput (text : string).

Record World : Type := mkWorld {
  trace : list Event;
  feedback_txt : option string;          (* None: the file does not exist *)
  blind_review_md : option string;
  discrepancy_report_md : option string;
  metrics_json : list PipelineMetrics;   (* every document saved, oldest first *)
  run_log : list LogEntry
}.

Definition set_trace (w : World) (tr : list Event) : World :=
  mkWorld tr (feedback_txt w) (blind_review_md w) (discrepancy_report_md w)
    (metrics_json w) (run_log w).

Definition set_feedback (w : World) (f : option string) : World :=
  mkWorld (trace w) f (blind_review_md w) (discrepancy_report_md w)
    (metrics_json w) (run_log w).

Definition write_blind_review (w : World) (text : string) : World :=
  mkWorld (trace w) (feedback_txt w) (Some text) (discrepancy_report_md w)
    (metrics_json w) (run_log w).

Definition write_discrepancy (w : World) (text : string) : World :=
  mkWorld (trace w) (feedback_txt w) (blind_review_md w) (Some text)
    (metrics_json w) (run_log w).

(** [PipelineMetrics.save(out / "metrics.json")] *)
Definition save (m : PipelineMetrics) (w : World) : World :=
  mkWorld (trace w) (feedback_txt w) (blind_review_md w) (discrepancy_report_md w)
    (metrics_json w ++ [m])%list (run_log w).

Definition log (e : LogEntry) (w : World) : World :=
  mkWorld (trace w) (feedback_txt w) (blind_review_md w) (discrepancy_report_md w)
    (metrics_json w) (run_log w ++ [e])%list.

(** [detect.ProjectConfig] *)
Record ProjectConfig : Type := mkProjectConfig {
  project_type : string;
  src_dirs : string;
  lint_cmd : string;
  test_cmd : string;
  security_cmd : string;
  instruction_files : list string;
  design_docs : list string;
  changed_files : list string;
  base_branch : string
}.

(** ** [verify.py] *)

Definition agent_b_prompt (requirements_file : string) (cfg : ProjectConfig) : string :=
  let context_lines :=
    ((if negb (length (instruction_files cfg) =? 0)%nat
      then [("Project rules/conventions: "
               ++ Str.join " " (instruction_files cfg))%string]
      else [])
     ++
     (if negb (length (design_docs cfg) =? 0)%nat
      then [("Design documents: " ++ Str.join " " (design_docs cfg))%string]
      else []))%list in
  let context_section := Str.join nl context_lines in
  let changed_section := Str.join nl (changed_files cfg) in
  let context_instruction :=
    if Str.truthy context_section
    then "Read the following files for project context:" ++ nl
           ++ context_section ++ nl ++ nl
    else "" in
  context_instruction ++ Str.join nl
    [ ("Do NOT read any requirements document (" ++ requirements_file ++ ").")%string;
      "";
      "The following files were recently changed or created:";
      changed_section;
      "";
      "For each file:";
      "1. Describe what this code does (behavior and intent, not just structure)";
      "2. List any convention/rule violations found in the project rules";
      "3. List potential issues, edge cases, or bugs";
      "";
      "Output your analysis as structured markdown." ].

Definition agent_c_prompt (requirements_file blind_review_file : string) : string :=
  Str.join nl
    [ "You are Agent C in a triangular verification process.";
      "";
      "Read these two documents carefully:";
      ("1. " ++ requirements_file ++ " (original requirements — the source of truth)")%string;
      ("2. " ++ blind_review_file ++ " (blind code analysis by another agent)")%string;
      "";
      "Do NOT read any code files directly.";
      "";
      "Compare them and produce a discrepancy report with these sections:";
      "";
      "## Requirements Met";
      "List each requirement confirmed by the blind review, with evidence.";
      "";
      "## Requirements Missed";
      "Requirements present in the requirements doc but NOT reflected in the blind review.";
      "";
      "## Extra Behavior";
      "Behavior described in the blind review but NOT in the requirements.";
      "";
      "## Potential Bugs";
      "Where the blind review contradicts or conflicts with requirements.";
      "";
      "## Verdict";
      "If ALL requirements are met and no critical issues found, output exactly on its own line:";
      TRIANGULAR_PASS_MARKER;
      "";
      "Otherwise, list each issue that must be fixed." ].

(** [requirements_file] and [output_dir] are [Path]s, given by their text.
    The lines the function hands to the logger are plain text lines, which
    the embedding leaves out here as everywhere (see [LogEntry]). *)
Definition run_triangular_verification (requirements_file output_dir : string)
    (cfg : ProjectConfig) (timeout max_retries : Z) (runner : ClaudeRunner)
    (w : World) : Result bool * World :=
  let requirements_file := Pathlib.str requirements_file in
  let blind_review_file := Pathlib.div output_dir "blind-review.md" in
  (* Agent B: blind review *)
  match runner (agent_b_prompt requirements_file cfg) timeout max_retries (trace w) with
  | (Raise e, tr1) => (Raise e, set_trace w tr1)
  | (Ok output_b, tr1) =>
      let w1 := write_blind_review (set_trace w tr1) output_b in
      (* Agent C: discrepancy report *)
      match runner (agent_c_prompt requirements_file blind_review_file)
              timeout max_retries (trace w1) with
      | (Raise e, tr2) => (Raise e, set_trace w1 tr2)
      | (Ok output_c, tr2) =>
          let w2 := write_discrepancy (set_trace w1 tr2) output_c in
          match discrepancy_report_md w2 with
          | Some content =>
              let report_text := Str.read_text content in
              (Ok (Str.contains TRIANGULAR_PASS_MARKER report_text), w2)
          | None => (Raise (Uncaught "FileNotFoundError"), w2)
          end
      end
  end.

(** ** [pipeline.py]: the orchestrator *)

(** The arguments of [run_pipeline], with the defaults resolved:
    [plugins] is what [_load_plugins(plugin_dir)] found, [prompt_text] is
    [prompt_file.read_text()]; the three [Path]s are given by their text. *)
Record RunArgs : Type := mkRunArgs {
  prompt_file : string;
  prompt_text : string;
  requirements_file : string;
  out : string;
  max_iterations : Z;
  claude_timeout : Z;
  max_retries : Z;
  webhook_url : string;
  use_parallel : bool;
  plugins : list (string * string);
  cfg : ProjectConfig;
  custom_gates : list (string * GateFunction);
  runner : ClaudeRunner
}.

(** The local variables of [run_pipeline] that the loop changes. *)
Record LoopState : Type := mkLoopState {
  world : World;
  metrics : PipelineMetrics;
  shutdown_requested : bool;
  loop_converged : bool
}.

Definition set_world (st : LoopState) (w : World) : LoopState :=
  mkLoopState w (metrics st) (shutdown_requested st) (loop_converged st).

Definition logged (e : LogEntry) (st : LoopState) : LoopState :=
  set_world st (log e (world st)).

(** [metrics.iterations.append(iter_metrics)] *)
Definition append_iteration (im : IterationMetrics) (st : LoopState) : LoopState :=
  let m := metrics st in
  mkLoopState (world st)
    (mkPipelineMetrics (started_at m) (ended_at m) (total_duration_s m)
       (total_iterations m) (converged m) (iterations m ++ [im])%list)
    (shutdown_requested st) (loop_converged st).

(** How one pass through the loop body ends. *)
Inductive Control : Type :=
| Continue
| Break
| Raised (e : exn).

(** The gates of one iteration: built-ins whose command is non-empty, then
    the plugins. *)
Definition build_gates (c : ProjectConfig) (plugins : list (string * string))
    : list (string * string) :=
  ((if Str.truthy (lint_cmd c) then [("lint", lint_cmd c)] else [])
   ++ (if Str.truthy (test_cmd c) then [("test", test_cmd c)] else [])
   ++ (if Str.truthy (security_cmd c) then [("security", security_cmd c)] else [])
   ++ map (fun p => (("plugin:" ++ fst p)%string, snd p)) plugins)%list.

Section Pipeline.
Variable os : OS.
Variable a : RunArgs.

(** [if shutdown_requested:] — the handler sets the flag whenever a signal
    has been delivered, and nothing resets it. *)
Definition read_shutdown (st : LoopState) : bool * LoopState :=
  let tr := trace (world st) in
  let flag := shutdown_requested st || signal_delivered os tr in
  (flag,
   mkLoopState (set_trace (world st) (tr ++ [EvCheckShutdown])%list)
     (metrics st) flag (loop_converged st)).

Definition _run_implementation_phase (iteration : Z) (w : World)
    : Result unit * World :=
  let prompt :=
    if (iteration =? 1)%Z then prompt_text a
    else
      let feedback :=
        match feedback_txt w with
        | Some content => Str.read_text content
        | None => "No specific feedback available"
        end in
      Str.join nl
        [ ("Read " ++ Pathlib.str (prompt_file a)
             ++ " for the full requirements.")%string;
          "";
          ("Previous iteration (" ++ Str.of_Z (iteration - 1)
             ++ ") failed with this feedback:")%string;
          "---";
          feedback;
          "---";
          "";
          "Fix the issues described above. Do NOT start from scratch.";
          "Read the existing code first, then make targeted fixes only.";
          "After fixing, verify your changes match the requirements." ] in
  match runner a prompt (claude_timeout a) (max_retries a) (trace w) with
  | (Raise e, tr') => (Raise e, set_trace w tr')
  | (Ok output, tr') => (Ok tt, log (LogRunnerOutput output) (set_trace w tr'))
  end.

Definition finish_iteration (im : IterationMetrics) (o : IterationOutcome.t)
    (vs : GateStatus.t) (iter_start : seconds) (st : LoopState) : LoopState :=
  append_iteration
    (mkIterationMetrics (iteration im)
       (clock os (trace (world st)) - iter_start)
       (phase1_done im) (gate_results im) vs (Some o)) st.

(** Lines 388-438: the shutdown check after the gates, phase 3 and phase 4. *)
Definition phase3_verification (it : Z) (iter_start : seconds)
    (im : IterationMetrics) (st : LoopState) : Control * LoopState :=
  let '(stop, st) := read_shutdown st in
  if stop then (Break, st)
  else
    let st := logged (LogPhaseStart "phase3_triangular_verify" it) st in
    match run_triangular_verification (requirements_file a) (out a) (cfg a)
            (claude_timeout a) (max_retries a) (runner a) (world st) with
    | (Raise e, w) => (Raised e, set_world st w)
    | (Ok passed, w) =>
        let st := set_world st w in
        if passed then
          let st := logged (LogPhaseEnd "phase3_triangular_verify" "pass" it) st in
          (* Phase 4: complete *)
          let st :=
            finish_iteration im IterationOutcome.PASS GateStatus.PASS
              iter_start st in
          let st := set_world st (set_feedback (world st) None) in
          (Break, mkLoopState (world st) (metrics st) (shutdown_requested st) true)
        else
          let report :=
            match discrepancy_report_md (world st) with
            | Some content => Str.read_text content
            | None => "Triangular verification failed but no discrepancy report found."
            end in
          let st := set_world st (set_feedback (world st) (Some report)) in
          let st :=
            finish_iteration im IterationOutcome.VERIFY_FAIL GateStatus.FAIL
              iter_start st in
          let st := logged (LogPhaseEnd "phase3_triangular_verify" "fail" it) st in
          (Continue, st)
    end.

(** Lines 352-386: phase 2, the quality gates. *)
Definition phase2_quality_gates (it : Z) (iter_start : seconds)
    (im : IterationMetrics) (st : LoopState) : Control * LoopState :=
  let st := logged (LogPhaseStart "phase2_quality_gates" it) st in
  let gates := build_gates (cfg a) (plugins a) in
  let callable_gates := custom_gates a in
  let '((gate_pass, gate_output, gate_results), tr') :=
    _run_quality_gates os gates callable_gates (use_parallel a)
      (claude_timeout a) (trace (world st)) in
  let st := set_world st (set_trace (world st) tr') in
  let im :=
    mkIterationMetrics (iteration im) (duration_s im) (phase1_done im)
      gate_results (verification_status im) (outcome im) in
  if negb gate_pass then
    let st := set_world st (set_feedback (world st) (Some gate_output)) in
    let st :=
      finish_iteration im IterationOutcome.GATE_FAIL (verification_status im)
        iter_start st in
    let st := logged (LogPhaseEnd "phase2_quality_gates" "fail" it) st in
    (Continue, st)
  else
    let st := logged (LogPhaseEnd "phase2_quality_gates" "pass" it) st in
    phase3_verification it iter_start im st.

(** The body of [for iteration in range(1, max_iterations + 1)]. *)
Definition loop_body (it : Z) (st : LoopState) : Control * LoopState :=
  let '(stop, st) := read_shutdown st in
  if stop then (Break, st)
  else
    let iter_start := clock os (trace (world st)) in
    let im := IterationMetrics_new it in
    (* Phase 1: implementation (or fix) *)
    let st := logged (LogPhaseStart "phase1_implement" it) st in
    match _run_implementation_phase it (world st) with
    | (Raise e, w) => (Raised e, set_world st w)
    | (Ok _, w) =>
        let st := set_world st w in
        let im :=
          mkIterationMetrics (iteration im) (duration_s im) true
            (gate_results im) (verification_status im) (outcome im) in
        let st := logged (LogPhaseEnd "phase1_implement" "completed" it) st in
        let '(stop, st) := read_shutdown st in
        if stop then (Break, st)
        else phase2_quality_gates it iter_start im st
    end.

Fixpoint for_iterations (its : list Z) (st : LoopState) : option exn * LoopState :=
  match its with
  | [] => (None, st)
  | it :: rest =>
      match loop_body it st with
      | (Continue, st') => for_iterations rest st'
      | (Break, st') => (None, st')
      | (Raised e, st') => (Some e, st')
      end
  end.

(** The [finally] block: finalize the metrics, save them, send the webhook. *)
Definition finalize (start_time : seconds) (st : LoopState) : LoopState :=
  let w := world st in
  let m := metrics st in
  let total_time := clock os (trace w) - start_time in
  let m' :=
    mkPipelineMetrics (started_at m) (strftime os (trace w)) total_time
      (Z.of_nat (length (iterations m))) (loop_converged st) (iterations m) in
  let w := save m' w in
  let w :=
    if Str.truthy (webhook_url a)
    then set_trace w
           (trace w ++ [EvWebhook (webhook_url a) (loop_converged st)
                          (total_iterations m') total_time])%list
    else w in
  mkLoopState w m' (shutdown_requested st) (loop_converged st).

(** [run_pipeline]: what it returns or raises, and the state it leaves. *)
Definition run_pipeline (w0 : World) : Result bool * LoopState :=
  let metrics0 := PipelineMetrics_new (strftime os (trace w0)) in
  let st0 := mkLoopState w0 metrics0 false false in
  let start_time := clock os (trace w0) in
  if negb (which_claude os) then (Ok false, st0)
  else
    let '(raised, st) :=
      for_iterations (range 1 (max_iterations a + 1)) st0 in
    let st := finalize start_time st in
    match raised with
    | Some e => (Raise e, st)
    | None => (Ok (loop_converged st), st)
    end.

End Pipeline.

(** ** The two disciplines, as the specification words them *)

(** A gate of either kind, so that one list holds the declaration order. *)
Inductive Gate : Type :=
| CmdGate (name cmd : string)
| FunGate (cname : string) (func : GateFunction).

(** Built-ins and plugins first, then the in-process callables. *)
Definition declaration_order (gates : list (string * string))
    (callable_gates : list (string * GateFunction)) : list Gate :=
  (map (fun g => CmdGate (fst g) (snd g)) gates
   ++ map (fun c => FunGate (fst c) (snd c)) callable_gates)%list.

(** The name under which a gate's result is recorded. *)
Definition gate_name (g : Gate) : string :=
  match g with
  | CmdGate name _ => name
  | FunGate cname _ => "callable:" ++ cname
  end.

(** The failure text of one gate under the sequential discipline. *)
Definition sequential_failure_text (g : Gate) (output : string) : string :=
  match g with
  | CmdGate name cmd => name ++ " (" ++ cmd ++ ") FAILED:" ++ nl ++ output
  | FunGate cname _ => "callable:" ++ cname ++ " FAILED:" ++ nl ++ output
  end.

(** The result record of a finished gate. *)
Definition result_of (name : string) (r : bool * string) : GateResult :=
  GateResult_new name (status_of (fst r))
    (Str.slice_to _GATE_OUTPUT_LIMIT (snd r)).

(** The block a failed gate contributes under the parallel discipline. *)
Definition parallel_failure_block (f : Future) : string :=
  fst f ++ " FAILED:" ++ nl ++ snd (snd f).

Definition future_passed (f : Future) : bool := fst (snd f).

Section Disciplines.
Variable os : OS.

Definition run_gate (g : Gate) (timeout : Z) (tr : list Event)
    : (bool * string) * list Event :=
  match g with
  | CmdGate _ cmd => _run_gate_command os cmd timeout tr
  | FunGate cname func => _run_callable_gate cname func tr
  end.

(** Sequential, in the specification's words: run the gates in order, stop
    at the first failure, report that one gate. *)
Fixpoint run_until_first_failure (gs : list Gate) (timeout : Z)
    (tr : list Event) : (bool * string * list GateResult) * list Event :=
  match gs with
  | [] => ((true, "", []), tr)
  | g :: rest =>
      let '(r, tr1) := run_gate g timeout tr in
      if fst r then
        let '((ok, text, rs), tr2) := run_until_first_failure rest timeout tr1 in
        ((ok, text, result_of (gate_name g) r :: rs), tr2)
      else
        ((false, sequential_failure_text g (snd r), [result_of (gate_name g) r]), tr1)
  end.

(** Parallel, in the specification's words: every gate is attempted,
    whatever the others do. *)
Fixpoint attempt_all (gs : list Gate) (timeout : Z) (tr : list Event)
    : list Future * list Event :=
  match gs with
  | [] => ([], tr)
  | g :: rest =>
      let '(r, tr1) := run_gate g timeout tr in
      let '(fs, tr2) := attempt_all rest timeout tr1 in
      ((gate_name g, r) :: fs, tr2)
  end.

End Disciplines.

(** Projections of what the gate executor returns. *)
Definition all_passed (x : (bool * string * list GateResult) * list Event) : bool :=
  fst (fst (fst x)).
Definition failure_text (x : (bool * string * list GateResult) * list Event) : string :=
  snd (fst (fst x)).
Definition gate_results_of (x : (bool * string * list GateResult) * list Event)
    : list GateResult :=
  snd (fst x).

(** ** Vocabulary for the agent runner's retries *)

(** The events of attempts [1 .. k-1], each followed by its backoff. *)
Definition retried (prompt : string) (timeout : Z) (k : Z) : list Event :=
  flat_map (fun i => [EvClaude prompt timeout; EvSleep (2 ^ i)]) (range 1 k).

(** What the agent answers at attempt [k], the earlier ones having failed. *)
Definition attempt_outcome (os : OS) (prompt : string) (timeout : Z)
    (tr : list Event) (k : Z) : ProcOutcome :=
  run_claude os (tr ++ retried prompt timeout k)%list prompt timeout.

(** A failed attempt: a non-zero exit code or a timeout. *)
Definition attempt_failed (o : ProcOutcome) : bool :=
  match o with
  | Exited returncode _ _ => negb (returncode =? 0)%Z
  | TimeoutExpired => true
  | FileNotFoundError _ | OtherException _ => false
  end.

(** The error raised once every attempt has failed. *)
Definition failed_after (max_retries : Z) : Result string :=
  Raise (RuntimeError ("claude failed after " ++ Str.of_Z max_retries ++ " attempts")).

(** What the last attempt decides. *)
Definition verdict (max_retries : Z) (o : ProcOutcome) : Result string :=
  match o with
  | Exited returncode stdout _ =>
      if (returncode =? 0)%Z then Ok stdout else failed_after max_retries
  | TimeoutExpired => failed_after max_retries
  | FileNotFoundError _ =>
      Raise (RuntimeError "'claude' CLI not found in PATH. Install Claude Code first.")
  | OtherException e => Raise (Uncaught e)
  end.

(** ** Vocabulary for the metrics of a run *)

(** The number of gates an iteration is configured with. *)
Definition configured_gates (a : RunArgs) : nat :=
  (length (build_gates (cfg a) (plugins a)) + length (custom_gates a))%nat.

(** Every one of the [n] configured gates has a result, and it is a pass. *)
Definition all_gates_passed (n : nat) (im : IterationMetrics) : Prop :=
  length (gate_results im) = n
  /\ Forall (fun r => status r = GateStatus.PASS) (gate_results im).

(** The outcome of the iteration recorded last, if any. *)
Definition last_outcome (its : list IterationMetrics) : option IterationOutcome.t :=
  last (map outcome its) None.

(** The iterations for which the log holds the start of [phase]. *)
Fixpoint phase_starts (phase : string) (l : list LogEntry) : list Z :=
  match l with
  | [] => []
  | LogPhaseStart p it :: l' =>
      if String.eqb p phase then it :: phase_starts phase l'
      else phase_starts phase l'
  | _ :: l' => phase_starts phase l'
  end.

(** An iteration record is consistent when its outcome is Pass exactly if
    all configured gates passed and verification passed in it. *)
Definition consistent (n : nat) (im : IterationMetrics) : Prop :=
  outcome im = Some IterationOutcome.PASS <->
  all_gates_passed n im /\ verification_status im = GateStatus.PASS.

(** The loop has not converged: the flag is down and the last record, if
    any, is a failure. *)
Definition running (n : nat) (st : LoopState) : Prop :=
  loop_converged st = false
  /\ Forall (consistent n) (iterations (metrics st))
  /\ last_outcome (iterations (metrics st)) <> Some IterationOutcome.PASS.

(** The loop has ended: the flag is up exactly if the last record is a Pass. *)
Definition stopped (n : nat) (st : LoopState) : Prop :=
  Forall (consistent n) (iterations (metrics st))
  /\ (loop_converged st = true <->
      last_outcome (iterations (metrics st)) = Some IterationOutcome.PASS).

(** What one pass through the loop body must establish. *)
Definition after (n : nat) (r : Control * LoopState) : Prop :=
  match fst r with
  | Break => stopped n (snd r)
  | Continue | Raised _ => running n (snd r)
  end.

(** What an iteration that fails its gates leaves behind. *)
Definition gate_failed_step (its : list Z) (st st' : LoopState) : Prop :=
  shutdown_requested st' = false
  /\ loop_converged st' = loop_converged st
  /\ (exists ims,
        iterations (metrics st') = (iterations (metrics st) ++ ims)%list
        /\ map iteration ims = its
        /\ map outcome ims = map (fun _ => Some IterationOutcome.GATE_FAIL) its)
  /\ (exists L,
        run_log (world st') = (run_log (world st) ++ L)%list
        /\ phase_starts "phase1_implement" L = its
        /\ phase_starts "phase2_quality_gates" L = its
        /\ phase_starts "phase3_triangular_verify" L = []).

(** ** Vocabulary for what happens in one iteration *)

(** The state in which [run_pipeline] enters its loop. *)
Definition initial_state (os : OS) (w0 : World) : LoopState :=
  mkLoopState w0 (PipelineMetrics_new (strftime os (trace w0))) false false.

Section Iteration.
Variable os : OS.
Variable a : RunArgs.

(** The state in which phase 1 of iteration [it] calls the runner, the
    iteration having begun in [st]: after the shutdown check of line 323. *)
Definition at_phase1 (it : Z) (st : LoopState) : LoopState :=
  logged (LogPhaseStart "phase1_implement" it) (snd (read_shutdown os st)).

(** The state in which phase 2 calls the gate executor, phase 1 having
    left the world [w1]: after the shutdown check of line 349. *)
Definition at_phase2 (it : Z) (st : LoopState) (w1 : World) : LoopState :=
  logged (LogPhaseStart "phase2_quality_gates" it)
    (snd (read_shutdown os
            (logged (LogPhaseEnd "phase1_implement" "completed" it)
               (set_world (at_phase1 it st) w1)))).

(** The state in which phase 3 calls the verification protocol, the gates
    having been run in [st2] and having left the history [tr2]: after the
    shutdown check of line 388. *)
Definition at_phase3 (it : Z) (st2 : LoopState) (tr2 : list Event) : LoopState :=
  logged (LogPhaseStart "phase3_triangular_verify" it)
    (snd (read_shutdown os
            (logged (LogPhaseEnd "phase2_quality_gates" "pass" it)
               (set_world st2 (set_trace (world st2) tr2))))).

(** What the gate executor returns when the run calls it in [st]. *)
Definition quality_gates_at (st : LoopState)
    : (bool * string * list GateResult) * list Event :=
  _run_quality_gates os (build_gates (cfg a) (plugins a)) (custom_gates a)
    (use_parallel a) (claude_timeout a) (trace (world st)).

(** What the verification protocol returns when the run calls it in [st]. *)
Definition verification_at (st : LoopState) : Result bool * World :=
  run_triangular_verification (requirements_file a) (out a) (cfg a)
    (claude_timeout a) (max_retries a) (runner a) (world st).

(** Iteration [it], begun in [st], gets as far as its gates, which it runs
    in [st2]: no shutdown is requested at its first two checks and the
    implementation phase completes. *)
Definition reaches_gates (it : Z) (st st2 : LoopState) : Prop :=
  shutdown_requested (at_phase1 it st) = false
  /\ exists w1,
       _run_implementation_phase a it (world (at_phase1 it st)) = (Ok tt, w1)
       /\ st2 = at_phase2 it st w1
       /\ shutdown_requested st2 = false.

(** Iteration [it], begun in [st], passes with the gate results [results]:
    it gets as far as its gates, the executor reports that every gate
    passed, no shutdown is requested at the third check, and the
    verification protocol returns true. *)
Definition iteration_passes (it : Z) (st : LoopState)
    (results : list GateResult) : Prop :=
  exists st2 gate_output tr2 w3,
    reaches_gates it st st2
    /\ quality_gates_at st2 = ((true, gate_output, results), tr2)
    /\ shutdown_requested (at_phase3 it st2 tr2) = false
    /\ verification_at (at_phase3 it st2 tr2) = (Ok true, w3).

(** Iteration [it], begun in [st], gets as far as its gates, and the
    executor reports a failure. *)
Definition iteration_fails_its_gates (it : Z) (st : LoopState) : Prop :=
  exists st2,
    reaches_gates it st st2 /\ all_passed (quality_gates_at st2) = false.

(** The state the iterations [its], begun in [st], leave when each of them
    ends in [continue]. *)
Fixpoint continued (its : list Z) (st : LoopState) : option LoopState :=
  match its with
  | [] => Some st
  | it :: rest =>
      match loop_body os a it st with
      | (Continue, st') => continued rest st'
      | _ => None
      end
  end.

(** The state of the loop of a run from [w0] once it has gone through the
    iterations before [k]. *)
Definition state_before (w0 : World) (k : Z) : LoopState :=
  snd (for_iterations os a (range 1 k) (initial_state os w0)).

End Iteration.

(** ** Vocabulary for the gate executor *)

(** A result whose stored output respects the limit. *)
Definition bounded (r : GateResult) : Prop :=
  (String.length (output r) <= _GATE_OUTPUT_LIMIT)%nat.

(** The results of gates that ran earlier, put in front. *)
Definition prepend (rs0 : list GateResult)
    (x : (bool * string * list GateResult) * list Event)
    : (bool * string * list GateResult) * list Event :=
  ((all_passed x, failure_text x, rs0 ++ gate_results_of x)%list, snd x).

(** The loop variables of the sequential discipline, as it returns them. *)
Definition observe (st : SeqState) : (bool * string * list GateResult) * list Event :=
  ((gate_pass st, gate_output st, results st), seq_trace st).

(** The verdict agrees with the results: a pass has one passing result per
    gate, a failure has a failed result. *)
Definition verdict_matches_results (n : nat)
    (x : (bool * string * list GateResult) * list Event) : Prop :=
  if all_passed x
  then length (gate_results_of x) = n
       /\ Forall (fun r => status r = GateStatus.PASS) (gate_results_of x)
  else Exists (fun r => status r = GateStatus.FAIL) (gate_results_of x).

(** ** Concrete environments, to run the model on *)

Module Scenario.

(** An environment without signals, whose clock ticks once per event and
    where the first pending future always completes first. *)
Definition calm_os (claude shell : list Event -> string -> ProcOutcome)
    (which : bool) : OS :=
  mkOS (fun tr p _ => claude tr p) (fun tr c _ => shell tr c)
    (fun _ => false) which
    (fun tr => Z.of_nat (length tr))
    (fun _ => "2026-01-01T00:00:00+0000")
    (fun _ _ => 0%nat).

(** The mock agent of the integration tests: it answers Agent C with a
    passing verdict and everything else with a review. *)
Definition mock_claude_verify_pass (_ : list Event) (prompt : string) : ProcOutcome :=
  if Str.contains "Agent C" prompt
  then Exited 0 ("## Verdict" ++ nl ++ "TRIANGULAR_PASS" ++ nl) ""
  else Exited 0 ("## Blind Review" ++ nl ++ "Code looks correct." ++ nl) "".

(** The plain mock agent: it echoes its arguments. *)
Definition mock_claude (_ : list Event) (prompt : string) : ProcOutcome :=
  Exited 0 ("Mock claude output: --print -p " ++ prompt ++ nl) "".

(** A shell that knows [true] and [false]. *)
Definition sh (_ : list Event) (cmd : string) : ProcOutcome :=
  if String.eqb cmd "true" then Exited 0 "" "" else Exited 1 "" "".

(** A shell whose commands fail the first three times they are run and
    succeed from then on. *)
Definition shell_calls (tr : list Event) : nat :=
  length (filter (fun e => match e with EvShell _ _ => true | _ => false end) tr).

Definition sh_fails_thrice (tr : list Event) (_ : string) : ProcOutcome :=
  if (shell_calls tr <? 3)%nat then Exited 1 "" "still broken" else Exited 0 "" "".

(** An agent that fails until the runner has slept once. *)
Definition flaky_claude (tr : list Event) (_ : string) : ProcOutcome :=
  if existsb (fun e => match e with EvSleep _ => true | _ => false end) tr
  then Exited 0 "ok" ""
  else Exited 1 "" "err".

(** An agent that always fails, and one whose executable is gone. *)
Definition failing_claude (_ : list Event) (_ : string) : ProcOutcome :=
  Exited 1 "" "err".

Definition vanished_claude (_ : list Event) (_ : string) : ProcOutcome :=
  FileNotFoundError "claude".

(** An agent whose report lists a fix and holds no marker. *)
Definition strict_claude (_ : list Event) (_ : string) : ProcOutcome :=
  Exited 0 ("## Verdict" ++ nl ++ "1. The function must return 'hello'." ++ nl) "".

(** The calm environment, except that a signal arrives while the agent
    runs for the first time. *)
Definition interrupted_os (claude shell : list Event -> string -> ProcOutcome) : OS :=
  mkOS (fun tr p _ => claude tr p) (fun tr c _ => shell tr c)
    (existsb (fun e => match e with EvClaude _ _ => true | _ => false end))
    true
    (fun tr => Z.of_nat (length tr))
    (fun _ => "2026-01-01T00:00:00+0000")
    (fun _ _ => 0%nat).

Definition empty_world : World := mkWorld [] None None None [] [].

Definition config (lint test security : string) : ProjectConfig :=
  mkProjectConfig "python" "." lint test security [] [] [] "main".

Definition args (os : OS) (max_iterations : Z) (parallel : bool)
    (c : ProjectConfig) (custom : list (string * GateFunction)) : RunArgs :=
  mkRunArgs "PROMPT.md" "Implement a hello function." "requirements.md"
    ".agentic-dev-pipeline" max_iterations 300 2 "" parallel [] c custom
    (CliClaudeRunner_run os).

End Scenario.

(** ** Vocabulary for further properties of the runner and the executor *)

(** How often the agent was started, and how long the process slept. *)
Fixpoint agent_calls (l : list Event) : nat :=
  match l with
  | [] => 0%nat
  | EvClaude _ _ :: l' => S (agent_calls l')
  | _ :: l' => agent_calls l'
  end.

Fixpoint slept (l : list Event) : Z :=
  match l with
  | [] => 0
  | EvSleep secs :: l' => secs + slept l'
  | _ :: l' => slept l'
  end.

(** The command holds one of the unsafe fragments. *)
Definition holds_unsafe_fragment (cmd : string) : Prop :=
  exists pre m post, cmd = pre ++ m ++ post /\ UnsafeFragment m.

(** The executor records a pass or a failure, nothing else. *)
Definition two_valued (r : GateResult) : Prop :=
  status r = GateStatus.PASS \/ status r = GateStatus.FAIL.

(** ** Vocabulary for further properties of the loop *)

(** What a recorded iteration looks like. *)
Definition recorded_well (im : IterationMetrics) : Prop :=
  phase1_done im = true
  /\ match outcome im with
     | Some IterationOutcome.PASS =>
         verification_status im = GateStatus.PASS
     | Some IterationOutcome.GATE_FAIL =>
         verification_status im = GateStatus.SKIPPED /\ gate_results im <> []
     | Some IterationOutcome.VERIFY_FAIL =>
         verification_status im = GateStatus.FAIL
     | None => False
     end.

Definition failed (im : IterationMetrics) : Prop :=
  outcome im <> Some IterationOutcome.PASS.

(** The loop is about to run iteration [next] or a later one. *)
Definition in_progress (next : Z) (st : LoopState) : Prop :=
  let its := iterations (metrics st) in
  loop_converged st = false
  /\ Forall recorded_well its
  /\ Forall failed its
  /\ (its <> [] -> feedback_txt (world st) <> None)
  /\ StronglySorted Z.lt (map iteration its)
  /\ Forall (fun i => 1 <= i < next) (map iteration its).

(** The loop has been left, by exhaustion, by [break] or by an exception. *)
Definition finished (next : Z) (st : LoopState) : Prop :=
  let its := iterations (metrics st) in
  Forall recorded_well its
  /\ StronglySorted Z.lt (map iteration its)
  /\ Forall (fun i => 1 <= i < next) (map iteration its)
  /\ Forall failed (removelast its)
  /\ (if loop_converged st
      then last_outcome its = Some IterationOutcome.PASS
           /\ feedback_txt (world st) = None
      else Forall failed its
           /\ (its <> [] -> feedback_txt (world st) <> None)).

(** What one pass through the loop body at iteration [it] establishes. *)
Definition carried_on (it : Z) (r : Control * LoopState) : Prop :=
  match fst r with
  | Break => finished (it + 1) (snd r)
  | Continue | Raised _ => in_progress (it + 1) (snd r)
  end.

(** The prompt of phase 1: the original prompt on iteration 1, the
    corrective prompt afterwards. *)
Definition implementation_prompt (a : RunArgs) (iteration : Z) (w : World) : string :=
  if (iteration =? 1)%Z then prompt_text a
  else
    let feedback :=
      match feedback_txt w with
      | Some content => Str.read_text content
      | None => "No specific feedback available"
      end in
    Str.join nl
      [ ("Read " ++ Pathlib.str (prompt_file a)
           ++ " for the full requirements.")%string;
        "";
        ("Previous iteration (" ++ Str.of_Z (iteration - 1)
           ++ ") failed with this feedback:")%string;
        "---";
        feedback;
        "---";
        "";
        "Fix the issues described above. Do NOT start from scratch.";
        "Read the existing code first, then make targeted fixes only.";
        "After fixing, verify your changes match the requirements." ].

(** ** [domain.py]: how the metrics present the gate results *)

(** [GateStatus.value] *)
Definition GateStatus_value (s : GateStatus.t) : string :=
  match s with
  | GateStatus.PASS => "pass"
  | GateStatus.FAIL => "fail"
  | GateStatus.SKIPPED => "skipped"
  | GateStatus.BLOCKED => "blocked"
  end.

(** [IterationOutcome.value] *)
Definition IterationOutcome_value (o : IterationOutcome.t) : string :=
  match o with
  | IterationOutcome.PASS => "pass"
  | IterationOutcome.GATE_FAIL => "gate_fail"
  | IterationOutcome.VERIFY_FAIL => "verify_fail"
  end.

(** [for g in self.gate_results: if g.name == name: return g.status.value] *)
Fixpoint _gate_status_loop (gate_results : list GateResult) (n : string) : string :=
  match gate_results with
  | [] => GateStatus_value GateStatus.SKIPPED
  | g :: rest =>
      if String.eqb (name g) n then GateStatus_value (status g)
      else _gate_status_loop rest n
  end.

Definition _gate_status (im : IterationMetrics) (n : string) : string :=
  _gate_status_loop (gate_results im) n.

Definition lint_result (im : IterationMetrics) : string := _gate_status im "lint".
Definition test_result (im : IterationMetrics) : string := _gate_status im "test".
Definition security_result (im : IterationMetrics) : string :=
  _gate_status im "security".
Definition verification_result (im : IterationMetrics) : string :=
  GateStatus_value (verification_status im).

(** One dictionary of [plugin_results]. *)
Record PluginResult : Type := mkPluginResult {
  pr_name : string;
  pr_result : string;
  pr_output : string;
  pr_duration_s : seconds
}.

(** [g.name not in ("lint", "test", "security")] *)
Definition not_builtin (n : string) : bool :=
  negb (String.eqb n "lint" || String.eqb n "test" || String.eqb n "security").

Definition plugin_results (im : IterationMetrics) : list PluginResult :=
  map (fun g => mkPluginResult (name g) (GateStatus_value (status g))
                  (output g) (gr_duration_s g))
      (filter (fun g => not_builtin (name g)) (gate_results im)).

(** ** Python's [sorted], for values ordered by a string *)

Section SortedBy.
Context {A : Type} (key : A -> string).

(** Insert before the first element that is not smaller: equal keys keep
    their order, as in Python's stable sort. *)
Fixpoint insert_by (x : A) (l : list A) : list A :=
  match l with
  | [] => [x]
  | y :: l' =>
      if String.leb (key x) (key y) then x :: y :: l'
      else y :: insert_by x l'
  end.

Definition sorted_by (l : list A) : list A := fold_right insert_by [] l.

(** The order of the keys. *)
Definition key_le (x y : A) : Prop := String.leb (key x) (key y) = true.

End SortedBy.

(** ** [pipeline.py]: plugin discovery *)

(** An entry of the plugin directory, with the attributes of its [Path] as
    [pathlib] reports them. *)
Record DirEntry : Type := mkDirEntry {
  entry_name : string;      (* f.name, the final component *)
  entry_path : string;      (* str(f) *)
  entry_suffix : string;    (* f.suffix *)
  entry_stem : string;      (* f.stem *)
  entry_is_file : bool      (* f.is_file() *)
}.

(** The branch the loop of [_load_plugins] takes for one entry. *)
Definition plugin_of_entry (f : DirEntry) : list (string * string) :=
  if String.eqb (entry_suffix f) ".sh" && entry_is_file f
  then [(entry_stem f, "bash " ++ entry_path f)]
  else if String.eqb (entry_suffix f) ".py" && entry_is_file f
  then [(entry_stem f, "python3 " ++ entry_path f)]
  else [].

(** [_load_plugins(plugin_dir)]: [environ] is the value of [$PLUGIN_DIR],
    [iterdir] lists a directory and is [None] for what is not a directory.
    Entries of one directory compare by their final component. *)
Definition _load_plugins (plugin_dir : option string) (environ : option string)
    (iterdir : string -> option (list DirEntry)) : list (string * string) :=
  let from_environ := match environ with Some d => d | None => "" end in
  let pdir :=
    match plugin_dir with
    | Some d => if Str.truthy d then d else from_environ
    | None => from_environ
    end in
  if negb (Str.truthy pdir) then []
  else
    match iterdir pdir with
    | None => []
    | Some entries => flat_map plugin_of_entry (sorted_by entry_name entries)
    end.

(** An entry that becomes a plugin: a regular file ending in .sh or .py. *)
Definition is_plugin (f : DirEntry) : bool :=
  (String.eqb (entry_suffix f) ".sh" || String.eqb (entry_suffix f) ".py")
  && entry_is_file f.

(** ** [config.py]: layered configuration *)

Module Config.

(** The values a configuration dictionary holds. *)
Inductive object : Type :=
| PyNone
| PyInt (n : Z)
| PyStr (s : string)
| PyPath (p : string)
| PyOther (repr : string).

Definition is_None (v : object) : bool :=
  match v with PyNone => true | _ => false end.

(** A [dict] with string keys: its items in insertion order. *)
Definition dict : Type := list (string * object).

(** [d.get(k)]; [None] for a missing key. *)
Fixpoint dict_get (k : string) (d : dict) : option object :=
  match d with
  | [] => None
  | (k', v) :: d' => if String.eqb k' k then Some v else dict_get k d'
  end.

(** [d[k] = v]: a present key keeps its place. *)
Fixpoint dict_set (k : string) (v : object) (d : dict) : dict :=
  match d with
  | [] => [(k, v)]
  | (k', v') :: d' =>
      if String.eqb k' k then (k', v) :: d' else (k', v') :: dict_set k v d'
  end.

Record PipelineConfig : Type := mkPipelineConfig {
  prompt_file : object;
  requirements_file : object;
  max_iterations : object;
  timeout : object;
  max_retries : object;
  base_branch : object
}.

(** The names of the fields of the dataclass. *)
Definition known : list string :=
  ["prompt_file"; "requirements_file"; "max_iterations"; "timeout";
   "max_retries"; "base_branch"].

Definition is_known (k : string) : bool := existsb (String.eqb k) known.

(** The default of a field. *)
Definition default (name : string) : object :=
  if String.eqb name "max_iterations" then PyInt 5
  else if String.eqb name "timeout" then PyInt 300
  else if String.eqb name "max_retries" then PyInt 2
  else if String.eqb name "base_branch" then PyStr "main"
  else PyNone.

(** [cls] called with keyword arguments: the generated [__init__] stores
    what it is given and raises [TypeError], here [None], on a keyword that
    is not a field. *)
Definition PipelineConfig_init (kwargs : dict) : option PipelineConfig :=
  if forallb (fun kv => is_known (fst kv)) kwargs then
    let arg name :=
      match dict_get name kwargs with Some v => v | None => default name end in
    Some {| prompt_file := arg "prompt_file";
            requirements_file := arg "requirements_file";
            max_iterations := arg "max_iterations";
            timeout := arg "timeout";
            max_retries := arg "max_retries";
            base_branch := arg "base_branch" |}
  else None.

(** The inner loop of [resolve] over the items of one layer. *)
Definition merge_layer (merged layer : dict) : dict :=
  fold_left
    (fun m kv => if is_None (snd kv) then m else dict_set (fst kv) (snd kv) m)
    layer merged.

(** [PipelineConfig.resolve(explicit, project_root)], given the dictionaries
    that [from_env], [from_file] and [from_pyproject] return. *)
Definition resolve (explicit : option dict)
    (env_layer file_layer pyproject_layer : dict) : option PipelineConfig :=
  let explicit_layer := match explicit with Some d => d | None => [] end in
  let merged :=
    fold_left merge_layer
      [env_layer; file_layer; pyproject_layer; explicit_layer] [] in
  let filtered := filter (fun kv => is_known (fst kv)) merged in
  PipelineConfig_init filtered.

(** [getattr(c, name)] for the name of a field. *)
Definition getattr (c : PipelineConfig) (name : string) : option object :=
  if String.eqb name "prompt_file" then Some (prompt_file c)
  else if String.eqb name "requirements_file" then Some (requirements_file c)
  else if String.eqb name "max_iterations" then Some (max_iterations c)
  else if String.eqb name "timeout" then Some (timeout c)
  else if String.eqb name "max_retries" then Some (max_retries c)
  else if String.eqb name "base_branch" then Some (base_branch c)
  else None.

(** What a layer gives for a key: its value, unless missing or [None]. *)
Definition given (name : string) (layer : dict) : option object :=
  match dict_get name layer with
  | Some v => if is_None v then None else Some v
  | None => None
  end.

(** The first of the layers, in the order listed, that gives a value. *)
Fixpoint first_given (name : string) (layers : list dict) : option object :=
  match layers with
  | [] => None
  | layer :: rest =>
      match given name layer with
      | Some v => Some v
      | None => first_given name rest
      end
  end.

(** A dictionary has each key once. *)
Definition well_formed (d : dict) : Prop := NoDup (map fst d).

End Config.

(** ** [detect.py]: the changed files *)

Module Detect.

(** [s.lstrip()], [s.rstrip()] and [s.strip()] *)
Fixpoint lstrip (s : string) : string :=
  match s with
  | EmptyString => EmptyString
  | String c s' => if Regex.is_space c then lstrip s' else s
  end.

Fixpoint rstrip (s : string) : string :=
  match s with
  | EmptyString => EmptyString
  | String c s' =>
      match rstrip s' with
      | EmptyString => if Regex.is_space c then EmptyString else String c EmptyString
      | r => String c r
      end
  end.

Definition strip (s : string) : string := rstrip (lstrip s).

(** The line boundaries of [str.splitlines] below code point 256:
    LF, VT, FF, CR, FS, GS, RS and NEL; CR LF counts once. *)
Definition is_linebreak (c : ascii) : bool :=
  let n := nat_of_ascii c in
  (((10 <=? n) && (n <=? 13)) || ((28 <=? n) && (n <=? 30)) || (n =? 133))%nat.

Fixpoint splitlines_from (after_cr : bool) (line s : string) : list string :=
  match s with
  | EmptyString => if Str.truthy line then [line] else []
  | String c s' =>
      if after_cr && (nat_of_ascii c =? 10)%nat then splitlines_from false line s'
      else if is_linebreak c
      then line :: splitlines_from (nat_of_ascii c =? 13)%nat EmptyString s'
      else splitlines_from false (line ++ String c EmptyString) s'
  end.

(** [s.splitlines()] *)
Definition splitlines (s : string) : list string :=
  splitlines_from false EmptyString s.

Fixpoint split_from (word s : string) : list string :=
  match s with
  | EmptyString => if Str.truthy word then [word] else []
  | String c s' =>
      if Regex.is_space c
      then (if Str.truthy word then word :: split_from EmptyString s'
            else split_from EmptyString s')
      else split_from (word ++ String c EmptyString) s'
  end.

(** [s.split()]: the words between runs of whitespace. *)
Definition split (s : string) : list string := split_from EmptyString s.

(** [sorted(set(l))] for strings: the distinct elements in ascending order,
    whatever the order in which the set yields them. *)
Definition sorted_set (l : list string) : list string :=
  sorted_by (fun x => x) (nodup string_dec l).

(** A path that [root.rglob] yields: its components, and the text of the
    path relative to the root. *)
Record FoundPath : Type := mkFoundPath {
  parts : list string;
  relative_to_root : string
}.

(** What the detection reads. *)
Record Project : Type := mkProject {
  environ : string -> option string;      (* os.environ.get *)
  is_file : string -> bool;               (* (root / name).is_file() *)
  git : list string -> ProcOutcome;       (* subprocess.run(["git", *args]) *)
  rglob : string -> list FoundPath        (* root.rglob(pattern) *)
}.

(** [os.environ.get(name)] where only a non-empty value counts. *)
Definition env_override (p : Project) (name : string) : option string :=
  match environ p name with
  | Some v => if Str.truthy v then Some v else None
  | None => None
  end.

Definition detect_project_type (p : Project) : string :=
  match env_override p "PROJECT_TYPE" with
  | Some env_val => env_val
  | None =>
      if existsb (is_file p) ["pyproject.toml"; "setup.py"; "setup.cfg"]
      then "python"
      else if is_file p "package.json" then "node"
      else if is_file p "Cargo.toml" then "rust"
      else if is_file p "go.mod" then "go"
      else "unknown"
  end.

(** The inner function [_git]: a timeout and a missing [git] give no line,
    any other exception leaves the function. *)
Definition _git (p : Project) (args : list string) : Result (list string) :=
  match git p args with
  | Exited _ stdout _ =>
      Ok (firstn 200 (filter Str.truthy (splitlines (strip stdout))))
  | TimeoutExpired | FileNotFoundError _ => Ok []
  | OtherException msg => Raise (Uncaught msg)
  end.

Definition ext_map (ptype : string) : list string :=
  if String.eqb ptype "python" then ["*.py"]
  else if String.eqb ptype "node" then ["*.ts"; "*.tsx"; "*.js"; "*.jsx"]
  else if String.eqb ptype "rust" then ["*.rs"]
  else if String.eqb ptype "go" then ["*.go"]
  else ["*.py"; "*.ts"; "*.js"; "*.rs"; "*.go"].

Definition in_excluded_dir (f : FoundPath) : bool :=
  existsb (fun part => existsb (String.eqb part) (parts f))
          ["node_modules"; ".venv"; "target"; "__pycache__"].

(** The fallback of [detect_changed_files]: source files by extension. *)
Definition source_files (p : Project) (ptype : string) : list string :=
  let found :=
    flat_map
      (fun pattern =>
         map relative_to_root
             (filter (fun f => negb (in_excluded_dir f)) (rglob p pattern)))
      (ext_map ptype) in
  firstn 200 (sorted_set found).

(** The four listings that [detect_changed_files] asks of git, in order. *)
Definition git_queries (base_branch : string) : list (list string) :=
  [ ["diff"; "--name-only"; base_branch ++ "..HEAD"];
    ["diff"; "--name-only"; "--cached"];
    ["diff"; "--name-only"; "HEAD"];
    ["ls-files"; "--others"; "--exclude-standard"] ].

Definition detect_changed_files (p : Project) (base_branch : string)
    (project_type : option string) : Result (list string) :=
  match env_override p "CHANGED_FILES" with
  | Some env_val => Ok (split env_val)
  | None =>
      let ptype :=
        match project_type with
        | Some t => if Str.truthy t then t else detect_project_type p
        | None => detect_project_type p
        end in
      match _git p ["diff"; "--name-only"; base_branch ++ "..HEAD"] with
      | Raise e => Raise e
      | Ok committed =>
      match _git p ["diff"; "--name-only"; "--cached"] with
      | Raise e => Raise e
      | Ok staged =>
      match _git p ["diff"; "--name-only"; "HEAD"] with
      | Raise e => Raise e
      | Ok unstaged =>
      match _git p ["ls-files"; "--others"; "--exclude-standard"] with
      | Raise e => Raise e
      | Ok untracked =>
          let all_files :=
            sorted_set (committed ++ staged ++ unstaged ++ untracked)%list in
          let all_files :=
            match all_files with
            | [] => source_files p ptype
            | _ => all_files
            end in
          let all_files :=
            match all_files with
            | [] => ["No changed files detected"]
            | _ => all_files
            end in
          Ok all_files
      end end end end
  end.

(** A run of git that ends in a way [_git] handles. *)
Definition handled (o : ProcOutcome) : Prop :=
  match o with OtherException _ => False | _ => True end.

(** Strictly ascending: sorted, and no entry twice. *)
Definition ascending (l : list string) : Prop :=
  StronglySorted (fun a b => String.leb a b = true /\ a <> b) l.

End Detect.

(* ================================================================== *)
(** * Part II: what the code guarantees *)
(* ================================================================== *)

(** ** Strings *)

Module StrFacts.

Lemma append_assoc (s1 s2 s3 : string) : (s1 ++ s2) ++ s3 = s1 ++ (s2 ++ s3).
Proof.
  induction s1 as [|c s1 IH]; simpl; [reflexivity | now rewrite IH].
Qed.

Lemma prefix_spec (p s : string) :
  prefix p s = true <-> exists post, s = p ++ post.
Proof.
  revert s; induction p as [|c p IH]; intros s.
  - destruct s; simpl; split; eauto.
  - destruct s as [|d s]; simpl.
    + split; [discriminate | intros [post H]; discriminate].
    + destruct (ascii_dec c d) as [->|Hne].
      * rewrite IH. split; intros [post H]; exists post.
        -- now rewrite H.
        -- now inversion H.
      * split; [discriminate | intros [post H]; inversion H; congruence].
Qed.

(** [needle in hay] is the plain substring test. *)
Lemma contains_spec (needle hay : string) :
  Str.contains needle hay = true <->
  exists pre post, hay = pre ++ needle ++ post.
Proof.
  induction hay as [|c hay IH]; cbn [Str.contains].
  - rewrite prefix_spec. split.
    + intros [post H]. exists "", post. exact H.
    + intros [pre [post H]]. destruct pre; simpl in H.
      * now exists post.
      * discriminate.
  - rewrite orb_true_iff, IH, prefix_spec. split.
    + intros [[post H] | [pre [post H]]].
      * exists "", post. exact H.
      * exists (String c pre), post. simpl. now rewrite H.
    + intros [pre [post H]]. destruct pre as [|d pre]; simpl in H.
      * left. now exists post.
      * right. inversion H. now exists pre, post.
Qed.

(** Reading a file back changes its line ends only. *)
Lemma read_text_other (c : ascii) (s : string) :
  (nat_of_ascii c =? 13)%nat = false ->
  Str.read_text (String c s) = String c (Str.read_text s).
Proof. intros H. cbn [Str.read_text]. now rewrite H. Qed.

Lemma read_text_unix (s : string) :
  Str.has_cr s = false -> Str.read_text s = s.
Proof.
  induction s as [|c s IH]; [reflexivity|]. cbn [Str.has_cr].
  intros H. apply orb_false_iff in H as [Hc Hs].
  now rewrite (read_text_other c s Hc), IH.
Qed.

Lemma read_text_cr (c : ascii) (s : string) :
  (nat_of_ascii c =? 13)%nat = true ->
  (exists c' s', s = String c' s' /\ (nat_of_ascii c' =? 10)%nat = true
                 /\ Str.read_text (String c s) = String c' (Str.read_text s')
                 /\ Str.read_text s = String c' (Str.read_text s'))
  \/ Str.read_text (String c s)
     = String (ascii_of_nat 10) (Str.read_text s).
Proof.
  intros H. cbn [Str.read_text]. rewrite H.
  destruct s as [|c' s']; [now right|].
  destruct (nat_of_ascii c' =? 10)%nat eqn:E; [left | now right].
  exists c', s'. split; [reflexivity|]. split; [exact E|].
  assert (E13 : (nat_of_ascii c' =? 13)%nat = false).
  { apply Nat.eqb_eq in E. rewrite E. reflexivity. }
  rewrite (read_text_other c' s' E13). split; reflexivity.
Qed.

Lemma prefix_other (a c : ascii) (n s : string) :
  a <> c -> prefix (String a n) (String c s) = false.
Proof. intros H. cbn [prefix]. destruct (ascii_dec a c); [contradiction | reflexivity]. Qed.

Lemma differs (k : nat) (a c : ascii) :
  (nat_of_ascii a =? k)%nat = false -> (nat_of_ascii c =? k)%nat = true -> a <> c.
Proof. intros Ha Hc ->. congruence. Qed.

Lemma prefix_read_text (n : string) :
  Str.one_line n = true ->
  forall s, prefix n (Str.read_text s) = prefix n s.
Proof.
  induction n as [|a n IH]; intros Hn s; [now destruct (Str.read_text s), s|].
  cbn [Str.one_line] in Hn.
  apply andb_true_iff in Hn as [Hn Hn']. apply andb_true_iff in Hn as [Hlf Hcr].
  apply negb_true_iff in Hlf, Hcr.
  destruct s as [|c s]; [reflexivity|].
  destruct (nat_of_ascii c =? 13)%nat eqn:Ec.
  - rewrite (prefix_other a c n s (differs 13 a c Hcr Ec)).
    destruct (read_text_cr c s Ec) as [(c' & s' & _ & Ec' & -> & _) | ->];
      apply prefix_other.
    + exact (differs 10 a c' Hlf Ec').
    + exact (differs 10 a (ascii_of_nat 10) Hlf eq_refl).
  - rewrite (read_text_other c s Ec). cbn [prefix].
    destruct (ascii_dec a c); [now apply IH | reflexivity].
Qed.

(** A text without line ends occurs in what is read back exactly if it
    occurs in what the file holds. *)
Lemma contains_read_text (a : ascii) (n s : string) :
  Str.one_line (String a n) = true ->
  Str.contains (String a n) (Str.read_text s) = Str.contains (String a n) s.
Proof.
  intros Hn. pose proof Hn as Hn0. cbn [Str.one_line] in Hn0.
  apply andb_true_iff in Hn0 as [Hn0 _]. apply andb_true_iff in Hn0 as [Hlf Hcr].
  apply negb_true_iff in Hlf, Hcr.
  induction s as [|c s IH]; [reflexivity|].
  destruct (nat_of_ascii c =? 13)%nat eqn:Ec.
  - cbn [Str.contains]. rewrite (prefix_other a c n s (differs 13 a c Hcr Ec)).
    cbn [orb]. rewrite <- IH.
    destruct (read_text_cr c s Ec) as [(c' & s' & _ & Ec' & -> & ->) | ->].
    + reflexivity.
    + cbn [Str.contains].
      now rewrite (prefix_other a _ n _ (differs 10 a (ascii_of_nat 10) Hlf eq_refl)).
  - rewrite (read_text_other c s Ec). cbn [Str.contains]. rewrite IH.
    f_equal.
    rewrite <- (read_text_other c s Ec). apply (prefix_read_text _ Hn).
Qed.

Lemma marker_in_read_text (s : string) :
  Str.contains TRIANGULAR_PASS_MARKER (Str.read_text s)
  = Str.contains TRIANGULAR_PASS_MARKER s.
Proof. apply contains_read_text. reflexivity. Qed.

Lemma slice_to_length (n : nat) (s : string) :
  (String.length (Str.slice_to n s) <= n)%nat.
Proof.
  unfold Str.slice_to. revert s.
  induction n as [|n IH]; intros [|c s]; simpl; try lia.
  specialize (IH s). lia.
Qed.

End StrFacts.

(** ** Regular expressions: the matcher finds what the pattern denotes *)

Module RegexFacts.
Import Regex.

Lemma append_empty (s1 s2 : string) : s1 ++ s2 = "" -> s1 = "" /\ s2 = "".
Proof. destruct s1; simpl; [auto | discriminate]. Qed.

Lemma nullable_spec (r : re) : nullable r = true <-> Matches r "".
Proof.
  split.
  - induction r; simpl; intros H; try discriminate.
    + constructor.
    + apply andb_true_iff in H as [H1 H2].
      change "" with ("" ++ ""). constructor; auto.
    + apply orb_true_iff in H as [H|H]; [apply MAltL | apply MAltR]; auto.
    + constructor.
  - intros H. remember "" as s eqn:E.
    induction H; simpl; try discriminate; try reflexivity.
    + apply append_empty in E as [-> ->]. rewrite IHMatches1, IHMatches2; auto.
    + rewrite IHMatches; auto.
    + rewrite IHMatches; auto using orb_true_r.
Qed.

Lemma deriv_sound (c : ascii) (r : re) :
  forall s, Matches (deriv c r) s -> Matches r (String c s).
Proof.
  induction r; simpl; intros s H.
  - inversion H.
  - inversion H.
  - destruct (Ascii.eqb_spec c c0); inversion H; subst. constructor.
  - destruct (p c) eqn:Hp; inversion H; subst. now constructor.
  - assert (Hcat : forall t, Matches (Cat (deriv c r1) r2) t ->
                             Matches (Cat r1 r2) (String c t)).
    { intros t Ht. inversion Ht; subst.
      change (String c (s1 ++ s2)) with (String c s1 ++ s2).
      constructor; auto. }
    destruct (nullable r1) eqn:Hn.
    + inversion H; subst; [now apply Hcat|].
      change (String c s) with ("" ++ String c s).
      constructor; [now apply nullable_spec | auto].
    + now apply Hcat.
  - inversion H; subst; [apply MAltL | apply MAltR]; auto.
  - inversion H; subst.
    change (String c (s1 ++ s2)) with (String c s1 ++ s2).
    constructor; auto.
Qed.

Lemma deriv_complete (r : re) (t : string) :
  Matches r t -> forall c s, t = String c s -> Matches (deriv c r) s.
Proof.
  induction 1 as [ |d|p d Hp|r1 r2 s1 s2 H1 IH1 H2 IH2|r1 r2 s0 H1 IH1
                   |r1 r2 s0 H1 IH1| |r0 s1 s2 H1 IH1 H2 IH2];
    intros c s E; simpl.
  - discriminate.
  - inversion E; subst. rewrite Ascii.eqb_refl. constructor.
  - inversion E; subst. rewrite Hp. constructor.
  - destruct s1 as [|c1 s1]; simpl in E.
    + apply nullable_spec in H1. rewrite H1. apply MAltR. now apply IH2.
    + inversion E; subst.
      assert (Hcat : Matches (Cat (deriv c r1) r2) (s1 ++ s2))
        by (constructor; auto).
      destruct (nullable r1); [now apply MAltL | exact Hcat].
  - apply MAltL. now apply IH1.
  - apply MAltR. now apply IH1.
  - discriminate.
  - destruct s1 as [|c1 s1]; simpl in E.
    + now apply IH2.
    + inversion E; subst. constructor; auto.
Qed.

Lemma match_prefix_spec (s : string) :
  forall r, match_prefix s r = true <->
            exists m post, s = m ++ post /\ Matches r m.
Proof.
  induction s as [|c s IH]; intros r; cbn [match_prefix].
  - rewrite orb_false_r, nullable_spec. split.
    + intros H. now exists "", "".
    + intros (m & post & E & H). symmetry in E.
      apply append_empty in E as [-> _]. exact H.
  - rewrite orb_true_iff, IH, nullable_spec. split.
    + intros [H | (m & post & E & H)].
      * now exists "", (String c s).
      * exists (String c m), post. split; [simpl; now rewrite E|].
        now apply deriv_sound.
    + intros (m & post & E & H). destruct m as [|d m]; simpl in E.
      * now left.
      * right. inversion E; subst. exists m, post. split; [reflexivity|].
        now apply (deriv_complete r (String d m)).
Qed.

(** [search] succeeds exactly when some substring is matched in full. *)
Lemma search_spec (r : re) (s : string) :
  search r s = true <->
  exists pre m post, s = pre ++ m ++ post /\ Matches r m.
Proof.
  induction s as [|c s IH]; cbn [search].
  - rewrite orb_false_r, match_prefix_spec. split.
    + intros (m & post & E & H). now exists "", m, post.
    + intros (pre & m & post & E & H). symmetry in E.
      apply append_empty in E as [-> E]. now exists m, post.
  - rewrite orb_true_iff, IH, match_prefix_spec. split.
    + intros [(m & post & E & H) | (pre & m & post & E & H)].
      * now exists "", m, post.
      * exists (String c pre), m, post. split; [simpl; now rewrite E | exact H].
    + intros (pre & m & post & E & H). destruct pre as [|d pre]; simpl in E.
      * left. now exists m, post.
      * right. inversion E; subst. now exists pre, m, post.
Qed.

Lemma Matches_lit (s : string) : Matches (lit s) s.
Proof.
  induction s as [|c s IH]; simpl; [constructor|].
  change (String c s) with (String c "" ++ s). constructor; [constructor | exact IH].
Qed.

Lemma Matches_lit_inv (l s : string) : Matches (lit l) s -> s = l.
Proof.
  revert s; induction l as [|c l IH]; simpl; intros s H.
  - now inversion H.
  - inversion H as [ | | |r1 r2 s1 s2 Hc Hl| | | | ]; subst.
    inversion Hc; subst. simpl. f_equal. now apply IH.
Qed.

Lemma Matches_spaces (ws : string) :
  all_space ws = true <-> Matches (Star space) ws.
Proof.
  split.
  - induction ws as [|c ws IH]; simpl; intros H; [constructor|].
    apply andb_true_iff in H as [Hc Hws].
    change (String c ws) with (String c "" ++ ws).
    constructor; [now constructor | auto].
  - intros H. remember (Star space) as r eqn:E.
    induction H; try discriminate; [reflexivity|].
    inversion E; subst.
    match goal with
    | Hc : Matches space _ |- _ => inversion Hc as [ | |p c Hp| | | | | ]; subst
    end.
    simpl. rewrite Hp. simpl. now apply IHMatches2.
Qed.

Lemma Matches_Cat_inv (r1 r2 : re) (s : string) :
  Matches (Cat r1 r2) s ->
  exists s1 s2, s = s1 ++ s2 /\ Matches r1 s1 /\ Matches r2 s2.
Proof. intros H. inversion H; subst. eauto. Qed.

Lemma Matches_Alt_inv (r1 r2 : re) (s : string) :
  Matches (Alt r1 r2) s -> Matches r1 s \/ Matches r2 s.
Proof. intros H. inversion H; subst; auto. Qed.

Lemma Matches_Chr_inv (c : ascii) (s : string) :
  Matches (Chr c) s -> s = String c "".
Proof. intros H. now inversion H. Qed.

Lemma Matches_Cls_inv (p : ascii -> bool) (s : string) :
  Matches (Cls p) s -> exists c, s = String c "" /\ p c = true.
Proof. intros H. inversion H; subst. eauto. Qed.

(** [rm] after optional whitespace, followed by one whitespace character. *)
Lemma Matches_rm (s : string) :
  Matches (Cat (Star space) (Cat (lit "rm") space)) s <->
  exists ws c, all_space ws = true /\ is_space c = true
               /\ s = ws ++ "rm" ++ String c "".
Proof.
  split.
  - intros H.
    apply Matches_Cat_inv in H as (ws & s2 & -> & Hws & H).
    apply Matches_Cat_inv in H as (s3 & s4 & -> & Hrm & Hc).
    apply Matches_lit_inv in Hrm as ->.
    apply Matches_Cls_inv in Hc as (c & -> & Hc).
    apply Matches_spaces in Hws. now exists ws, c.
  - intros (ws & c & Hws & Hc & ->).
    constructor; [now apply Matches_spaces|].
    constructor; [apply (Matches_lit "rm") | now constructor].
Qed.

End RegexFacts.

(** ** The gate executor *)

Section GateFacts.
Variable os : OS.

(** The unsafe-pattern filter on the commands of the unit tests. *)
Example safe_commands :
  map _is_safe_command ["ruff check src/"; "make lint"; "npm test"]
  = [true; true; true].
Proof. vm_compute. reflexivity. Qed.

Example unsafe_commands :
  map _is_safe_command
    ["echo $(rm -rf /)"; "echo `rm -rf /`"; "cat > /dev/sda";
     "echo hi; rm -rf /"; "echo hi && rm -rf /"; "x;rm y"; "x >/dev/null"]
  = [false; false; false; false; false; false; false].
Proof. vm_compute. reflexivity. Qed.

(** [rm] counts only when whitespace follows it. *)
Example rm_needs_trailing_space :
  map _is_safe_command ["echo hi; rm"; "ls; rmdir x"; "echo hi; rm x"]
  = [true; true; false].
Proof. vm_compute. reflexivity. Qed.

(** The pattern denotes exactly the listed fragments. *)
Lemma unsafe_pattern_spec (m : string) :
  Regex.Matches _UNSAFE_PATTERN m <-> UnsafeFragment m.
Proof.
  unfold _UNSAFE_PATTERN. split.
  - intros H.
    apply RegexFacts.Matches_Alt_inv in H as [H|H].
    { apply (RegexFacts.Matches_lit_inv "$(") in H as ->. constructor. }
    apply RegexFacts.Matches_Alt_inv in H as [H|H].
    { apply RegexFacts.Matches_Chr_inv in H as ->. constructor. }
    apply RegexFacts.Matches_Alt_inv in H as [H|H].
    { apply RegexFacts.Matches_Cat_inv in H as (s1 & s2 & -> & H1 & H2).
      apply RegexFacts.Matches_Chr_inv in H1 as ->.
      apply RegexFacts.Matches_rm in H2 as (ws & c & Hws & Hc & ->).
      now apply (UnsafeSemicolonRm ws c). }
    apply RegexFacts.Matches_Alt_inv in H as [H|H].
    { apply RegexFacts.Matches_Cat_inv in H as (s1 & s2 & -> & H1 & H2).
      apply (RegexFacts.Matches_lit_inv "&&") in H1 as ->.
      apply RegexFacts.Matches_rm in H2 as (ws & c & Hws & Hc & ->).
      now apply (UnsafeAndRm ws c). }
    apply RegexFacts.Matches_Cat_inv in H as (s1 & s2 & -> & H1 & H2).
    apply RegexFacts.Matches_Chr_inv in H1 as ->.
    apply RegexFacts.Matches_Cat_inv in H2 as (ws & s3 & -> & Hws & H3).
    apply (RegexFacts.Matches_lit_inv "/dev/") in H3 as ->.
    apply RegexFacts.Matches_spaces in Hws. now apply (UnsafeRedirect ws).
  - intros H. destruct H as [ | |ws c Hws Hc|ws c Hws Hc|ws Hws].
    + apply Regex.MAltL. apply (RegexFacts.Matches_lit "$(").
    + apply Regex.MAltR, Regex.MAltL. constructor.
    + apply Regex.MAltR, Regex.MAltR, Regex.MAltL.
      apply (Regex.MCat _ _ ";"); [constructor|].
      apply RegexFacts.Matches_rm. now exists ws, c.
    + apply Regex.MAltR, Regex.MAltR, Regex.MAltR, Regex.MAltL.
      apply (Regex.MCat _ _ "&&"); [apply (RegexFacts.Matches_lit "&&")|].
      apply RegexFacts.Matches_rm. now exists ws, c.
    + apply Regex.MAltR, Regex.MAltR, Regex.MAltR, Regex.MAltR.
      apply (Regex.MCat _ _ ">"); [constructor|].
      constructor; [now apply RegexFacts.Matches_spaces|].
      apply (RegexFacts.Matches_lit "/dev/").
Qed.

(** The filter rejects exactly the commands that hold a listed fragment. *)
Lemma _is_safe_command_spec (cmd : string) :
  _is_safe_command cmd = false <->
  exists pre m post, cmd = pre ++ m ++ post /\ UnsafeFragment m.
Proof.
  unfold _is_safe_command. rewrite negb_false_iff, RegexFacts.search_spec.
  split; intros (pre & m & post & E & H); exists pre, m, post;
    (split; [exact E | now apply unsafe_pattern_spec]).
Qed.

(** C5. A shell-command gate whose command holds an unsafe fragment (a
    subshell, [rm] after a semicolon or a double ampersand, a redirection
    into /dev/) is not run: the call returns failure with the BLOCKED
    message naming the command, and the history of the process is
    unchanged, so no subprocess was started. *)
Theorem unsafe_command_is_blocked (pre m post : string) (timeout : Z)
    (tr : list Event) :
  UnsafeFragment m ->
  let cmd := pre ++ m ++ post in
  _run_gate_command os cmd timeout tr
  = ((false, "BLOCKED: command contains unsafe patterns: " ++ cmd), tr).
Proof.
  intros Hunsafe cmd. unfold _run_gate_command.
  assert (H : _is_safe_command cmd = false)
    by (apply _is_safe_command_spec; now exists pre, m, post).
  rewrite H. reflexivity.
Qed.

(** A safe command is started exactly once. *)
Lemma safe_command_is_run (cmd : string) (timeout : Z) (tr : list Event) :
  _is_safe_command cmd = true ->
  snd (_run_gate_command os cmd timeout tr) = (tr ++ [EvShell cmd timeout])%list.
Proof.
  intros Hsafe. unfold _run_gate_command. rewrite Hsafe. simpl.
  destruct (run_shell os tr cmd timeout); reflexivity.
Qed.

(** *** Stored output is bounded *)

Lemma result_of_bounded (n : string) (r : bool * string) : bounded (result_of n r).
Proof. apply StrFacts.slice_to_length. Qed.









(** *** Sequential discipline *)

Lemma sequential_commands_stopped (gs : list (string * string)) (timeout : Z)
    (st : SeqState) :
  gate_pass st = false -> sequential_commands os gs timeout st = st.
Proof. intros H. destruct gs as [|[n c] gs]; simpl; [|rewrite H]; reflexivity. Qed.

Lemma sequential_callables_stopped (cs : list (string * GateFunction))
    (st : SeqState) :
  gate_pass st = false -> sequential_callables cs st = st.
Proof. intros H. destruct cs as [|[n f] cs]; simpl; [|rewrite H]; reflexivity. Qed.

Lemma prepend_cons (rs0 : list GateResult) (r : GateResult) ok text rs tr :
  prepend rs0 ((ok, text, r :: rs), tr) = prepend (rs0 ++ [r]) ((ok, text, rs), tr).
Proof. unfold prepend; simpl. now rewrite <- app_assoc. Qed.

Lemma sequential_callables_refines (cs : list (string * GateFunction)) (timeout : Z) :
  forall st, gate_pass st = true -> gate_output st = "" ->
  observe (sequential_callables cs st)
  = prepend (results st)
      (run_until_first_failure os (declaration_order [] cs) timeout (seq_trace st)).
Proof.
  induction cs as [|[n f] cs IH]; intros st Hp Ho.
  - destruct st as [p o rs tr]; simpl in *; subst.
    unfold observe, prepend; simpl. now rewrite app_nil_r.
  - cbn [sequential_callables]. rewrite Hp, Ho. cbn [negb].
    cbn [declaration_order map app fst snd run_until_first_failure run_gate].
    destruct (_run_callable_gate n f (seq_trace st)) as [[p o] tr'].
    destruct p; cbn [fst snd].
    + rewrite IH by reflexivity. cbn [results seq_trace].
      change (map (fun c => FunGate (fst c) (snd c)) cs)
        with (declaration_order [] cs).
      destruct (run_until_first_failure os (declaration_order [] cs) timeout tr')
        as [[[ok text] rs] tr2].
      symmetry. apply prepend_cons.
    + rewrite sequential_callables_stopped by reflexivity. reflexivity.
Qed.

Lemma sequential_refines (gs : list (string * string))
    (cs : list (string * GateFunction)) (timeout : Z) :
  forall st, gate_pass st = true -> gate_output st = "" ->
  observe (sequential_callables cs (sequential_commands os gs timeout st))
  = prepend (results st)
      (run_until_first_failure os (declaration_order gs cs) timeout (seq_trace st)).
Proof.
  induction gs as [|[n c] gs IH]; intros st Hp Ho.
  - apply sequential_callables_refines; assumption.
  - cbn [sequential_commands]. rewrite Hp, Ho. cbn [negb].
    unfold declaration_order.
    cbn [map app fst snd run_until_first_failure run_gate].
    destruct (_run_gate_command os c timeout (seq_trace st)) as [[p o] tr'].
    destruct p; cbn [fst snd].
    + rewrite IH by reflexivity. cbn [results seq_trace].
      fold (declaration_order gs cs).
      destruct (run_until_first_failure os (declaration_order gs cs) timeout tr')
        as [[[ok text] rs] tr2].
      symmetry. apply prepend_cons.
    + rewrite sequential_commands_stopped by reflexivity.
      rewrite sequential_callables_stopped by reflexivity. reflexivity.
Qed.

(** The loop, started with nothing recorded. *)
Lemma sequential_observed (gates : list (string * string))
    (callable_gates : list (string * GateFunction)) (timeout : Z)
    (tr : list Event) :
  _run_gates_sequential os gates callable_gates timeout tr
  = prepend []
      (run_until_first_failure os (declaration_order gates callable_gates)
         timeout tr).
Proof.
  exact (sequential_refines gates callable_gates timeout
           (mkSeqState true "" [] tr) eq_refl eq_refl).
Qed.

(** C3, as amended.  The sequential discipline runs the gates in declaration
    order and stops at the first failure; the failure text is that gate's
    [<name> (<cmd>) FAILED:] block for a command gate and its
    [callable:<name> FAILED:] block for an in-process gate. *)
Theorem sequential_runs_until_first_failure (gates : list (string * string))
    (callable_gates : list (string * GateFunction)) (timeout : Z)
    (tr : list Event) :
  _run_gates_sequential os gates callable_gates timeout tr
  = run_until_first_failure os (declaration_order gates callable_gates) timeout tr.
Proof.
  rewrite sequential_observed.
  destruct (run_until_first_failure os _ timeout tr) as [[[ok text] rs] tr2].
  reflexivity.
Qed.

(** *** Parallel discipline *)

Lemma remove_at_length {A : Type} (i : nat) (l : list A) :
  (i < length l)%nat -> S (length (remove_at i l)) = length l.
Proof.
  revert i; induction l as [|x l IH]; intros i Hi; simpl in *; [lia|].
  destruct i; simpl; [reflexivity|]. rewrite IH; [reflexivity | lia].
Qed.

Lemma nth_remove_at_perm {A : Type} (i : nat) (l : list A) (d : A) :
  (i < length l)%nat -> Permutation l (nth i l d :: remove_at i l).
Proof.
  revert i; induction l as [|x l IH]; intros i Hi; simpl in *; [lia|].
  destruct i as [|i].
  - apply Permutation_refl.
  - eapply perm_trans; [apply perm_skip, (IH i); lia | apply perm_swap].
Qed.

Lemma complete_in_order_perm {A : Type} (pick : nat -> nat) (n : nat) :
  forall (step : nat) (pending : list A), length pending = n ->
  Permutation pending (complete_in_order pick step n pending).
Proof.
  induction n as [|n IH]; intros step pending Hlen.
  - destruct pending; [apply perm_nil | discriminate].
  - destruct pending as [|x l]; [discriminate|].
    cbn [complete_in_order].
    set (i := Nat.modulo (pick step) (length (x :: l))).
    assert (Hi : (i < length (x :: l))%nat)
      by (apply Nat.mod_upper_bound; simpl; lia).
    eapply perm_trans; [apply (nth_remove_at_perm i (x :: l) x Hi)|].
    apply perm_skip, IH.
    pose proof (remove_at_length i (x :: l) Hi). lia.
Qed.

(** [as_completed] yields every future, each once. *)
Lemma as_completed_perm {A : Type} (pick : nat -> nat) (futures : list A) :
  Permutation futures (as_completed pick futures).
Proof. apply complete_in_order_perm. reflexivity. Qed.

Lemma collect_completed_spec (done : list Future) :
  forall rs fs,
  collect_completed done rs fs
  = ((rs ++ map (fun f => result_of (fst f) (snd f)) done)%list,
     (fs ++ map parallel_failure_block
              (filter (fun f => negb (future_passed f)) done))%list).
Proof.
  induction done as [|[n [p o]] done IH]; intros rs fs; simpl.
  - now rewrite !app_nil_r.
  - rewrite IH. unfold future_passed; simpl.
    destruct p; simpl; now rewrite <- !app_assoc.
Qed.

Lemma submit_refines (gates : list (string * string))
    (callable_gates : list (string * GateFunction)) (timeout : Z) :
  forall tr,
  (let '(fs1, tr1) := submit_commands os gates timeout tr in
   let '(fs2, tr2) := submit_callables callable_gates tr1 in
   ((fs1 ++ fs2)%list, tr2))
  = attempt_all os (declaration_order gates callable_gates) timeout tr.
Proof.
  induction gates as [|[n c] gates IH]; intros tr.
  - cbn [submit_commands]. unfold declaration_order. cbn [map app].
    revert tr. induction callable_gates as [|[cn f] cs IHc]; intros tr.
    + reflexivity.
    + cbn [submit_callables map fst snd attempt_all run_gate gate_name].
      destruct (_run_callable_gate cn f tr) as [r tr1].
      specialize (IHc tr1).
      destruct (submit_callables cs tr1) as [fs tr2].
      cbn [app] in IHc. rewrite <- IHc. reflexivity.
  - cbn [submit_commands]. unfold declaration_order.
    cbn [map app fst snd attempt_all run_gate gate_name].
    destruct (_run_gate_command os c timeout tr) as [r tr1].
    specialize (IH tr1). fold (declaration_order gates callable_gates).
    destruct (submit_commands os gates timeout tr1) as [fs1 tr2].
    rewrite <- IH.
    destruct (submit_callables callable_gates tr2) as [fs2 tr3].
    reflexivity.
Qed.

Lemma attempt_all_names (gs : list Gate) (timeout : Z) :
  forall tr, map fst (fst (attempt_all os gs timeout tr)) = map gate_name gs.
Proof.
  induction gs as [|g gs IH]; intros tr; simpl; [reflexivity|].
  destruct (run_gate os g timeout tr) as [r tr1].
  specialize (IH tr1). destruct (attempt_all os gs timeout tr1) as [fs tr2].
  simpl in *. now rewrite IH.
Qed.

(** The code of the parallel discipline, with its two submission loops
    read as one pass over the declaration list and its collection loop
    read as a map and a filter over the completed futures. *)
Lemma parallel_unfolded (gates : list (string * string))
    (callable_gates : list (string * GateFunction)) (timeout : Z)
    (tr : list Event) :
  _run_gates_parallel os gates callable_gates timeout tr
  = let '(submitted, tr2) :=
      attempt_all os (declaration_order gates callable_gates) timeout tr in
    let done := as_completed (completion_pick os tr2) submitted in
    let results := map (fun f => result_of (fst f) (snd f)) done in
    match map parallel_failure_block
            (filter (fun f => negb (future_passed f)) done) with
    | (_ :: _) as failures =>
        ((false, Str.join (nl ++ nl) failures, results), tr2)
    | [] => ((true, "", results), tr2)
    end.
Proof.
  unfold _run_gates_parallel.
  rewrite <- (submit_refines gates callable_gates timeout tr).
  destruct (submit_commands os gates timeout tr) as [fs1 tr1].
  destruct (submit_callables callable_gates tr1) as [fs2 tr2].
  rewrite collect_completed_spec. cbv beta iota zeta. cbn [app].
  destruct (map parallel_failure_block _); reflexivity.
Qed.

Lemma no_failure_iff_all_passed (done : list Future) :
  forallb future_passed done = true <->
  filter (fun f => negb (future_passed f)) done = [].
Proof.
  induction done as [|f done IH]; simpl; [tauto|].
  destruct (future_passed f); simpl; [exact IH|].
  split; discriminate.
Qed.

(** C4. Under the parallel discipline every gate of the declaration list
    is attempted and yields one future; the results hold one GateResult per
    future, in completion order; all gates passed exactly when no future
    failed; and the failure text joins, with blank lines between them, the
    [<name> FAILED:] block of every failed future. *)
Theorem parallel_surfaces_every_failure (gates : list (string * string))
    (callable_gates : list (string * GateFunction)) (timeout : Z)
    (tr : list Event) :
  let submitted :=
    attempt_all os (declaration_order gates callable_gates) timeout tr in
  let x := _run_gates_parallel os gates callable_gates timeout tr in
  map fst (fst submitted) = map gate_name (declaration_order gates callable_gates)
  /\ snd x = snd submitted
  /\ exists done : list Future,
       Permutation (fst submitted) done
       /\ gate_results_of x = map (fun f => result_of (fst f) (snd f)) done
       /\ all_passed x = forallb future_passed done
       /\ failure_text x
          = Str.join (nl ++ nl)
              (map parallel_failure_block
                 (filter (fun f => negb (future_passed f)) done)).
Proof.
  cbv zeta. split; [apply attempt_all_names|].
  rewrite parallel_unfolded.
  destruct (attempt_all os (declaration_order gates callable_gates) timeout tr)
    as [submitted tr2].
  cbv zeta. cbn [fst snd].
  set (done := as_completed (completion_pick os tr2) submitted).
  pose proof (no_failure_iff_all_passed done) as Hall.
  destruct (filter (fun f => negb (future_passed f)) done) as [|f fl] eqn:Hf;
    cbn [map]; (split; [reflexivity|]); exists done;
    (split; [apply as_completed_perm|]); (split; [reflexivity|]);
    rewrite Hf; (split; [|reflexivity]); unfold all_passed; cbn [fst].
  - symmetry. now apply Hall.
  - destruct (forallb future_passed done); [|reflexivity].
    destruct Hall as [Hall _]. now specialize (Hall eq_refl).
Qed.

(** *** What the verdict says about the results *)

Lemma first_failure_verdict (gs : list Gate) (timeout : Z) :
  forall tr,
  verdict_matches_results (length gs) (run_until_first_failure os gs timeout tr).
Proof.
  induction gs as [|g gs IH]; intros tr.
  - unfold verdict_matches_results; simpl. split; [reflexivity | constructor].
  - cbn [run_until_first_failure].
    destruct (run_gate os g timeout tr) as [[p o] tr1]. cbn [fst].
    destruct p.
    + specialize (IH tr1).
      destruct (run_until_first_failure os gs timeout tr1) as [[[ok text] rs] tr2].
      unfold verdict_matches_results, all_passed, gate_results_of in *.
      cbn [fst snd] in *. destruct ok.
      * destruct IH as [Hlen Hall]. split; [simpl; now rewrite Hlen|].
        constructor; [reflexivity | exact Hall].
      * now apply Exists_cons_tl.
    + unfold verdict_matches_results; simpl. now apply Exists_cons_hd.
Qed.

Lemma parallel_verdict (gates : list (string * string))
    (callable_gates : list (string * GateFunction)) (timeout : Z)
    (tr : list Event) :
  verdict_matches_results (length gates + length callable_gates)
    (_run_gates_parallel os gates callable_gates timeout tr).
Proof.
  rewrite parallel_unfolded.
  pose proof (attempt_all_names (declaration_order gates callable_gates)
                timeout tr) as Hnames.
  destruct (attempt_all os (declaration_order gates callable_gates) timeout tr)
    as [submitted tr2].
  cbv zeta. cbn [fst] in Hnames.
  set (done := as_completed (completion_pick os tr2) submitted).
  assert (Hlen : length done = (length gates + length callable_gates)%nat).
  { unfold done.
    rewrite <- (Permutation_length
                  (as_completed_perm (completion_pick os tr2) submitted)).
    apply (f_equal (@length string)) in Hnames.
    unfold declaration_order in Hnames.
    rewrite !length_map, length_app, !length_map in Hnames. exact Hnames. }
  pose proof (no_failure_iff_all_passed done) as Hall.
  unfold verdict_matches_results.
  destruct (filter (fun f => negb (future_passed f)) done) as [|f fl] eqn:Hf;
    cbn [map]; unfold all_passed, gate_results_of; cbn [fst snd].
  - split; [now rewrite length_map|].
    destruct Hall as [_ Hall]. specialize (Hall eq_refl).
    rewrite forallb_forall in Hall. apply Forall_map, Forall_forall.
    intros g Hg. specialize (Hall g Hg). unfold future_passed in Hall.
    unfold result_of; simpl. now rewrite Hall.
  - apply Exists_map. apply Exists_exists. exists f.
    assert (Hin : In f (filter (fun f => negb (future_passed f)) done))
      by (rewrite Hf; now left).
    apply filter_In in Hin as [Hin Hfailed]. split; [exact Hin|].
    unfold future_passed in Hfailed. unfold result_of; simpl.
    now destruct (fst (snd f)).
Qed.

Lemma quality_gates_verdict (gates : list (string * string))
    (callable_gates : list (string * GateFunction)) (use_parallel : bool)
    (timeout : Z) (tr : list Event) :
  verdict_matches_results (length gates + length callable_gates)
    (_run_quality_gates os gates callable_gates use_parallel timeout tr).
Proof.
  unfold _run_quality_gates.
  destruct (length gates + length callable_gates =? 0)%nat eqn:Hz.
  - apply Nat.eqb_eq in Hz. rewrite Hz.
    unfold verdict_matches_results; simpl. split; [reflexivity | constructor].
  - destruct use_parallel; [apply parallel_verdict|].
    rewrite sequential_observed.
    replace (length gates + length callable_gates)%nat
      with (length (declaration_order gates callable_gates)).
    + pose proof (first_failure_verdict
                    (declaration_order gates callable_gates) timeout tr) as H.
      destruct (run_until_first_failure os _ timeout tr)
        as [[[ok text] rs] tr2].
      exact H.
    + unfold declaration_order. now rewrite length_app, !length_map.
Qed.

End GateFacts.

(** ** The agent runner *)

Section RunnerFacts.
Variable os : OS.

Lemma range_nil (lo hi : Z) : hi <= lo -> range lo hi = [].
Proof.
  intros H. unfold range. replace (Z.to_nat (hi - lo)) with 0%nat by lia.
  reflexivity.
Qed.

Lemma range_cons (lo hi : Z) : lo < hi -> range lo hi = lo :: range (lo + 1) hi.
Proof.
  intros H. unfold range.
  replace (Z.to_nat (hi - lo)) with (S (Z.to_nat (hi - (lo + 1)))) by lia.
  cbn [seq map]. f_equal; [lia|].
  rewrite <- seq_shift, map_map. apply map_ext. intros k. lia.
Qed.

Lemma range_snoc (lo hi : Z) : lo <= hi -> range lo (hi + 1) = (range lo hi ++ [hi])%list.
Proof.
  intros H. unfold range.
  replace (Z.to_nat (hi + 1 - lo)) with (S (Z.to_nat (hi - lo))) by lia.
  rewrite seq_S, map_app. cbn [map]. do 2 f_equal. lia.
Qed.

Lemma retried_succ (prompt : string) (timeout s : Z) :
  1 <= s ->
  retried prompt timeout (s + 1)
  = (retried prompt timeout s ++ [EvClaude prompt timeout; EvSleep (2 ^ s)])%list.
Proof.
  intros H. unfold retried. rewrite range_snoc by lia.
  rewrite flat_map_app. cbn [flat_map]. now rewrite app_nil_r.
Qed.

Lemma attempts_from (prompt : string) (timeout max_retries : Z) (tr : list Event) :
  forall (n : nat) (s : Z),
  1 <= s <= max_retries -> Z.to_nat (max_retries - s) = n ->
  (forall j, 1 <= j < s ->
     attempt_failed (attempt_outcome os prompt timeout tr j) = true) ->
  exists k, s <= k <= max_retries
    /\ (forall j, 1 <= j < k ->
          attempt_failed (attempt_outcome os prompt timeout tr j) = true)
    /\ (attempt_failed (attempt_outcome os prompt timeout tr k) = true ->
          k = max_retries)
    /\ CliClaudeRunner_attempts os prompt timeout max_retries
         (range s (max_retries + 1)) (tr ++ retried prompt timeout s)
       = (verdict max_retries (attempt_outcome os prompt timeout tr k),
          (tr ++ retried prompt timeout k ++ [EvClaude prompt timeout])%list).
Proof.
  induction n as [|n IH]; intros s Hs Hn Hfailed.
  - (* the last attempt *)
    assert (s = max_retries) by lia. subst s.
    exists max_retries. split; [lia|]. split; [exact Hfailed|].
    split; [reflexivity|].
    rewrite range_cons by lia. rewrite range_nil by lia.
    cbn [CliClaudeRunner_attempts]. rewrite Z.ltb_irrefl.
    unfold attempt_outcome, verdict, failed_after.
    rewrite <- app_assoc.
    destruct (run_claude os (tr ++ retried prompt timeout max_retries) prompt timeout)
      as [rc so se| |m|m]; try reflexivity.
    destruct (rc =? 0)%Z; reflexivity.
  - (* an attempt with retries left *)
    assert (Hlt : s < max_retries) by lia.
    rewrite range_cons by lia. cbn [CliClaudeRunner_attempts].
    apply Z.ltb_lt in Hlt as Hltb. rewrite Hltb.
    assert (Hnext : (((tr ++ retried prompt timeout s) ++ [EvClaude prompt timeout])
                      ++ [EvSleep (2 ^ s)]
                    = tr ++ retried prompt timeout (s + 1))%list).
    { rewrite retried_succ by lia. rewrite <- !app_assoc. reflexivity. }
    rewrite Hnext.
    assert (Hdone : forall r,
      attempt_failed (attempt_outcome os prompt timeout tr s) = false ->
      r = verdict max_retries (attempt_outcome os prompt timeout tr s) ->
      exists k, s <= k <= max_retries
        /\ (forall j, 1 <= j < k ->
              attempt_failed (attempt_outcome os prompt timeout tr j) = true)
        /\ (attempt_failed (attempt_outcome os prompt timeout tr k) = true ->
              k = max_retries)
        /\ (r, (tr ++ retried prompt timeout s) ++ [EvClaude prompt timeout])%list
           = (verdict max_retries (attempt_outcome os prompt timeout tr k),
              (tr ++ retried prompt timeout k ++ [EvClaude prompt timeout])%list)).
    { intros r Hok ->. exists s. split; [lia|]. split; [exact Hfailed|].
      split; [rewrite Hok; discriminate|]. now rewrite <- app_assoc. }
    assert (Hretry :
      attempt_failed (attempt_outcome os prompt timeout tr s) = true ->
      exists k, s <= k <= max_retries
        /\ (forall j, 1 <= j < k ->
              attempt_failed (attempt_outcome os prompt timeout tr j) = true)
        /\ (attempt_failed (attempt_outcome os prompt timeout tr k) = true ->
              k = max_retries)
        /\ CliClaudeRunner_attempts os prompt timeout max_retries
             (range (s + 1) (max_retries + 1)) (tr ++ retried prompt timeout (s + 1))
           = (verdict max_retries (attempt_outcome os prompt timeout tr k),
              (tr ++ retried prompt timeout k ++ [EvClaude prompt timeout])%list)).
    { intros Hbad.
      destruct (IH (s + 1)) as (k & Hk & Hj & Hlast & Hrun); [lia | lia | |].
      - intros j Hjr. destruct (Z.eq_dec j s) as [->|]; [exact Hbad|].
        apply Hfailed. lia.
      - exists k. split; [lia|]. auto. }
    unfold attempt_outcome in Hdone, Hretry at 1.
    unfold attempt_failed in Hdone, Hretry at 1.
    unfold verdict in Hdone at 1.
    destruct (run_claude os (tr ++ retried prompt timeout s) prompt timeout)
      as [rc so se| |m|m].
    + destruct (rc =? 0)%Z.
      * apply Hdone; reflexivity.
      * apply Hretry; reflexivity.
    + apply Hretry; reflexivity.
    + apply Hdone; reflexivity.
    + apply Hdone; reflexivity.
Qed.

(** C6. With at least one attempt allowed, the runner makes attempts
    [1 .. k] for some [k <= max_retries]: attempts [1 .. k-1] failed and each
    was followed by a sleep of [2^attempt] seconds, no other sleep occurs,
    and attempt [k] decides: exit code 0 returns its standard output, a
    failure means that all [max_retries] attempts failed and raises the
    error that names the attempt count. *)
Theorem runner_retries_with_backoff (prompt : string) (timeout max_retries : Z)
    (tr : list Event) :
  1 <= max_retries ->
  exists k, 1 <= k <= max_retries
    /\ (forall j, 1 <= j < k ->
          attempt_failed (attempt_outcome os prompt timeout tr j) = true)
    /\ (attempt_failed (attempt_outcome os prompt timeout tr k) = true ->
          k = max_retries)
    /\ CliClaudeRunner_run os prompt timeout max_retries tr
       = (verdict max_retries (attempt_outcome os prompt timeout tr k),
          (tr ++ retried prompt timeout k ++ [EvClaude prompt timeout])%list).
Proof.
  intros Hmax. unfold CliClaudeRunner_run.
  destruct (attempts_from prompt timeout max_retries tr
              (Z.to_nat (max_retries - 1)) 1) as (k & Hk & Hj & Hlast & Hrun);
    [lia | reflexivity | intros j Hjr; lia |].
  exists k. repeat split; try lia; try assumption.
  rewrite <- Hrun.
  replace (retried prompt timeout 1) with (@nil Event) by reflexivity.
  now rewrite app_nil_r.
Qed.

End RunnerFacts.

(** ** The verification protocol *)

(** C7. Whenever [run_triangular_verification] returns a boolean, a
    discrepancy report has been persisted and the boolean is true exactly
    when the pass marker occurs somewhere in that persisted text. *)
Theorem verification_passes_iff_marker_in_report
    (requirements_file output_dir : string) (cfg : ProjectConfig)
    (timeout max_retries : Z) (runner : ClaudeRunner) (w w' : World) (b : bool) :
  run_triangular_verification requirements_file output_dir cfg timeout
    max_retries runner w = (Ok b, w') ->
  exists report,
    discrepancy_report_md w' = Some report
    /\ (b = true <->
        exists pre post, report = pre ++ TRIANGULAR_PASS_MARKER ++ post).
Proof.
  unfold run_triangular_verification. cbv zeta. intros H.
  destruct (runner (agent_b_prompt _ cfg) timeout max_retries
              (trace w)) as [[output_b|e] tr1]; [|discriminate].
  destruct (runner _ timeout max_retries _) as [[output_c|e] tr2]; [|discriminate].
  cbn [discrepancy_report_md write_discrepancy] in H.
  inversion H; subst; clear H.
  exists output_c. split; [reflexivity|].
  rewrite StrFacts.marker_in_read_text.
  apply StrFacts.contains_spec.
Qed.

(** ** The orchestrator *)

Section PipelineFacts.
Variable os : OS.
Variable a : RunArgs.

(** *** The loop invariant *)

Lemma last_outcome_snoc (its : list IterationMetrics) (im : IterationMetrics) :
  last_outcome (its ++ [im]) = outcome im.
Proof. unfold last_outcome. rewrite map_app. apply last_last. Qed.

Lemma running_stopped (n : nat) (st : LoopState) : running n st -> stopped n st.
Proof.
  intros (Hc & Hall & Hlast). split; [exact Hall|].
  rewrite Hc. split; [discriminate | intros H; contradiction].
Qed.

Lemma running_frame (n : nat) (st st' : LoopState) :
  metrics st' = metrics st -> loop_converged st' = loop_converged st ->
  running n st -> running n st'.
Proof. unfold running. intros -> ->. tauto. Qed.

Lemma running_failure (n : nat) (st st' : LoopState) (im : IterationMetrics) :
  iterations (metrics st') = (iterations (metrics st) ++ [im])%list ->
  loop_converged st' = loop_converged st ->
  outcome im <> Some IterationOutcome.PASS ->
  ~ (all_gates_passed n im /\ verification_status im = GateStatus.PASS) ->
  running n st -> running n st'.
Proof.
  unfold running. intros -> -> Ho Hn (Hc & Hall & _).
  split; [exact Hc|]. split.
  - apply Forall_app. split; [exact Hall|]. constructor; [|constructor].
    unfold consistent. tauto.
  - now rewrite last_outcome_snoc.
Qed.

Lemma phase3_verification_after (it : Z) (iter_start : seconds)
    (im : IterationMetrics) (st : LoopState) :
  running (configured_gates a) st ->
  all_gates_passed (configured_gates a) im ->
  after (configured_gates a) (phase3_verification os a it iter_start im st).
Proof.
  intros Hrun Hgates. unfold phase3_verification, read_shutdown.
  destruct (shutdown_requested st || signal_delivered os (trace (world st))).
  - apply running_stopped. revert Hrun. now apply running_frame.
  - cbn [world logged set_world].
    destruct (run_triangular_verification _ _ _ _ _ _ _) as [[passed|e] w].
    + destruct passed.
      * (* converged *)
        unfold after, stopped, finish_iteration, append_iteration, logged, set_world.
        cbn -[last_outcome]. destruct Hrun as (_ & Hall & _). split.
        -- apply Forall_app. split; [exact Hall|]. constructor; [|constructor].
           unfold consistent, all_gates_passed in *. cbn. tauto.
        -- rewrite last_outcome_snoc. cbn. tauto.
      * (* verification failed *)
        unfold after. cbn [fst snd].
        eapply running_failure; [| | | |exact Hrun];
          [unfold finish_iteration, append_iteration, logged, set_world; cbn;
           reflexivity
          | reflexivity
          | cbn; discriminate
          | cbn; intros [_ H]; discriminate].
    + unfold after. cbn [fst snd]. revert Hrun. now apply running_frame.
Qed.

Lemma phase2_quality_gates_after (it : Z) (iter_start : seconds)
    (im : IterationMetrics) (st : LoopState) :
  running (configured_gates a) st ->
  after (configured_gates a) (phase2_quality_gates os a it iter_start im st).
Proof.
  intros Hrun. unfold phase2_quality_gates.
  pose proof (quality_gates_verdict os (build_gates (cfg a) (plugins a))
                (custom_gates a) (use_parallel a) (claude_timeout a)
                (trace (world (logged (LogPhaseStart "phase2_quality_gates" it) st))))
    as Hverdict.
  destruct (_run_quality_gates _ _ _ _ _ _) as [[[gp go] gr] tr'].
  unfold verdict_matches_results, all_passed, gate_results_of in Hverdict.
  cbn [fst snd] in Hverdict. destruct gp; cbn [negb].
  - apply phase3_verification_after.
    + revert Hrun. now apply running_frame.
    + exact Hverdict.
  - unfold after. cbn [fst snd].
    eapply running_failure; [| | | |exact Hrun];
      [unfold finish_iteration, append_iteration, logged, set_world; cbn;
       reflexivity
      | reflexivity
      | cbn; discriminate
      | ].
    cbn. intros [[_ Hall] _].
    apply Exists_exists in Hverdict. destruct Hverdict as (r & Hr & Hfail).
    rewrite Forall_forall in Hall. specialize (Hall r Hr). congruence.
Qed.

Lemma loop_body_after (it : Z) (st : LoopState) :
  running (configured_gates a) st ->
  after (configured_gates a) (loop_body os a it st).
Proof.
  intros Hrun. unfold loop_body, read_shutdown.
  destruct (shutdown_requested st || signal_delivered os (trace (world st))).
  - apply running_stopped. revert Hrun. now apply running_frame.
  - cbn [world logged set_world].
    destruct (_run_implementation_phase a it _) as [[u|e] w].
    + cbn [world logged set_world shutdown_requested trace set_trace].
      match goal with
      | |- context [if ?b then _ else _] => destruct b
      end.
      * apply running_stopped. revert Hrun. now apply running_frame.
      * apply phase2_quality_gates_after. revert Hrun. now apply running_frame.
    + unfold after. cbn [fst snd]. revert Hrun. now apply running_frame.
Qed.

Lemma for_iterations_stopped (its : list Z) :
  forall st, running (configured_gates a) st ->
  stopped (configured_gates a) (snd (for_iterations os a its st)).
Proof.
  induction its as [|it its IH]; intros st Hrun; cbn [for_iterations].
  - now apply running_stopped.
  - pose proof (loop_body_after it st Hrun) as H.
    destruct (loop_body os a it st) as [[| |e] st']; unfold after in H;
      cbn [fst snd] in H.
    + now apply IH.
    + exact H.
    + now apply running_stopped.
Qed.

Lemma initial_state_running (n : nat) (w0 : World) (started : string) :
  running n (mkLoopState w0 (PipelineMetrics_new started) false false).
Proof.
  split; [reflexivity|]. split; [constructor | discriminate].
Qed.

(** *** Only [finalize] writes the metrics artifact *)

Lemma verification_keeps_metrics_json (requirements output_dir : string)
    (c : ProjectConfig) (timeout retries : Z) (r : ClaudeRunner) (w : World) :
  metrics_json (snd (run_triangular_verification requirements output_dir c
                       timeout retries r w))
  = metrics_json w.
Proof.
  unfold run_triangular_verification.
  destruct (r _ timeout retries (trace w)) as [[ob|e] tr1]; [|reflexivity].
  destruct (r _ timeout retries _) as [[oc|e] tr2]; reflexivity.
Qed.

Lemma implementation_keeps_metrics_json (it : Z) (w : World) :
  metrics_json (snd (_run_implementation_phase a it w)) = metrics_json w.
Proof.
  unfold _run_implementation_phase.
  destruct (runner a _ _ _ _) as [[o|e] tr1]; reflexivity.
Qed.

Lemma phase3_keeps_metrics_json (it : Z) (iter_start : seconds)
    (im : IterationMetrics) (st : LoopState) :
  metrics_json (world (snd (phase3_verification os a it iter_start im st)))
  = metrics_json (world st).
Proof.
  unfold phase3_verification, read_shutdown.
  destruct (shutdown_requested st || signal_delivered os (trace (world st)));
    [reflexivity|].
  cbn [world logged set_world].
  match goal with
  | |- context [run_triangular_verification ?q ?o ?c ?t ?r ?u ?w] =>
      pose proof (verification_keeps_metrics_json q o c t r u w) as H;
      destruct (run_triangular_verification q o c t r u w) as [[passed|e] w']
  end; cbn [snd] in H.
  - destruct passed; cbn; exact H.
  - cbn. exact H.
Qed.

Lemma phase2_keeps_metrics_json (it : Z) (iter_start : seconds)
    (im : IterationMetrics) (st : LoopState) :
  metrics_json (world (snd (phase2_quality_gates os a it iter_start im st)))
  = metrics_json (world st).
Proof.
  unfold phase2_quality_gates.
  destruct (_run_quality_gates _ _ _ _ _ _) as [[[gp go] gr] tr'].
  destruct gp; cbn [negb].
  - rewrite phase3_keeps_metrics_json. reflexivity.
  - reflexivity.
Qed.

Lemma loop_body_keeps_metrics_json (it : Z) (st : LoopState) :
  metrics_json (world (snd (loop_body os a it st))) = metrics_json (world st).
Proof.
  unfold loop_body, read_shutdown.
  destruct (shutdown_requested st || signal_delivered os (trace (world st)));
    [reflexivity|].
  cbn [world logged set_world].
  match goal with
  | |- context [_run_implementation_phase a it ?w] =>
      pose proof (implementation_keeps_metrics_json it w) as H;
      destruct (_run_implementation_phase a it w) as [[u|e] w']
  end; cbn [snd] in H.
  - cbn [world logged set_world shutdown_requested trace set_trace].
    match goal with
    | |- context [if ?b then _ else _] => destruct b
    end.
    + cbn. exact H.
    + rewrite phase2_keeps_metrics_json. cbn. exact H.
  - cbn. exact H.
Qed.

Lemma for_iterations_keeps_metrics_json (its : list Z) :
  forall st,
  metrics_json (world (snd (for_iterations os a its st))) = metrics_json (world st).
Proof.
  induction its as [|it its IH]; intros st; cbn [for_iterations]; [reflexivity|].
  pose proof (loop_body_keeps_metrics_json it st) as H.
  destruct (loop_body os a it st) as [[| |e] st']; cbn [snd] in *.
  - now rewrite IH.
  - exact H.
  - exact H.
Qed.

Lemma finalize_saves_once (start_time : seconds) (st : LoopState) :
  metrics_json (world (finalize os a start_time st))
  = (metrics_json (world st) ++ [metrics (finalize os a start_time st)])%list.
Proof.
  unfold finalize. destruct (Str.truthy (webhook_url a)); reflexivity.
Qed.

(** The metrics document is saved once by every run that gets past the
    lookup of the agent executable, also when the run ends in an exception;
    a run that does not find the executable saves nothing. *)
Lemma metrics_saved_unless_claude_missing (w0 : World) :
  let r := run_pipeline os a w0 in
  metrics_json (world (snd r))
  = (metrics_json w0
     ++ (if which_claude os then [metrics (snd r)] else []))%list.
Proof.
  cbv zeta. unfold run_pipeline.
  destruct (which_claude os); cbn [negb].
  - match goal with
    | |- context [for_iterations os a ?its ?st0] =>
        pose proof (for_iterations_keeps_metrics_json its st0) as H;
        destruct (for_iterations os a its st0) as [raised st]
    end.
    cbn [snd world] in H.
    assert (Hfin : forall res : Result bool,
      metrics_json (world (snd (res, finalize os a (clock os (trace w0)) st)))
      = (metrics_json w0
         ++ [metrics (snd (res, finalize os a (clock os (trace w0)) st))])%list).
    { intros res. cbn [snd]. rewrite finalize_saves_once. now rewrite H. }
    destruct raised; apply Hfin.
  - cbn. now rewrite app_nil_r.
Qed.

(** *** Convergence *)

Lemma run_pipeline_stopped (w0 : World) :
  let r := run_pipeline os a w0 in
  stopped (configured_gates a) (snd r)
  /\ converged (metrics (snd r)) = loop_converged (snd r)
  /\ forall c, fst r = Ok c -> c = loop_converged (snd r).
Proof.
  cbv zeta. unfold run_pipeline.
  destruct (which_claude os); cbn [negb].
  - match goal with
    | |- context [for_iterations os a ?its ?st0] =>
        pose proof (for_iterations_stopped its st0
                      (initial_state_running _ _ _)) as H;
        destruct (for_iterations os a its st0) as [raised st]
    end.
    cbn [snd] in H.
    assert (Hfin : stopped (configured_gates a)
                     (finalize os a (clock os (trace w0)) st)).
    { unfold stopped, finalize in *. cbn -[last_outcome]. exact H. }
    destruct raised; cbn [fst snd]; (split; [exact Hfin|]);
      (split; [reflexivity|]); intros c Hc; [discriminate | now inversion Hc].
  - cbn [fst snd]. split.
    + apply running_stopped, initial_state_running.
    + split; [reflexivity|]. intros c Hc. now inversion Hc.
Qed.

(** *** What an iteration does *)

(** An iteration that passes leaves the loop with the flag up and one more
    record, its own. *)
Lemma loop_body_passes (it : Z) (st : LoopState) (results : list GateResult) :
  iteration_passes os a it st results ->
  exists st', loop_body os a it st = (Break, st')
    /\ loop_converged st' = true
    /\ exists im,
         iterations (metrics st') = (iterations (metrics st) ++ [im])%list
         /\ iteration im = it /\ gate_results im = results
         /\ outcome im = Some IterationOutcome.PASS
         /\ verification_status im = GateStatus.PASS.
Proof.
  intros (st2 & gate_output & tr2 & w3 & (H1 & w1 & Hp1 & -> & H2) & Hg & H3 & Hv).
  unfold verification_at, quality_gates_at, at_phase3, at_phase2, at_phase1 in *.
  unfold loop_body, phase2_quality_gates, phase3_verification.
  unfold read_shutdown in *.
  cbn [fst snd world logged set_world trace set_trace log shutdown_requested
       metrics loop_converged] in *.
  rewrite H1 in H2, H3 |- *. cbn [orb] in H2, H3 |- *.
  rewrite H2 in H3. cbn [orb] in H3.
  rewrite Hp1.
  cbn [fst snd world logged set_world trace set_trace log shutdown_requested
       metrics loop_converged] in *.
  rewrite H2.
  cbn [fst snd world logged set_world trace set_trace log shutdown_requested
       metrics loop_converged orb] in *.
  rewrite Hg. cbn [negb].
  cbn [fst snd world logged set_world trace set_trace log shutdown_requested
       metrics loop_converged] in *.
  rewrite H3.
  cbn [fst snd world logged set_world trace set_trace log shutdown_requested
       metrics loop_converged] in *.
  rewrite Hv.
  eexists. split; [reflexivity|]. split; [reflexivity|].
  eexists. cbn. repeat split.
Qed.

Ltac step_in H :=
  cbn [fst snd world logged set_world trace set_trace log shutdown_requested
       metrics loop_converged orb negb finish_iteration append_iteration] in H.

(** The flag goes up in a passing iteration only. *)
Lemma loop_body_converges (it : Z) (st : LoopState) :
  loop_converged st = false ->
  loop_converged (snd (loop_body os a it st)) = true ->
  exists results, iteration_passes os a it st results.
Proof.
  intros Hc0 H.
  unfold iteration_passes, reaches_gates, verification_at, quality_gates_at,
    at_phase3, at_phase2, at_phase1.
  unfold loop_body, read_shutdown in *.
  cbn [fst snd world logged set_world trace set_trace log shutdown_requested
       metrics loop_converged].
  destruct (shutdown_requested st || signal_delivered os (trace (world st)))
    eqn:F1; step_in H; [congruence|].
  destruct (_run_implementation_phase a it _) as [[[]|e] w1] eqn:Hp1;
    step_in H; [|congruence].
  destruct (signal_delivered os (trace w1)) eqn:F2; step_in H; [congruence|].
  unfold phase2_quality_gates in H. step_in H.
  destruct (_run_quality_gates os _ _ _ _ _) as [[[gp go] gr] tr2] eqn:Hg.
  destruct gp; step_in H; [|congruence].
  unfold phase3_verification, read_shutdown in H. step_in H.
  destruct (signal_delivered os tr2) eqn:F3; step_in H; [congruence|].
  destruct (run_triangular_verification _ _ _ _ _ _ _) as [[b|e] w3] eqn:Hv;
    step_in H; [|congruence].
  destruct b; step_in H; [|congruence].
  exists gr. eexists. exists go, tr2, w3.
  split.
  { split; [reflexivity|]. exists w1. split; [reflexivity|].
    split; [reflexivity|]. cbn [orb]. exact F2. }
  cbn [fst snd world logged set_world trace set_trace log shutdown_requested
       metrics loop_converged orb].
  rewrite F2. cbn [orb].
  split; [exact Hg|]. split; [exact F3 | exact Hv].
Qed.

Lemma implementation_phase_returns (it : Z) (w w1 : World) :
  _run_implementation_phase a it w = (Ok tt, w1) ->
  exists output tr', w1 = log (LogRunnerOutput output) (set_trace w tr').
Proof.
  unfold _run_implementation_phase.
  destruct (runner a _ _ _ _) as [[output|e] tr']; [|discriminate].
  intros H. inversion H. now exists output, tr'.
Qed.

(** An iteration whose gates fail is recorded as such and the loop goes on. *)
Lemma loop_body_fails_its_gates (it : Z) (st : LoopState) :
  iteration_fails_its_gates os a it st ->
  exists st', loop_body os a it st = (Continue, st')
    /\ gate_failed_step [it] st st'.
Proof.
  intros (st2 & (H1 & w1 & Hp1 & -> & H2) & Hg).
  destruct (implementation_phase_returns _ _ _ Hp1) as (output & tr1 & Hw1).
  unfold quality_gates_at, at_phase2, at_phase1 in *.
  unfold loop_body, phase2_quality_gates.
  unfold read_shutdown in *.
  cbn [fst snd world logged set_world trace set_trace log shutdown_requested
       metrics loop_converged] in *.
  rewrite H1 in H2 |- *. cbn [orb] in H2 |- *.
  rewrite Hp1.
  cbn [fst snd world logged set_world trace set_trace log shutdown_requested
       metrics loop_converged] in *.
  rewrite H2.
  cbn [fst snd world logged set_world trace set_trace log shutdown_requested
       metrics loop_converged orb] in *.
  destruct (_run_quality_gates os _ _ _ _ _) as [[[gp go] gr] tr2].
  unfold all_passed in Hg. cbn [fst] in Hg. subst gp. cbn [negb].
  eexists. split; [reflexivity|].
  unfold gate_failed_step, finish_iteration, append_iteration, logged, set_world.
  subst w1. cbn.
  split; [reflexivity|]. split; [reflexivity|]. split.
  - eexists. split; [reflexivity|]. split; reflexivity.
  - eexists. split; [rewrite <- !app_assoc; reflexivity|].
    cbn. repeat split.
Qed.


Lemma range_split (n : nat) :
  forall lo k hi, Z.to_nat (k - lo) = n -> lo <= k <= hi ->
  range lo hi = (range lo k ++ range k hi)%list.
Proof.
  induction n as [|n IH]; intros lo k hi Hn Hk.
  - assert (k = lo) by lia. subst k. now rewrite (range_nil lo lo) by lia.
  - rewrite (range_cons lo hi), (range_cons lo k) by lia.
    cbn [app]. f_equal. apply IH; lia.
Qed.

Lemma continued_for_iterations (pre rest : list Z) :
  forall st st', continued os a pre st = Some st' ->
  for_iterations os a (pre ++ rest) st = for_iterations os a rest st'.
Proof.
  induction pre as [|it pre IH]; intros st st' H; cbn [continued] in H.
  - injection H as <-. reflexivity.
  - cbn [app for_iterations].
    destruct (loop_body os a it st) as [[| |e] st1]; try discriminate.
    now apply IH.
Qed.

Lemma for_iterations_converges (n : nat) :
  forall lo hi st, Z.to_nat (hi - lo) = n ->
  running (configured_gates a) st ->
  loop_converged (snd (for_iterations os a (range lo hi) st)) = true ->
  exists k st_k results,
    lo <= k < hi
    /\ continued os a (range lo k) st = Some st_k
    /\ iteration_passes os a k st_k results.
Proof.
  induction n as [|n IH]; intros lo hi st Hn Hrun H.
  - rewrite range_nil in H by lia. cbn in H.
    destruct Hrun as (Hc & _). congruence.
  - rewrite range_cons in H by lia. cbn [for_iterations] in H.
    pose proof (loop_body_after lo st Hrun) as Hafter.
    pose proof (loop_body_converges lo st (proj1 Hrun)) as Hpass.
    destruct (loop_body os a lo st) as [[| |e] st1] eqn:E;
      unfold after in Hafter; cbn [fst snd] in Hafter, Hpass, H.
    + destruct (IH (lo + 1) hi st1 ltac:(lia) Hafter H)
        as (k & st_k & results & Hk & Hcont & Hp).
      exists k, st_k, results. split; [lia|]. split; [|exact Hp].
      rewrite (range_cons lo k) by lia. cbn [continued]. now rewrite E.
    + destruct (Hpass H) as (results & Hp).
      exists lo, st, results. split; [lia|]. split; [|exact Hp].
      now rewrite range_nil by lia.
    + destruct (Hpass H) as (results & Hp).
      exists lo, st, results. split; [lia|]. split; [|exact Hp].
      now rewrite range_nil by lia.
Qed.

Lemma passing_iteration_ends_the_run (w0 : World) (k : Z) (st : LoopState)
    (results : list GateResult) :
  which_claude os = true ->
  1 <= k <= max_iterations a ->
  continued os a (range 1 k) (initial_state os w0) = Some st ->
  iteration_passes os a k st results ->
  let r := run_pipeline os a w0 in
  fst r = Ok true
  /\ loop_converged (snd r) = true
  /\ exists im,
       iterations (metrics (snd r)) = (iterations (metrics st) ++ [im])%list
       /\ iteration im = k /\ gate_results im = results
       /\ outcome im = Some IterationOutcome.PASS
       /\ verification_status im = GateStatus.PASS.
Proof.
  intros Hw Hk Hcont Hp. cbv zeta. unfold run_pipeline. rewrite Hw. cbn [negb].
  change (mkLoopState w0 (PipelineMetrics_new (strftime os (trace w0))) false false)
    with (initial_state os w0).
  rewrite (range_split (Z.to_nat (k - 1)) 1 k (max_iterations a + 1) eq_refl)
    by lia.
  rewrite (continued_for_iterations _ _ _ _ Hcont).
  rewrite (range_cons k) by lia. cbn [for_iterations].
  destruct (loop_body_passes k st results Hp)
    as (st' & E & Hc & im & Hi & Hrest).
  rewrite E. unfold finalize. cbn [fst snd loop_converged metrics iterations].
  rewrite Hc. split; [reflexivity|]. split; [reflexivity|].
  exists im. split; [exact Hi | exact Hrest].
Qed.

Lemma converged_run_has_a_passing_iteration (w0 : World) :
  loop_converged (snd (run_pipeline os a w0)) = true ->
  exists k st results,
    which_claude os = true
    /\ 1 <= k <= max_iterations a
    /\ continued os a (range 1 k) (initial_state os w0) = Some st
    /\ iteration_passes os a k st results.
Proof.
  unfold run_pipeline. destruct (which_claude os); cbn [negb].
  - change (mkLoopState w0 (PipelineMetrics_new (strftime os (trace w0))) false false)
      with (initial_state os w0).
    intros H.
    destruct (for_iterations_converges
                (Z.to_nat (max_iterations a + 1 - 1)) 1 (max_iterations a + 1)
                (initial_state os w0) eq_refl
                (initial_state_running _ _ _))
      as (k & st & results & Hk & Hcont & Hp).
    + destruct (for_iterations os a _ _) as [raised st'].
      destruct raised; exact H.
    + exists k, st, results. split; [reflexivity|]. split; [lia|]. now split.
  - cbn. discriminate.
Qed.

(** C2. For every run, the value returned and the converged flag of the
    metrics (which are the metrics saved, whenever the run saves them) are
    true exactly if the last recorded iteration has outcome Pass; a
    recorded iteration has outcome Pass exactly if it holds a passing
    result for every configured gate and the verification status Pass; and
    the last record is a Pass exactly if the run has an iteration [k],
    reached through iterations that all ended in [continue], in which the
    gate executor returned success and the verification protocol returned
    true, in which case the last record is the one of iteration [k] and
    holds the results the executor returned. *)
Theorem converged_iff_last_iteration_passed (w0 : World) :
  let r := run_pipeline os a w0 in
  let m := metrics (snd r) in
  (forall c, fst r = Ok c -> c = converged m)
  /\ metrics_json (world (snd r))
     = (metrics_json w0 ++ (if which_claude os then [m] else []))%list
  /\ (converged m = true <-> last_outcome (iterations m) = Some IterationOutcome.PASS)
  /\ Forall (fun im =>
               outcome im = Some IterationOutcome.PASS <->
               all_gates_passed (configured_gates a) im
               /\ verification_status im = GateStatus.PASS)
       (iterations m)
  /\ (last_outcome (iterations m) = Some IterationOutcome.PASS <->
      exists k st results,
        which_claude os = true
        /\ 1 <= k <= max_iterations a
        /\ continued os a (range 1 k) (initial_state os w0) = Some st
        /\ iteration_passes os a k st results)
  /\ (forall k st results,
        which_claude os = true ->
        1 <= k <= max_iterations a ->
        continued os a (range 1 k) (initial_state os w0) = Some st ->
        iteration_passes os a k st results ->
        exists im,
          iterations m = (iterations (metrics st) ++ [im])%list
          /\ iteration im = k /\ gate_results im = results
          /\ outcome im = Some IterationOutcome.PASS
          /\ verification_status im = GateStatus.PASS).
Proof.
  cbv zeta.
  destruct (run_pipeline_stopped w0) as ((Hall & Hlast) & Hconv & Hret).
  split; [intros c Hc; rewrite Hconv; now apply Hret|].
  split; [apply metrics_saved_unless_claude_missing|].
  split; [rewrite Hconv; exact Hlast|]. split; [exact Hall|]. split.
  - rewrite <- Hlast. split.
    + apply converged_run_has_a_passing_iteration.
    + intros (k & st & results & Hw & Hk & Hcont & Hp).
      apply (passing_iteration_ends_the_run w0 k st results Hw Hk Hcont Hp).
  - intros k st results Hw Hk Hcont Hp.
    apply (passing_iteration_ends_the_run w0 k st results Hw Hk Hcont Hp).
Qed.


(** *** The empty gate set *)

Lemma build_gates_empty (c : ProjectConfig) :
  lint_cmd c = "" -> test_cmd c = "" -> security_cmd c = "" ->
  build_gates c [] = [].
Proof. unfold build_gates. intros -> -> ->. reflexivity. Qed.

Lemma verification_keeps_run_log (requirements output_dir : string)
    (c : ProjectConfig) (timeout retries : Z) (r : ClaudeRunner) (w : World) :
  run_log (snd (run_triangular_verification requirements output_dir c
                  timeout retries r w))
  = run_log w.
Proof.
  unfold run_triangular_verification.
  destruct (r _ timeout retries (trace w)) as [[ob|e] tr1]; [|reflexivity].
  destruct (r _ timeout retries _) as [[oc|e] tr2]; reflexivity.
Qed.

(** Unless a shutdown was requested, phase 3 logs its start and calls the
    verification protocol. *)
Lemma phase3_starts_verification (it : Z) (iter_start : seconds)
    (im : IterationMetrics) (st : LoopState) :
  shutdown_requested st = false ->
  signal_delivered os (trace (world st)) = false ->
  In (LogPhaseStart "phase3_triangular_verify" it)
     (run_log (world (snd (phase3_verification os a it iter_start im st)))).
Proof.
  intros Hflag Hsig. unfold phase3_verification, read_shutdown.
  rewrite Hflag, Hsig. cbn [orb].
  cbn [world logged set_world].
  match goal with
  | |- context [run_triangular_verification ?q ?o ?c ?t ?r ?u ?w] =>
      pose proof (verification_keeps_run_log q o c t r u w) as H;
      destruct (run_triangular_verification q o c t r u w) as [[passed|e] w']
  end; cbn [snd] in H.
  - destruct passed; cbn; rewrite H; cbn; rewrite ?in_app_iff; cbn; tauto.
  - cbn. rewrite H. cbn. rewrite in_app_iff. cbn. tauto.
Qed.

(** C10. With no built-in command, no plugin and no callable gate, the
    executor returns success with an empty failure text and no results,
    without touching the process history; phase 2 then leaves the feedback
    artifact as it was, records no gate result, logs its pass and hands the
    iteration to phase 3, which opens with the shutdown check of the phase
    boundary and, unless a shutdown was requested, starts verification. *)
Theorem empty_gate_set_goes_to_verification (it : Z) (iter_start : seconds)
    (im : IterationMetrics) (st : LoopState) :
  lint_cmd (cfg a) = "" -> test_cmd (cfg a) = "" -> security_cmd (cfg a) = "" ->
  plugins a = [] -> custom_gates a = [] ->
  (forall tr,
     _run_quality_gates os (build_gates (cfg a) (plugins a)) (custom_gates a)
       (use_parallel a) (claude_timeout a) tr
     = ((true, "", []), tr))
  /\ (exists st' im',
        phase2_quality_gates os a it iter_start im st
        = phase3_verification os a it iter_start im' st'
        /\ gate_results im' = []
        /\ feedback_txt (world st') = feedback_txt (world st)
        /\ trace (world st') = trace (world st)
        /\ metrics st' = metrics st
        /\ run_log (world st')
           = (run_log (world st)
              ++ [LogPhaseStart "phase2_quality_gates" it;
                  LogPhaseEnd "phase2_quality_gates" "pass" it])%list)
  /\ (shutdown_requested st = false ->
      signal_delivered os (trace (world st)) = false ->
      In (LogPhaseStart "phase3_triangular_verify" it)
         (run_log (world (snd (phase2_quality_gates os a it iter_start im st))))).
Proof.
  intros Hl Ht Hs Hp Hc.
  assert (Hgates : forall tr,
    _run_quality_gates os (build_gates (cfg a) (plugins a)) (custom_gates a)
      (use_parallel a) (claude_timeout a) tr = ((true, "", []), tr)).
  { intros tr. rewrite Hp, Hc, (build_gates_empty _ Hl Ht Hs). reflexivity. }
  split; [exact Hgates|].
  unfold phase2_quality_gates. rewrite Hgates. cbn [negb]. split.
  - eexists. eexists. split; [reflexivity|].
    cbn. rewrite <- app_assoc. repeat split.
  - intros Hflag Hsig. apply phase3_starts_verification; assumption.
Qed.

(** *** Exhausting the iteration budget *)

Lemma phase_starts_app (phase : string) (l1 l2 : list LogEntry) :
  phase_starts phase (l1 ++ l2) = (phase_starts phase l1 ++ phase_starts phase l2)%list.
Proof.
  induction l1 as [|e l1 IH]; [reflexivity|].
  destruct e as [p i|p r i|t]; cbn [app phase_starts]; try exact IH.
  destruct (String.eqb p phase); [cbn [app]; now rewrite IH | exact IH].
Qed.

Lemma gate_failed_step_app (l1 l2 : list Z) (st st1 st2 : LoopState) :
  gate_failed_step l1 st st1 -> gate_failed_step l2 st1 st2 ->
  gate_failed_step (l1 ++ l2) st st2.
Proof.
  intros (Hf1 & Hc1 & (ims1 & Hi1 & Hn1 & Ho1) & (L1 & Hl1 & Ha1 & Hb1 & Hd1))
         (Hf2 & Hc2 & (ims2 & Hi2 & Hn2 & Ho2) & (L2 & Hl2 & Ha2 & Hb2 & Hd2)).
  split; [exact Hf2|]. split; [congruence|]. split.
  - exists (ims1 ++ ims2)%list. rewrite Hi2, Hi1, <- app_assoc.
    split; [reflexivity|]. rewrite !map_app, Hn1, Hn2, Ho1, Ho2.
    split; reflexivity.
  - exists (L1 ++ L2)%list. rewrite Hl2, Hl1, <- app_assoc.
    split; [reflexivity|]. rewrite !phase_starts_app, Ha1, Ha2, Hb1, Hb2, Hd1, Hd2.
    repeat split.
Qed.

(** C9. With a budget of three iterations, if in each of the iterations
    1, 2 and 3 of the run no shutdown is requested, the implementation
    phase completes and the gate executor reports a failure, then the run
    performs iterations 1, 2 and 3, records three IterationMetrics with
    outcome GateFail, never starts the verification phase, and returns
    false. *)
Theorem three_gate_failures_exhaust_the_budget (w0 : World) :
  max_iterations a = 3 ->
  which_claude os = true ->
  (forall k, In k [1; 2; 3] ->
     iteration_fails_its_gates os a k (state_before os a w0 k)) ->
  let r := run_pipeline os a w0 in
  let m := metrics (snd r) in
  fst r = Ok false
  /\ converged m = false
  /\ total_iterations m = 3
  /\ map iteration (iterations m) = [1; 2; 3]
  /\ map outcome (iterations m)
     = [Some IterationOutcome.GATE_FAIL; Some IterationOutcome.GATE_FAIL;
        Some IterationOutcome.GATE_FAIL]
  /\ exists L,
       run_log (world (snd r)) = (run_log w0 ++ L)%list
       /\ phase_starts "phase1_implement" L = [1; 2; 3]
       /\ phase_starts "phase2_quality_gates" L = [1; 2; 3]
       /\ phase_starts "phase3_triangular_verify" L = [].
Proof.
  intros Hmax Hwhich Hfail. cbv zeta.
  pose proof (Hfail 1 ltac:(cbn; tauto)) as H1.
  pose proof (Hfail 2 ltac:(cbn; tauto)) as H2.
  pose proof (Hfail 3 ltac:(cbn; tauto)) as H3.
  unfold state_before in H1, H2, H3.
  change (range 1 1) with (@nil Z) in H1.
  change (range 1 2) with [1] in H2.
  change (range 1 3) with [1; 2] in H3.
  cbn [for_iterations snd] in H1.
  destruct (loop_body_fails_its_gates 1 _ H1) as (st1 & E1 & G1).
  cbn [for_iterations] in H2, H3. rewrite E1 in H2, H3. cbn [snd] in H2.
  destruct (loop_body_fails_its_gates 2 _ H2) as (st2 & E2 & G2).
  rewrite E2 in H3. cbn [snd] in H3.
  destruct (loop_body_fails_its_gates 3 _ H3) as (st3 & E3 & G3).
  unfold run_pipeline. rewrite Hwhich, Hmax. cbn [negb].
  change (range 1 (3 + 1)) with [1; 2; 3].
  change (mkLoopState w0 (PipelineMetrics_new (strftime os (trace w0))) false false)
    with (initial_state os w0).
  cbn [for_iterations]. rewrite E1, E2, E3.
  destruct (gate_failed_step_app [1] [2; 3] _ _ _ G1
              (gate_failed_step_app [2] [3] _ _ _ G2 G3))
    as (Hf & Hc & (ims & Hi & Hn & Ho) & (L & Hl & Ha & Hb & Hd)).
  cbn [app] in Hn, Ho, Ha, Hb.
  cbn [initial_state loop_converged metrics iterations PipelineMetrics_new world app] in *.
  unfold finalize. cbn [fst snd metrics converged total_iterations iterations].
  rewrite Hc. split; [reflexivity|]. split; [reflexivity|].
  rewrite Hi. split.
  - apply (f_equal (@length Z)) in Hn. rewrite length_map in Hn.
    rewrite Hn. reflexivity.
  - split; [exact Hn|]. split; [exact Ho|].
    exists L. destruct (Str.truthy (webhook_url a)); cbn; auto.
Qed.


End PipelineFacts.

(** ** The model at work *)

(** The agent fails once and then succeeds: one sleep of [2^1] seconds. *)
Example retry_then_success :
  CliClaudeRunner_run (Scenario.calm_os Scenario.flaky_claude Scenario.sh true)
    "test" 300 2 []
  = (Ok "ok", [EvClaude "test" 300; EvSleep 2; EvClaude "test" 300]).
Proof. vm_compute. reflexivity. Qed.

(** Both attempts fail: the error names the attempt count, and no sleep
    follows the last attempt. *)
Example retries_exhausted :
  CliClaudeRunner_run (Scenario.calm_os Scenario.failing_claude Scenario.sh true)
    "test" 300 2 []
  = (Raise (RuntimeError "claude failed after 2 attempts"),
     [EvClaude "test" 300; EvSleep 2; EvClaude "test" 300]).
Proof. vm_compute. reflexivity. Qed.

Lemma runner_retries_with_backoff_witness :
  let os := Scenario.calm_os Scenario.flaky_claude Scenario.sh true in
  1 <= 2
  /\ exists k, 1 <= k <= 2
       /\ (forall j, 1 <= j < k ->
             attempt_failed (attempt_outcome os "test" 300 [] j) = true)
       /\ (attempt_failed (attempt_outcome os "test" 300 [] k) = true -> k = 2)
       /\ CliClaudeRunner_run os "test" 300 2 []
          = (verdict 2 (attempt_outcome os "test" 300 [] k),
             ([] ++ retried "test" 300 k ++ [EvClaude "test" 300])%list).
Proof.
  cbv zeta. split; [lia|].
  apply (runner_retries_with_backoff
           (Scenario.calm_os Scenario.flaky_claude Scenario.sh true)
           "test" 300 2 []).
  lia.
Defined.

Lemma unsafe_command_is_blocked_witness :
  let os := Scenario.calm_os Scenario.mock_claude Scenario.sh true in
  UnsafeFragment "`"
  /\ _run_gate_command os "echo `rm -rf /`" 300 []
     = ((false, "BLOCKED: command contains unsafe patterns: echo `rm -rf /`"), []).
Proof.
  cbv zeta. split; [constructor|].
  apply (unsafe_command_is_blocked
           (Scenario.calm_os Scenario.mock_claude Scenario.sh true)
           "echo " "`" "rm -rf /`" 300 []).
  constructor.
Defined.

(** The claim about the sequential failure text, as first stated, fails
    when the first failing gate is an in-process callable: its text has no
    command in parentheses. *)
Lemma sequential_callable_failure_text_counterexample :
  let os := Scenario.calm_os Scenario.mock_claude Scenario.sh true in
  let x := _run_gates_sequential os [("lint", "true")]
             [("style", fun _ => Returns false "bad")] 300 [] in
  all_passed x = false
  /\ map name (gate_results_of x) = ["lint"; "callable:style"]
  /\ map status (gate_results_of x) = [GateStatus.PASS; GateStatus.FAIL]
  /\ failure_text x = "callable:style FAILED:" ++ nl ++ "bad"
  /\ forall gate cmd out : string,
       failure_text x <> gate ++ " (" ++ cmd ++ ") FAILED:" ++ nl ++ out.
Proof.
  cbv zeta. repeat split.
  intros gate cmd out H.
  assert (Hin : Str.contains "("
                  (gate ++ " (" ++ cmd ++ ") FAILED:" ++ nl ++ out) = true).
  { apply StrFacts.contains_spec.
    exists (gate ++ " "), (cmd ++ ") FAILED:" ++ nl ++ out).
    rewrite StrFacts.append_assoc. reflexivity. }
  rewrite <- H in Hin. vm_compute in Hin. discriminate.
Qed.

Lemma verification_passes_iff_marker_in_report_witness :
  let os := Scenario.calm_os Scenario.mock_claude_verify_pass Scenario.sh true in
  let r := run_triangular_verification "requirements.md" ".agentic-dev-pipeline"
             (Scenario.config "" "" "") 300 2 (CliClaudeRunner_run os)
             Scenario.empty_world in
  r = (Ok true, snd r)
  /\ exists report,
       discrepancy_report_md (snd r) = Some report
       /\ (true = true <->
           exists pre post, report = pre ++ TRIANGULAR_PASS_MARKER ++ post).
Proof.
  cbv zeta. split; [vm_compute; reflexivity|].
  apply (verification_passes_iff_marker_in_report
           "requirements.md" ".agentic-dev-pipeline" (Scenario.config "" "" "")
           300 2
           (CliClaudeRunner_run
              (Scenario.calm_os Scenario.mock_claude_verify_pass Scenario.sh true))
           Scenario.empty_world).
  vm_compute. reflexivity.
Defined.

(** Without the marker the verdict is false. *)
Example verification_without_marker :
  let os := Scenario.calm_os Scenario.strict_claude Scenario.sh true in
  fst (run_triangular_verification "requirements.md" ".agentic-dev-pipeline"
         (Scenario.config "" "" "") 300 2 (CliClaudeRunner_run os)
         Scenario.empty_world)
  = Ok false.
Proof. vm_compute. reflexivity. Qed.

(** The test is a substring test and nothing more: an agent that merely
    echoes its prompt passes, because the prompt of Agent C quotes the
    marker. *)
Example verification_of_an_echo :
  let os := Scenario.calm_os Scenario.mock_claude Scenario.sh true in
  fst (run_triangular_verification "requirements.md" ".agentic-dev-pipeline"
         (Scenario.config "" "" "") 300 2 (CliClaudeRunner_run os)
         Scenario.empty_world)
  = Ok true.
Proof. vm_compute. reflexivity. Qed.

Lemma empty_gate_set_goes_to_verification_witness :
  let os := Scenario.calm_os Scenario.mock_claude_verify_pass Scenario.sh true in
  let a := Scenario.args os 3 false (Scenario.config "" "" "") [] in
  let st := mkLoopState Scenario.empty_world (PipelineMetrics_new "") false false in
  let im := IterationMetrics_new 1 in
  (forall tr,
     _run_quality_gates os (build_gates (cfg a) (plugins a)) (custom_gates a)
       (use_parallel a) (claude_timeout a) tr
     = ((true, "", []), tr))
  /\ (exists st' im',
        phase2_quality_gates os a 1 0 im st
        = phase3_verification os a 1 0 im' st'
        /\ gate_results im' = []
        /\ feedback_txt (world st') = feedback_txt (world st)
        /\ trace (world st') = trace (world st)
        /\ metrics st' = metrics st
        /\ run_log (world st')
           = (run_log (world st)
              ++ [LogPhaseStart "phase2_quality_gates" 1;
                  LogPhaseEnd "phase2_quality_gates" "pass" 1])%list)
  /\ (shutdown_requested st = false ->
      signal_delivered os (trace (world st)) = false ->
      In (LogPhaseStart "phase3_triangular_verify" 1)
         (run_log (world (snd (phase2_quality_gates os a 1 0 im st))))).
Proof.
  cbv zeta.
  apply (empty_gate_set_goes_to_verification
           (Scenario.calm_os Scenario.mock_claude_verify_pass Scenario.sh true)
           (Scenario.args
              (Scenario.calm_os Scenario.mock_claude_verify_pass Scenario.sh true)
              3 false (Scenario.config "" "" "") []));
    reflexivity.
Defined.

(** The integration test without gates: one iteration, converged. *)
Example no_gates_converges :
  let os := Scenario.calm_os Scenario.mock_claude_verify_pass Scenario.sh true in
  let r := run_pipeline os (Scenario.args os 3 false (Scenario.config "" "" "") [])
             Scenario.empty_world in
  fst r = Ok true
  /\ map converged (metrics_json (world (snd r))) = [true]
  /\ map outcome (iterations (metrics (snd r))) = [Some IterationOutcome.PASS]
  /\ feedback_txt (world (snd r)) = None.
Proof. vm_compute. repeat split. Qed.

(** The first iteration of that run, with a lint gate that succeeds, is a
    passing iteration: the executor returns its one result and the
    verification protocol returns true. *)
Example first_iteration_passes :
  let os := Scenario.calm_os Scenario.mock_claude_verify_pass Scenario.sh true in
  let a := Scenario.args os 3 false (Scenario.config "true" "" "") [] in
  iteration_passes os a 1 (initial_state os Scenario.empty_world)
    [GateResult_new "lint" GateStatus.PASS ""].
Proof.
  cbv zeta. unfold iteration_passes, reaches_gates.
  do 4 eexists. split; [split|split; [|split]].
  - vm_compute. reflexivity.
  - eexists. split; [vm_compute; reflexivity|].
    split; [reflexivity | vm_compute; reflexivity].
  - vm_compute. reflexivity.
  - vm_compute. reflexivity.
  - vm_compute. reflexivity.
Qed.

(** An agent whose reports never hold the marker: the gates pass, the
    verification protocol returns false in every iteration, and the run
    does not converge. *)
Example strict_agent_does_not_converge :
  let os := Scenario.calm_os Scenario.strict_claude Scenario.sh true in
  let r := run_pipeline os (Scenario.args os 2 false (Scenario.config "true" "" "") [])
             Scenario.empty_world in
  fst r = Ok false
  /\ map outcome (iterations (metrics (snd r)))
     = [Some IterationOutcome.VERIFY_FAIL; Some IterationOutcome.VERIFY_FAIL]
  /\ map verification_status (iterations (metrics (snd r)))
     = [GateStatus.FAIL; GateStatus.FAIL]
  /\ map converged (metrics_json (world (snd r))) = [false].
Proof. vm_compute. repeat split. Qed.

(** Reading a file back turns CR LF and CR into LF; the blind review of an
    output directory [.] is named without a directory. *)
Example text_is_read_back_with_unix_line_ends :
  Str.read_text ("a" ++ String (ascii_of_nat 13) nl ++ "b"
                 ++ String (ascii_of_nat 13) "c")
  = "a" ++ nl ++ "b" ++ nl ++ "c".
Proof. reflexivity. Qed.

Example paths_are_joined_as_pathlib_does :
  Pathlib.div "." "blind-review.md" = "blind-review.md"
  /\ Pathlib.div ".agentic-dev-pipeline" "blind-review.md"
     = ".agentic-dev-pipeline/blind-review.md"
  /\ Pathlib.div "/tmp//out/" "blind-review.md" = "/tmp/out/blind-review.md"
  /\ Pathlib.str "./docs/requirements.md" = "docs/requirements.md".
Proof. repeat split. Qed.

Lemma three_gate_failures_exhaust_the_budget_witness :
  let os := Scenario.calm_os Scenario.mock_claude Scenario.sh_fails_thrice true in
  let a := Scenario.args os 3 false (Scenario.config "make lint" "" "") [] in
  let r := run_pipeline os a Scenario.empty_world in
  let m := metrics (snd r) in
  fst r = Ok false
  /\ converged m = false
  /\ total_iterations m = 3
  /\ map iteration (iterations m) = [1; 2; 3]
  /\ map outcome (iterations m)
     = [Some IterationOutcome.GATE_FAIL; Some IterationOutcome.GATE_FAIL;
        Some IterationOutcome.GATE_FAIL]
  /\ exists L,
       run_log (world (snd r)) = (run_log Scenario.empty_world ++ L)%list
       /\ phase_starts "phase1_implement" L = [1; 2; 3]
       /\ phase_starts "phase2_quality_gates" L = [1; 2; 3]
       /\ phase_starts "phase3_triangular_verify" L = [].
Proof.
  cbv zeta.
  apply (three_gate_failures_exhaust_the_budget
           (Scenario.calm_os Scenario.mock_claude Scenario.sh_fails_thrice true)
           (Scenario.args
              (Scenario.calm_os Scenario.mock_claude Scenario.sh_fails_thrice true)
              3 false (Scenario.config "make lint" "" "") [])).
  - reflexivity.
  - reflexivity.
  - intros k Hk. cbn [In] in Hk.
    destruct Hk as [<-|[<-|[<-|[]]]];
      (eexists; split;
       [ split; [vm_compute; reflexivity|];
         eexists; split; [vm_compute; reflexivity|];
         split; [reflexivity | vm_compute; reflexivity]
       | vm_compute; reflexivity ]).
Defined.

(** Two failing gates, sequentially: the run stops after the first, one
    result is recorded and one subprocess was started. *)
Example sequential_two_failures :
  _run_gates_sequential (Scenario.calm_os Scenario.mock_claude Scenario.sh true)
    [("A", "false"); ("B", "false")] [] 300 []
  = ((false, "A (false) FAILED:" ++ nl,
      [GateResult_new "A" GateStatus.FAIL ""]),
     [EvShell "false" 300]).
Proof. vm_compute. reflexivity. Qed.

(** Two failing gates, in parallel: both run, two results are recorded and
    the failure text names both. *)
Example parallel_two_failures :
  _run_gates_parallel (Scenario.calm_os Scenario.mock_claude Scenario.sh true)
    [("A", "false"); ("B", "false")] [] 300 []
  = ((false, "A FAILED:" ++ nl ++ nl ++ nl ++ "B FAILED:" ++ nl,
      [GateResult_new "A" GateStatus.FAIL ""; GateResult_new "B" GateStatus.FAIL ""]),
     [EvShell "false" 300; EvShell "false" 300]).
Proof. vm_compute. reflexivity. Qed.

(** A gate function that raises is a failed gate, not a crash. *)
Example raising_gate_is_a_failure :
  fst (_run_callable_gate "test" (fun _ => Raises "boom") [])
  = (false, "Gate 'test' raised: boom").
Proof. reflexivity. Qed.

(** A shutdown request during the first agent call: the loop stops at the
    next phase boundary, no iteration is recorded, and the metrics are
    saved once. *)
Example cancelled_run_saves_metrics :
  let os := Scenario.interrupted_os Scenario.mock_claude Scenario.sh in
  let r := run_pipeline os (Scenario.args os 3 false (Scenario.config "true" "" "") [])
             Scenario.empty_world in
  fst r = Ok false
  /\ iterations (metrics (snd r)) = []
  /\ map total_iterations (metrics_json (world (snd r))) = [0]
  /\ phase_starts "phase2_quality_gates" (run_log (world (snd r))) = [].
Proof. vm_compute. repeat split. Qed.

(** C1.  The run that does not find the agent executable returns false
    before the [try] block is entered: nothing is written to the metrics
    artifact. *)
Theorem claude_missing_run_saves_no_metrics :
  let os := Scenario.calm_os Scenario.mock_claude Scenario.sh false in
  let r := run_pipeline os (Scenario.args os 3 false (Scenario.config "" "" "") [])
             Scenario.empty_world in
  fst r = Ok false
  /\ metrics_json (world (snd r)) = [].
Proof. vm_compute. split; reflexivity. Qed.

(** The sibling path: the executable is found by the lookup but gone when
    the runner starts it.  The run ends in the same error before any
    iteration completes, and the metrics are saved, once. *)
Example claude_vanished_run_saves_metrics :
  let os := Scenario.calm_os Scenario.vanished_claude Scenario.sh true in
  let r := run_pipeline os (Scenario.args os 3 false (Scenario.config "" "" "") [])
             Scenario.empty_world in
  fst r = Raise (RuntimeError
                   "'claude' CLI not found in PATH. Install Claude Code first.")
  /\ map total_iterations (metrics_json (world (snd r))) = [0]
  /\ map converged (metrics_json (world (snd r))) = [false].
Proof. vm_compute. repeat split. Qed.

(* ================================================================== *)
(** * Part III: further properties of the code *)
(* ================================================================== *)

(** ** The agent runner: budget and backoff *)

Section RunnerBudget.
Variable os : OS.

Lemma agent_calls_app (l1 l2 : list Event) :
  agent_calls (l1 ++ l2) = (agent_calls l1 + agent_calls l2)%nat.
Proof.
  induction l1 as [|e l1 IH]; [reflexivity|].
  destruct e; cbn [app agent_calls]; rewrite IH; reflexivity.
Qed.

Lemma slept_app (l1 l2 : list Event) : slept (l1 ++ l2) = slept l1 + slept l2.
Proof.
  induction l1 as [|e l1 IH]; [reflexivity|].
  destruct e; cbn [app slept]; rewrite IH; lia.
Qed.

(** Attempts [1 .. k-1] with their backoff: [k-1] agent calls and
    [2 + 4 + ... + 2^(k-1)] seconds of sleep. *)
Lemma retried_totals (prompt : string) (timeout : Z) (n : nat) :
  agent_calls (retried prompt timeout (Z.of_nat n + 1)) = n
  /\ slept (retried prompt timeout (Z.of_nat n + 1)) = 2 ^ (Z.of_nat n + 1) - 2.
Proof.
  induction n as [|n [IHc IHs]].
  - split; reflexivity.
  - replace (Z.of_nat (S n) + 1) with ((Z.of_nat n + 1) + 1) by lia.
    rewrite retried_succ by lia.
    rewrite agent_calls_app, slept_app, IHc, IHs. cbn [agent_calls slept].
    split; [lia|].
    assert (Hpow : 2 ^ (Z.of_nat n + 1 + 1) = 2 * 2 ^ (Z.of_nat n + 1))
      by (rewrite <- Z.pow_succ_r by lia; f_equal; lia).
    lia.
Qed.

(** X1. With [max_retries] zero or negative the agent is never started:
    the call raises the "failed after" error at once and leaves the
    history of the process as it was. *)
Theorem runner_without_attempts (prompt : string) (timeout max_retries : Z)
    (tr : list Event) :
  max_retries <= 0 ->
  CliClaudeRunner_run os prompt timeout max_retries tr
  = (Raise (RuntimeError
       ("claude failed after " ++ Str.of_Z max_retries ++ " attempts")), tr).
Proof.
  intros H. unfold CliClaudeRunner_run. rewrite range_nil by lia. reflexivity.
Qed.

(** X2. Whatever the agent does, one call of the runner starts it at most
    [max_retries] times and sleeps at most [2^max_retries - 2] seconds in
    total. *)
Theorem runner_stays_within_budget (prompt : string) (timeout max_retries : Z)
    (tr : list Event) :
  exists new,
    snd (CliClaudeRunner_run os prompt timeout max_retries tr) = (tr ++ new)%list
    /\ Z.of_nat (agent_calls new) <= Z.max 0 max_retries
    /\ 0 <= slept new
    /\ slept new + 2 <= 2 ^ (Z.max 1 max_retries).
Proof.
  destruct (Z_le_gt_dec max_retries 0) as [Hle|Hgt].
  - exists []. rewrite runner_without_attempts by exact Hle.
    rewrite app_nil_r. cbn [snd agent_calls slept].
    replace (Z.max 1 max_retries) with 1 by lia. repeat split; lia.
  - destruct (attempts_from os prompt timeout max_retries tr
                (Z.to_nat (max_retries - 1)) 1)
      as (k & Hk & _ & _ & Hrun); [lia | reflexivity | intros j Hj; lia |].
    replace (retried prompt timeout 1) with (@nil Event) in Hrun by reflexivity.
    rewrite app_nil_r in Hrun. unfold CliClaudeRunner_run. rewrite Hrun.
    exists (retried prompt timeout k ++ [EvClaude prompt timeout])%list.
    split; [reflexivity|].
    destruct (retried_totals prompt timeout (Z.to_nat (k - 1))) as [Hc Hs].
    replace (Z.of_nat (Z.to_nat (k - 1)) + 1) with k in Hc, Hs by lia.
    rewrite agent_calls_app, slept_app, Hc, Hs. cbn [agent_calls slept].
    assert (Hpow : 2 ^ k <= 2 ^ max_retries)
      by (apply Z.pow_le_mono_r; lia).
    assert (Hk1 : 2 <= 2 ^ k).
    { change 2 with (2 ^ 1) at 1. apply Z.pow_le_mono_r; lia. }
    replace (Z.max 1 max_retries) with max_retries by lia.
    repeat split; lia.
Qed.

End RunnerBudget.

Lemma runner_without_attempts_witness :
  let os := Scenario.calm_os Scenario.mock_claude Scenario.sh true in
  0 <= 0
  /\ CliClaudeRunner_run os "test" 300 0 []
     = (Raise (RuntimeError "claude failed after 0 attempts"), []).
Proof.
  cbv zeta. split; [lia|].
  apply (runner_without_attempts
           (Scenario.calm_os Scenario.mock_claude Scenario.sh true)
           "test" 300 0 []).
  lia.
Defined.

(** ** The gate executor: what runs and what is recorded *)

Section ExecutorFacts.
Variable os : OS.

(** X3. A shell command is started as a subprocess exactly when it holds
    no unsafe fragment, and then exactly once; a command that holds one
    leaves the history of the process untouched. *)
Theorem command_runs_iff_safe (cmd : string) (timeout : Z) (tr : list Event) :
  (holds_unsafe_fragment cmd <->
   snd (_run_gate_command os cmd timeout tr) = tr)
  /\ (~ holds_unsafe_fragment cmd <->
      snd (_run_gate_command os cmd timeout tr)
      = (tr ++ [EvShell cmd timeout])%list).
Proof.
  assert (Hneq : (tr ++ [EvShell cmd timeout])%list <> tr).
  { intros H. apply (f_equal (@length Event)) in H.
    rewrite length_app in H. simpl in H. lia. }
  unfold holds_unsafe_fragment.
  destruct (_is_safe_command cmd) eqn:Hsafe.
  - rewrite (safe_command_is_run os cmd timeout tr Hsafe).
    assert (Hno : ~ (exists pre m post,
                       cmd = pre ++ m ++ post /\ UnsafeFragment m)).
    { intros H. apply _is_safe_command_spec in H. congruence. }
    split; split; intros H; try tauto; try reflexivity;
      try (now apply Hneq in H).
  - assert (Hyes : exists pre m post,
                     cmd = pre ++ m ++ post /\ UnsafeFragment m)
      by now apply _is_safe_command_spec.
    unfold _run_gate_command. rewrite Hsafe. cbn [negb snd].
    split; split; intros H; try tauto; try reflexivity;
      try (symmetry in H; now apply Hneq in H).
Qed.

Lemma first_failure_shape (gs : list Gate) (timeout : Z) :
  forall tr,
  let x := run_until_first_failure os gs timeout tr in
  (all_passed x = true -> failure_text x = "")
  /\ Forall two_valued (gate_results_of x)
  /\ Forall (fun r => status r = GateStatus.PASS) (removelast (gate_results_of x))
  /\ (length (gate_results_of x) <= length gs)%nat
  /\ (all_passed x = false ->
      last (map status (gate_results_of x)) GateStatus.PASS = GateStatus.FAIL).
Proof.
  induction gs as [|g gs IH]; intros tr; cbv zeta.
  - cbn. repeat split; auto; discriminate.
  - cbn [run_until_first_failure].
    destruct (run_gate os g timeout tr) as [[p o] tr1]. cbn [fst].
    destruct p.
    + specialize (IH tr1). cbv zeta in IH.
      destruct (run_until_first_failure os gs timeout tr1) as [[[ok text] rs] tr2].
      unfold all_passed, failure_text, gate_results_of in *. cbn [fst snd] in *.
      destruct IH as (Htext & Htwo & Hinit & Hlen & Hlast).
      split; [exact Htext|]. split.
      { constructor; [now left | exact Htwo]. }
      split.
      { destruct rs as [|r rs]; [constructor|].
        change (removelast (result_of (gate_name g) (true, o) :: r :: rs))
          with (result_of (gate_name g) (true, o) :: removelast (r :: rs)).
        constructor; [reflexivity | exact Hinit]. }
      split; [simpl; lia|].
      intros Hok. specialize (Hlast Hok).
      destruct rs as [|r rs]; [discriminate Hlast | exact Hlast].
    + unfold all_passed, failure_text, gate_results_of. cbn [fst snd].
      split; [discriminate|]. split; [constructor; [now right | constructor]|].
      split; [constructor|]. split; [simpl; lia | reflexivity].
Qed.

(** X4. In both disciplines the verdict of the executor agrees with the
    results it returns: it reports success exactly when there is one
    result per gate and all of them are passes, a success carries an empty
    failure text, and every result is recorded as a pass or as a failure
    (a blocked command is a failure, never [BLOCKED] or [SKIPPED]). *)
Theorem verdict_agrees_with_results (gates : list (string * string))
    (callable_gates : list (string * GateFunction)) (use_parallel : bool)
    (timeout : Z) (tr : list Event) :
  let x := _run_quality_gates os gates callable_gates use_parallel timeout tr in
  let n := (length gates + length callable_gates)%nat in
  (all_passed x = true <->
   length (gate_results_of x) = n
   /\ Forall (fun r => status r = GateStatus.PASS) (gate_results_of x))
  /\ (all_passed x = true -> failure_text x = "")
  /\ Forall (fun r => status r = GateStatus.PASS \/ status r = GateStatus.FAIL)
       (gate_results_of x).
Proof.
  cbv zeta.
  pose proof (quality_gates_verdict os gates callable_gates use_parallel
                timeout tr) as Hv.
  unfold verdict_matches_results in Hv.
  split.
  { destruct (all_passed _).
    - split; [intros _; exact Hv | reflexivity].
    - split; [discriminate|]. intros [_ Hall].
      apply Exists_exists in Hv as (r & Hr & Hfail).
      rewrite Forall_forall in Hall. specialize (Hall r Hr). congruence. }
  clear Hv. unfold _run_quality_gates.
  destruct (length gates + length callable_gates =? 0)%nat.
  { split; [reflexivity | constructor]. }
  destruct use_parallel.
  - rewrite parallel_unfolded.
    destruct (attempt_all os (declaration_order gates callable_gates) timeout tr)
      as [submitted tr2].
    cbv zeta.
    assert (Htwo : forall done : list Future,
              Forall two_valued (map (fun f => result_of (fst f) (snd f)) done)).
    { intros done. apply Forall_map, Forall_forall. intros f _.
      unfold two_valued, result_of. simpl. destruct (fst (snd f)); auto. }
    destruct (map parallel_failure_block _);
      unfold all_passed, failure_text, gate_results_of; cbn [fst snd];
      (split; [try reflexivity; discriminate | apply Htwo]).
  - rewrite sequential_observed.
    pose proof (first_failure_shape (declaration_order gates callable_gates)
                  timeout tr) as H. cbv zeta in H.
    destruct (run_until_first_failure os _ timeout tr) as [[[ok text] rs] tr2].
    destruct H as (Htext & Htwo & _). split; [exact Htext | exact Htwo].
Qed.

(** X5. Under the sequential discipline every recorded result but the
    last is a pass, there are never more results than gates, and a failed
    run ends with the failed result: at most one failure is ever recorded. *)
Theorem sequential_records_one_failure (gates : list (string * string))
    (callable_gates : list (string * GateFunction)) (timeout : Z)
    (tr : list Event) :
  let x := _run_gates_sequential os gates callable_gates timeout tr in
  Forall (fun r => status r = GateStatus.PASS) (removelast (gate_results_of x))
  /\ (length (gate_results_of x) <= length gates + length callable_gates)%nat
  /\ (all_passed x = false ->
      last (map status (gate_results_of x)) GateStatus.PASS = GateStatus.FAIL).
Proof.
  cbv zeta. rewrite sequential_observed.
  pose proof (first_failure_shape (declaration_order gates callable_gates)
                timeout tr) as H. cbv zeta in H.
  destruct (run_until_first_failure os _ timeout tr) as [[[ok text] rs] tr2].
  destruct H as (_ & _ & Hinit & Hlen & Hlast).
  unfold declaration_order in Hlen. rewrite length_app, !length_map in Hlen.
  split; [exact Hinit|]. split; [exact Hlen | exact Hlast].
Qed.

End ExecutorFacts.

(** ** The loop: what the recorded iterations look like *)

Section LoopFacts.
Variable os : OS.
Variable a : RunArgs.

Lemma sorted_snoc (l : list Z) (x : Z) :
  StronglySorted Z.lt l -> Forall (fun i => i < x) l ->
  StronglySorted Z.lt (l ++ [x]).
Proof.
  induction 1 as [|y l Hs IH Hy]; intros Hx; cbn [app].
  - constructor; constructor.
  - inversion Hx; subst. constructor; [now apply IH|].
    apply Forall_app. split; [exact Hy | now constructor].
Qed.

(** A strictly increasing list of integers of [lo .. hi-1] has at most
    [hi - lo] elements. *)
Lemma sorted_bounded_length (l : list Z) :
  forall lo hi, StronglySorted Z.lt l -> Forall (fun i => lo <= i < hi) l ->
  Z.of_nat (length l) <= Z.max 0 (hi - lo).
Proof.
  induction l as [|x l IH]; intros lo hi Hs Hb; cbn [length]; [lia|].
  inversion Hs as [|? ? Hs' Hx]; subst. inversion Hb as [|? ? Hx0 Hb']; subst.
  specialize (IH (x + 1) hi Hs').
  assert (Hb2 : Forall (fun i => x + 1 <= i < hi) l).
  { rewrite Forall_forall in *. intros i Hi.
    specialize (Hx i Hi). specialize (Hb' i Hi). lia. }
  specialize (IH Hb2). lia.
Qed.

Lemma in_progress_frame (next : Z) (st st' : LoopState) :
  iterations (metrics st') = iterations (metrics st) ->
  loop_converged st' = loop_converged st ->
  feedback_txt (world st') = feedback_txt (world st) ->
  in_progress next st -> in_progress next st'.
Proof. unfold in_progress. intros -> -> ->. tauto. Qed.

Lemma in_progress_later (next next' : Z) (st : LoopState) :
  next <= next' -> in_progress next st -> in_progress next' st.
Proof.
  unfold in_progress. intros Hle (Hc & Hw & Hf & Hfb & Hs & Hb).
  repeat (split; [assumption|]).
  eapply Forall_impl; [|exact Hb]. cbv beta. intros i Hi. lia.
Qed.

Lemma finished_later (next next' : Z) (st : LoopState) :
  next <= next' -> finished next st -> finished next' st.
Proof.
  unfold finished. intros Hle (Hw & Hs & Hb & Hi & Hc).
  split; [assumption|]. split; [assumption|]. split; [|tauto].
  eapply Forall_impl; [|exact Hb]. cbv beta. intros i Hi'. lia.
Qed.

Lemma Forall_removelast {A : Type} (P : A -> Prop) (l : list A) :
  Forall P l -> Forall P (removelast l).
Proof.
  induction 1 as [|x l Hx Hl IH]; [constructor|].
  destruct l as [|y l]; [constructor|].
  change (removelast (x :: y :: l)) with (x :: removelast (y :: l)).
  now constructor.
Qed.

Lemma in_progress_finished (next : Z) (st : LoopState) :
  in_progress next st -> finished next st.
Proof.
  unfold in_progress, finished. intros (Hc & Hw & Hf & Hfb & Hs & Hb).
  rewrite Hc. repeat (split; [assumption|]).
  split; [now apply Forall_removelast | tauto].
Qed.

(** Recording a failed iteration [it] and writing its feedback. *)
Lemma in_progress_failure (it : Z) (st st' : LoopState) (im : IterationMetrics) :
  iterations (metrics st') = (iterations (metrics st) ++ [im])%list ->
  loop_converged st' = loop_converged st ->
  feedback_txt (world st') <> None ->
  1 <= it -> iteration im = it -> recorded_well im -> failed im ->
  in_progress it st -> in_progress (it + 1) st'.
Proof.
  unfold in_progress.
  intros -> -> Hfb H1 Hit Hw Hf (Hc & Hws & Hfs & _ & Hs & Hb).
  split; [exact Hc|].
  split; [apply Forall_app; split; [exact Hws | now constructor]|].
  split; [apply Forall_app; split; [exact Hfs | now constructor]|].
  split; [intros _; exact Hfb|].
  rewrite map_app. cbn [map]. rewrite Hit. split.
  - apply sorted_snoc; [exact Hs|].
    eapply Forall_impl; [|exact Hb]. cbv beta. intros i Hi. lia.
  - apply Forall_app. split.
    + eapply Forall_impl; [|exact Hb]. cbv beta. intros i Hi. lia.
    + constructor; [lia | constructor].
Qed.

(** Recording the passing iteration [it] and deleting the feedback. *)
Lemma finished_pass (it : Z) (st st' : LoopState) (im : IterationMetrics) :
  iterations (metrics st') = (iterations (metrics st) ++ [im])%list ->
  loop_converged st' = true ->
  feedback_txt (world st') = None ->
  1 <= it -> iteration im = it -> recorded_well im ->
  outcome im = Some IterationOutcome.PASS ->
  in_progress it st -> finished (it + 1) st'.
Proof.
  unfold in_progress, finished.
  intros -> -> -> H1 Hit Hw Ho (_ & Hws & Hfs & _ & Hs & Hb).
  split; [apply Forall_app; split; [exact Hws | now constructor]|].
  rewrite map_app. cbn [map]. rewrite Hit. split.
  { apply sorted_snoc; [exact Hs|].
    eapply Forall_impl; [|exact Hb]. cbv beta. intros i Hi. lia. }
  split.
  { apply Forall_app. split.
    - eapply Forall_impl; [|exact Hb]. cbv beta. intros i Hi. lia.
    - constructor; [lia | constructor]. }
  rewrite removelast_last, last_outcome_snoc. auto.
Qed.

Lemma verification_keeps_feedback (requirements output_dir : string)
    (c : ProjectConfig) (timeout retries : Z) (r : ClaudeRunner) (w : World) :
  feedback_txt (snd (run_triangular_verification requirements output_dir c
                       timeout retries r w))
  = feedback_txt w.
Proof.
  unfold run_triangular_verification.
  destruct (r _ timeout retries (trace w)) as [[ob|e] tr1]; [|reflexivity].
  destruct (r _ timeout retries _) as [[oc|e] tr2]; reflexivity.
Qed.

Lemma implementation_keeps_feedback (it : Z) (w : World) :
  feedback_txt (snd (_run_implementation_phase a it w)) = feedback_txt w.
Proof.
  unfold _run_implementation_phase.
  destruct (runner a _ _ _ _) as [[o|e] tr1]; reflexivity.
Qed.

Lemma phase3_carried_on (it : Z) (iter_start : seconds)
    (im : IterationMetrics) (st : LoopState) :
  1 <= it -> iteration im = it -> phase1_done im = true ->
  in_progress it st ->
  carried_on it (phase3_verification os a it iter_start im st).
Proof.
  intros H1 Hit Hp1 Hrun. unfold phase3_verification, read_shutdown.
  destruct (shutdown_requested st || signal_delivered os (trace (world st))).
  - apply in_progress_finished, (in_progress_later it); [lia|].
    revert Hrun. now apply in_progress_frame.
  - cbn [world logged set_world].
    match goal with
    | |- context [run_triangular_verification ?q ?o ?c ?t ?r ?u ?w] =>
        pose proof (verification_keeps_feedback q o c t r u w) as Hfb;
        destruct (run_triangular_verification q o c t r u w) as [[passed|e] w']
    end; cbn [snd] in Hfb.
    + destruct passed.
      * unfold carried_on. cbn [fst snd].
        eapply (finished_pass it st);
          [ unfold finish_iteration, append_iteration, logged, set_world; cbn;
            reflexivity
          | reflexivity
          | reflexivity
          | exact H1
          | cbn; exact Hit
          | split; cbn; [exact Hp1 | reflexivity]
          | reflexivity
          | exact Hrun ].
      * unfold carried_on. cbn [fst snd].
        eapply (in_progress_failure it st);
          [ unfold finish_iteration, append_iteration, logged, set_world; cbn;
            reflexivity
          | reflexivity
          | cbn; discriminate
          | exact H1
          | cbn; exact Hit
          | split; cbn; [exact Hp1 | reflexivity]
          | unfold failed; cbn; discriminate
          | exact Hrun ].
    + unfold carried_on. cbn [fst snd].
      apply (in_progress_later it); [lia|].
      revert Hrun. apply in_progress_frame; [reflexivity | reflexivity |].
      cbn. exact Hfb.
Qed.

Lemma phase2_carried_on (it : Z) (iter_start : seconds)
    (im : IterationMetrics) (st : LoopState) :
  1 <= it -> iteration im = it -> phase1_done im = true ->
  verification_status im = GateStatus.SKIPPED ->
  in_progress it st ->
  carried_on it (phase2_quality_gates os a it iter_start im st).
Proof.
  intros H1 Hit Hp1 Hvs Hrun. unfold phase2_quality_gates.
  pose proof (quality_gates_verdict os (build_gates (cfg a) (plugins a))
                (custom_gates a) (use_parallel a) (claude_timeout a)
                (trace (world (logged (LogPhaseStart "phase2_quality_gates" it) st))))
    as Hverdict.
  destruct (_run_quality_gates _ _ _ _ _ _) as [[[gp go] gr] tr'].
  unfold verdict_matches_results, all_passed, gate_results_of in Hverdict.
  cbn [fst snd] in Hverdict. destruct gp; cbn [negb].
  - apply phase3_carried_on; try assumption;
      try (revert Hrun; now apply in_progress_frame).
  - unfold carried_on. cbn [fst snd].
    eapply (in_progress_failure it st);
      [ unfold finish_iteration, append_iteration, logged, set_world; cbn;
        reflexivity
      | reflexivity
      | cbn; discriminate
      | exact H1
      | cbn; exact Hit
      | split; cbn; [exact Hp1 | split; [exact Hvs|]]
      | unfold failed; cbn; discriminate
      | exact Hrun ].
    intros ->. inversion Hverdict.
Qed.

Lemma loop_body_carried_on (it : Z) (st : LoopState) :
  1 <= it -> in_progress it st -> carried_on it (loop_body os a it st).
Proof.
  intros H1 Hrun. unfold loop_body, read_shutdown.
  destruct (shutdown_requested st || signal_delivered os (trace (world st))).
  - apply in_progress_finished, (in_progress_later it); [lia|].
    revert Hrun. now apply in_progress_frame.
  - cbn [world logged set_world].
    match goal with
    | |- context [_run_implementation_phase a it ?w] =>
        pose proof (implementation_keeps_feedback it w) as Hfb;
        destruct (_run_implementation_phase a it w) as [[u|e] w']
    end; cbn [snd] in Hfb.
    + cbn [world logged set_world shutdown_requested trace set_trace].
      match goal with
      | |- context [if ?b then _ else _] => destruct b
      end.
      * apply in_progress_finished, (in_progress_later it); [lia|].
        revert Hrun. apply in_progress_frame; [reflexivity | reflexivity |].
        cbn. exact Hfb.
      * apply phase2_carried_on; try assumption; try reflexivity.
        revert Hrun. apply in_progress_frame; [reflexivity | reflexivity |].
        cbn. exact Hfb.
    + unfold carried_on. cbn [fst snd].
      apply (in_progress_later it); [lia|].
      revert Hrun. apply in_progress_frame; [reflexivity | reflexivity |].
      cbn. exact Hfb.
Qed.

(** The loop over the iterations [s .. m]: it ends [finished], and when it
    ends in an exception it is still [in_progress]. *)
Lemma for_iterations_carried_on (m : Z) :
  forall (n : nat) (s : Z) (st : LoopState),
  Z.to_nat (m + 1 - s) = n -> 1 <= s -> in_progress s st ->
  let r := for_iterations os a (range s (m + 1)) st in
  finished (Z.max s (m + 1)) (snd r)
  /\ (forall e, fst r = Some e -> in_progress (Z.max s (m + 1)) (snd r)).
Proof.
  induction n as [|n IH]; intros s st Hn H1 Hrun; cbv zeta.
  - rewrite range_nil by lia. cbn [for_iterations fst snd].
    replace (Z.max s (m + 1)) with s by lia.
    split; [now apply in_progress_finished | discriminate].
  - rewrite range_cons by lia. cbn [for_iterations].
    pose proof (loop_body_carried_on s st H1 Hrun) as Hbody.
    replace (Z.max s (m + 1)) with (m + 1) by lia.
    destruct (loop_body os a s st) as [[| |e] st']; unfold carried_on in Hbody;
      cbn [fst snd] in Hbody.
    + destruct (IH (s + 1) st') as [Hfin Hexc]; [lia | lia | exact Hbody|].
      replace (Z.max (s + 1) (m + 1)) with (m + 1) in Hfin, Hexc by lia.
      split; assumption.
    + cbn [fst snd]. split; [|discriminate].
      apply (finished_later (s + 1)); [lia | exact Hbody].
    + cbn [fst snd]. split.
      * apply in_progress_finished, (in_progress_later (s + 1)); [lia | exact Hbody].
      * intros e' _. apply (in_progress_later (s + 1)); [lia | exact Hbody].
Qed.

Lemma initial_state_in_progress (w0 : World) (started : string) :
  in_progress 1 (mkLoopState w0 (PipelineMetrics_new started) false false).
Proof.
  unfold in_progress. cbn.
  repeat split; try constructor. intros H. now contradiction H.
Qed.

(** Everything the further properties need to know about a finished run. *)
Lemma run_pipeline_finished (w0 : World) :
  let r := run_pipeline os a w0 in
  finished (Z.max 1 (max_iterations a + 1)) (snd r)
  /\ converged (metrics (snd r)) = loop_converged (snd r)
  /\ total_iterations (metrics (snd r))
     = Z.of_nat (length (iterations (metrics (snd r))))
  /\ (forall e, fst r = Raise e -> loop_converged (snd r) = false).
Proof.
  cbv zeta. unfold run_pipeline.
  destruct (which_claude os); cbn [negb].
  - match goal with
    | |- context [for_iterations os a ?its ?st0] =>
        pose proof (for_iterations_carried_on (max_iterations a)
                      (Z.to_nat (max_iterations a + 1 - 1)) 1 st0 eq_refl
                      ltac:(lia) (initial_state_in_progress _ _)) as H;
        cbv zeta in H;
        destruct (for_iterations os a its st0) as [raised st]
    end.
    cbn [fst snd] in H. destruct H as [Hfin Hexc].
    assert (Hfin' : finished (Z.max 1 (max_iterations a + 1))
                      (finalize os a (clock os (trace w0)) st)).
    { unfold finished, finalize in *.
      destruct (Str.truthy (webhook_url a)); cbn -[last_outcome Z.max];
        exact Hfin. }
    destruct raised as [e|]; cbn [fst snd];
      (split; [exact Hfin'|]); (split; [reflexivity|]);
      (split; [reflexivity|]); intros e' He'; [|discriminate].
    destruct (Hexc e eq_refl) as [Hc _].
    unfold finalize. cbn. exact Hc.
  - cbn [fst snd]. split.
    + apply in_progress_finished, (in_progress_later 1); [lia|].
      apply initial_state_in_progress.
    + split; [reflexivity|]. split; [reflexivity|]. discriminate.
Qed.

(** X6. The recorded iterations carry strictly increasing indices between
    1 and [max_iterations], so there are never more of them than the
    budget, and the total the metrics report is their number. *)
Theorem iterations_stay_within_budget (w0 : World) :
  let m := metrics (snd (run_pipeline os a w0)) in
  StronglySorted Z.lt (map iteration (iterations m))
  /\ Forall (fun i => 1 <= i <= max_iterations a) (map iteration (iterations m))
  /\ Z.of_nat (length (iterations m)) <= Z.max 0 (max_iterations a)
  /\ total_iterations m = Z.of_nat (length (iterations m)).
Proof.
  cbv zeta.
  destruct (run_pipeline_finished w0) as ((_ & Hs & Hb & _) & _ & Htot & _).
  split; [exact Hs|]. split.
  { eapply Forall_impl; [|exact Hb]. cbv beta. intros i Hi. lia. }
  split; [|exact Htot].
  pose proof (sorted_bounded_length _ 1 (Z.max 1 (max_iterations a + 1)) Hs Hb)
    as Hlen.
  rewrite length_map in Hlen. lia.
Qed.

(** X7. Every recorded iteration has completed phase 1 and has an outcome,
    and its verification status tells the outcome: skipped for a gate
    failure (which has at least one gate result), failed for a
    verification failure, passed for a pass. *)
Theorem recorded_iterations_are_well_formed (w0 : World) :
  Forall (fun im =>
            phase1_done im = true
            /\ match outcome im with
               | Some IterationOutcome.PASS =>
                   verification_status im = GateStatus.PASS
               | Some IterationOutcome.GATE_FAIL =>
                   verification_status im = GateStatus.SKIPPED
                   /\ gate_results im <> []
               | Some IterationOutcome.VERIFY_FAIL =>
                   verification_status im = GateStatus.FAIL
               | None => False
               end)
    (iterations (metrics (snd (run_pipeline os a w0)))).
Proof.
  destruct (run_pipeline_finished w0) as ((Hw & _) & _). exact Hw.
Qed.

(** X8. Nothing is recorded after a pass: every recorded iteration but the
    last has failed. *)
Theorem only_the_last_iteration_passes (w0 : World) :
  Forall (fun im => outcome im <> Some IterationOutcome.PASS)
    (removelast (iterations (metrics (snd (run_pipeline os a w0))))).
Proof.
  destruct (run_pipeline_finished w0) as ((_ & _ & _ & Hi & _) & _). exact Hi.
Qed.

(** X9. The feedback artifact after a run: absent when the run converged;
    present when it did not converge and at least one iteration was
    recorded. *)
Theorem feedback_artifact_after_run (w0 : World) :
  let st := snd (run_pipeline os a w0) in
  (converged (metrics st) = true -> feedback_txt (world st) = None)
  /\ (converged (metrics st) = false -> iterations (metrics st) <> [] ->
      feedback_txt (world st) <> None).
Proof.
  cbv zeta.
  destruct (run_pipeline_finished w0) as ((_ & _ & _ & _ & Hc) & Hconv & _).
  rewrite Hconv. destruct (loop_converged _).
  - split; [intros _; apply Hc | discriminate].
  - split; [discriminate | intros _; apply Hc].
Qed.

(** X10. A run that ends in an exception never reports convergence: the
    metrics it saved say [converged = false] and their last record, if
    any, is a failure. *)
Theorem raising_run_is_not_converged (w0 : World) (e : exn) :
  fst (run_pipeline os a w0) = Raise e ->
  let m := metrics (snd (run_pipeline os a w0)) in
  converged m = false
  /\ last_outcome (iterations m) <> Some IterationOutcome.PASS
  /\ (which_claude os = true
      /\ metrics_json (world (snd (run_pipeline os a w0)))
         = (metrics_json w0 ++ [m])%list).
Proof.
  intros Hraise. cbv zeta.
  destruct (run_pipeline_finished w0) as (_ & Hconv & _ & Hexc).
  specialize (Hexc e Hraise).
  destruct (run_pipeline_stopped os a w0) as ((_ & Hlast) & _).
  split; [now rewrite Hconv|]. split.
  { intros H. apply Hlast in H. congruence. }
  pose proof (metrics_saved_unless_claude_missing os a w0) as Hsave.
  cbv zeta in Hsave.
  destruct (which_claude os) eqn:Hw; [split; [reflexivity | exact Hsave]|].
  unfold run_pipeline in Hraise. rewrite Hw in Hraise. discriminate.
Qed.

(** X11. When the executable was found and a webhook URL is configured,
    the last thing a run does, also one that ends in an exception, is to
    post the webhook; its payload carries the converged flag, the number of
    recorded iterations and the duration of the metrics just saved, and the
    flag is the value the run returns. *)
Theorem webhook_reports_the_saved_verdict (w0 : World) :
  which_claude os = true ->
  Str.truthy (webhook_url a) = true ->
  let r := run_pipeline os a w0 in
  let m := metrics (snd r) in
  (exists tr,
     trace (world (snd r))
     = (tr ++ [EvWebhook (webhook_url a) (converged m)
                 (Z.of_nat (length (iterations m))) (total_duration_s m)])%list)
  /\ metrics_json (world (snd r)) = (metrics_json w0 ++ [m])%list
  /\ (forall c, fst r = Ok c -> c = converged m).
Proof.
  intros Hw Hurl. cbv zeta.
  pose proof (metrics_saved_unless_claude_missing os a w0) as Hsave.
  cbv zeta in Hsave. rewrite Hw in Hsave.
  destruct (run_pipeline_stopped os a w0) as (_ & Hconv & Hret).
  split; [|split; [exact Hsave|]].
  - unfold run_pipeline. rewrite Hw. cbn [negb].
    destruct (for_iterations os a _ _) as [raised st].
    assert (H : exists tr,
      trace (world (finalize os a (clock os (trace w0)) st))
      = (tr ++ [EvWebhook (webhook_url a)
                  (converged (metrics (finalize os a (clock os (trace w0)) st)))
                  (Z.of_nat (length (iterations
                     (metrics (finalize os a (clock os (trace w0)) st)))))
                  (total_duration_s
                     (metrics (finalize os a (clock os (trace w0)) st)))])%list).
    { unfold finalize. rewrite Hurl. cbn. eexists. reflexivity. }
    destruct raised; exact H.
  - intros c Hc. rewrite Hconv. now apply Hret.
Qed.

(** X12. With an iteration budget of zero or less (and the executable
    found) the loop body never runs: the run returns false, records
    nothing, leaves the feedback artifact as it was and does nothing to the
    outside world (no agent, no gate, no shutdown check) but post the
    webhook when one is configured; it still saves its metrics once, with
    zero iterations. *)
Theorem empty_budget_runs_nothing (w0 : World) :
  max_iterations a <= 0 ->
  which_claude os = true ->
  let r := run_pipeline os a w0 in
  let m := metrics (snd r) in
  fst r = Ok false
  /\ iterations m = [] /\ total_iterations m = 0 /\ converged m = false
  /\ metrics_json (world (snd r)) = (metrics_json w0 ++ [m])%list
  /\ feedback_txt (world (snd r)) = feedback_txt w0
  /\ trace (world (snd r))
     = (trace w0
        ++ (if Str.truthy (webhook_url a)
            then [EvWebhook (webhook_url a) false 0 (total_duration_s m)]
            else []))%list.
Proof.
  intros Hmax Hw. cbv zeta. unfold run_pipeline.
  rewrite Hw. cbn [negb]. rewrite range_nil by lia.
  cbn [for_iterations]. unfold finalize.
  destruct (Str.truthy (webhook_url a)); cbn; repeat split;
    now rewrite ?app_nil_r.
Qed.

Lemma contains_here (x s : string) : Str.contains x (x ++ s) = true.
Proof. apply StrFacts.contains_spec. now exists "", s. Qed.

Lemma contains_app_r (x s1 s2 : string) :
  Str.contains x s2 = true -> Str.contains x (s1 ++ s2) = true.
Proof.
  rewrite !StrFacts.contains_spec. intros (pre & post & ->).
  exists (s1 ++ pre), post. now rewrite StrFacts.append_assoc.
Qed.

Lemma contains_app_l (x s1 s2 : string) :
  Str.contains x s1 = true -> Str.contains x (s1 ++ s2) = true.
Proof.
  rewrite !StrFacts.contains_spec. intros (pre & post & ->).
  exists pre, (post ++ s2). now rewrite !StrFacts.append_assoc.
Qed.

(** X13. Phase 1 hands the runner the original prompt on iteration 1; on
    every other iteration it hands it a corrective prompt that quotes what
    reading the feedback artifact gives (its content with CR LF and CR
    turned into LF, so the content itself when it holds no CR; or the
    remark that none is available) and names the prompt file. *)
Theorem corrective_prompt_carries_feedback (it : Z) (w : World) :
  let prompt := implementation_prompt a it w in
  _run_implementation_phase a it w
  = match runner a prompt (claude_timeout a) (max_retries a) (trace w) with
    | (Raise e, tr') => (Raise e, set_trace w tr')
    | (Ok output, tr') =>
        (Ok tt, log (LogRunnerOutput output) (set_trace w tr'))
    end
  /\ (it = 1 -> prompt = prompt_text a)
  /\ (it <> 1 ->
      Str.contains
        match feedback_txt w with
        | Some content => Str.read_text content
        | None => "No specific feedback available"
        end prompt = true
      /\ (forall content,
            feedback_txt w = Some content -> Str.has_cr content = false ->
            Str.contains content prompt = true)
      /\ Str.contains (Pathlib.str (prompt_file a)) prompt = true).
Proof.
  cbv zeta. split; [reflexivity|]. split.
  - intros ->. reflexivity.
  - intros Hne. unfold implementation_prompt.
    destruct (Z.eqb_spec it 1) as [->|_]; [contradiction|].
    cbn [Str.join]. split; [|split].
    + repeat first [apply contains_here | apply contains_app_r].
    + intros content Hc Hcr. rewrite Hc, (StrFacts.read_text_unix _ Hcr).
      repeat first [apply contains_here | apply contains_app_r].
    + apply contains_app_l, contains_app_r, contains_here.
Qed.

End LoopFacts.

Lemma raising_run_is_not_converged_witness :
  let os := Scenario.calm_os Scenario.vanished_claude Scenario.sh true in
  let a := Scenario.args os 3 false (Scenario.config "" "" "") [] in
  let r := run_pipeline os a Scenario.empty_world in
  let m := metrics (snd r) in
  fst r = Raise (RuntimeError
                   "'claude' CLI not found in PATH. Install Claude Code first.")
  /\ converged m = false
  /\ last_outcome (iterations m) <> Some IterationOutcome.PASS
  /\ (which_claude os = true
      /\ metrics_json (world (snd r))
         = (metrics_json Scenario.empty_world ++ [m])%list).
Proof.
  cbv zeta. split; [vm_compute; reflexivity|].
  apply (raising_run_is_not_converged
           (Scenario.calm_os Scenario.vanished_claude Scenario.sh true)
           (Scenario.args
              (Scenario.calm_os Scenario.vanished_claude Scenario.sh true)
              3 false (Scenario.config "" "" "") [])
           Scenario.empty_world
           (RuntimeError
              "'claude' CLI not found in PATH. Install Claude Code first.")).
  vm_compute. reflexivity.
Defined.

Lemma webhook_reports_the_saved_verdict_witness :
  let os := Scenario.calm_os Scenario.mock_claude_verify_pass Scenario.sh true in
  let a := mkRunArgs "PROMPT.md" "Implement a hello function." "requirements.md"
             ".agentic-dev-pipeline" 3 300 2 "https://example.org/hook" false []
             (Scenario.config "true" "" "") [] (CliClaudeRunner_run os) in
  let r := run_pipeline os a Scenario.empty_world in
  let m := metrics (snd r) in
  Str.truthy (webhook_url a) = true
  /\ (exists tr,
        trace (world (snd r))
        = (tr ++ [EvWebhook (webhook_url a) (converged m)
                    (Z.of_nat (length (iterations m))) (total_duration_s m)])%list)
  /\ metrics_json (world (snd r))
     = (metrics_json Scenario.empty_world ++ [m])%list
  /\ (forall c, fst r = Ok c -> c = converged m).
Proof.
  cbv zeta. split; [reflexivity|].
  apply (webhook_reports_the_saved_verdict
           (Scenario.calm_os Scenario.mock_claude_verify_pass Scenario.sh true)
           (mkRunArgs "PROMPT.md" "Implement a hello function." "requirements.md"
              ".agentic-dev-pipeline" 3 300 2 "https://example.org/hook" false []
              (Scenario.config "true" "" "") []
              (CliClaudeRunner_run
                 (Scenario.calm_os Scenario.mock_claude_verify_pass Scenario.sh true)))
           Scenario.empty_world);
    reflexivity.
Defined.

Lemma empty_budget_runs_nothing_witness :
  let os := Scenario.calm_os Scenario.mock_claude Scenario.sh true in
  let a := Scenario.args os 0 false (Scenario.config "true" "" "") [] in
  let r := run_pipeline os a Scenario.empty_world in
  let m := metrics (snd r) in
  fst r = Ok false
  /\ iterations m = [] /\ total_iterations m = 0 /\ converged m = false
  /\ metrics_json (world (snd r))
     = (metrics_json Scenario.empty_world ++ [m])%list
  /\ feedback_txt (world (snd r)) = feedback_txt Scenario.empty_world
  /\ trace (world (snd r))
     = (trace Scenario.empty_world
        ++ (if Str.truthy (webhook_url a)
            then [EvWebhook (webhook_url a) false 0 (total_duration_s m)]
            else []))%list.
Proof.
  cbv zeta.
  apply (empty_budget_runs_nothing
           (Scenario.calm_os Scenario.mock_claude Scenario.sh true)
           (Scenario.args (Scenario.calm_os Scenario.mock_claude Scenario.sh true)
              0 false (Scenario.config "true" "" "") [])
           Scenario.empty_world).
  - cbn. lia.
  - reflexivity.
Defined.

(** ** The verification protocol: what it writes *)

(** X14. Verification never touches the feedback artifact or the saved
    metrics.  When it raises, the discrepancy report is left as it was;
    when it returns, the blind review holds what the runner answered to the
    prompt of Agent B, the discrepancy report what it then answered to the
    prompt of Agent C (which names the blind review by its path inside the
    output directory), and the verdict is the marker test on that report as
    read back. *)
Theorem verification_writes_only_its_artifacts
    (requirements_file output_dir : string) (cfg : ProjectConfig)
    (timeout max_retries : Z) (runner : ClaudeRunner) (w : World) :
  let r := run_triangular_verification requirements_file output_dir cfg
             timeout max_retries runner w in
  feedback_txt (snd r) = feedback_txt w
  /\ metrics_json (snd r) = metrics_json w
  /\ match fst r with
     | Raise _ => discrepancy_report_md (snd r) = discrepancy_report_md w
     | Ok b =>
         exists output_b output_c tr1,
           runner (agent_b_prompt (Pathlib.str requirements_file) cfg)
             timeout max_retries (trace w) = (Ok output_b, tr1)
           /\ runner (agent_c_prompt (Pathlib.str requirements_file)
                        (Pathlib.div output_dir "blind-review.md"))
                timeout max_retries tr1 = (Ok output_c, trace (snd r))
           /\ blind_review_md (snd r) = Some output_b
           /\ discrepancy_report_md (snd r) = Some output_c
           /\ b = Str.contains TRIANGULAR_PASS_MARKER (Str.read_text output_c)
     end.
Proof.
  cbv zeta. unfold run_triangular_verification.
  destruct (runner (agent_b_prompt (Pathlib.str requirements_file) cfg)
              timeout max_retries (trace w)) as [[output_b|e] tr1] eqn:Eb;
    [|cbn; auto].
  cbn [trace write_blind_review set_trace].
  destruct (runner (agent_c_prompt (Pathlib.str requirements_file)
                      (Pathlib.div output_dir "blind-review.md"))
              timeout max_retries tr1) as [[output_c|e] tr2] eqn:Ec;
    [|cbn; auto].
  cbn -[Str.contains Str.read_text Pathlib.div Pathlib.str].
  repeat split. exists output_b, output_c, tr1. auto.
Qed.

(** ** The metrics: how gate results are presented *)

Section PresentationFacts.
Variable os : OS.

Lemma status_value_skipped (r : GateResult) :
  two_valued r -> GateStatus_value (status r) <> "skipped".
Proof. intros [H|H]; rewrite H; discriminate. Qed.

Lemma gate_status_skipped (rs : list GateResult) (n : string) :
  Forall two_valued rs ->
  (_gate_status_loop rs n = "skipped" <-> ~ In n (map name rs)).
Proof.
  induction 1 as [|r rs Hr Hrs IH]; cbn [_gate_status_loop map In].
  - split; [auto | reflexivity].
  - destruct (String.eqb_spec (name r) n) as [E|E].
    + split; [intros H; now apply status_value_skipped in H | intros H].
      exfalso. apply H. now left.
    + rewrite IH. split; [intros H [H'|H']; auto | intros H H'; apply H; now right].
Qed.

Lemma executor_results_two_valued (gates : list (string * string))
    (callable_gates : list (string * GateFunction)) (use_parallel : bool)
    (timeout : Z) (tr : list Event) :
  Forall two_valued
    (gate_results_of
       (_run_quality_gates os gates callable_gates use_parallel timeout tr)).
Proof.
  unfold _run_quality_gates.
  destruct (length gates + length callable_gates =? 0)%nat; [constructor|].
  destruct use_parallel.
  - rewrite parallel_unfolded.
    destruct (attempt_all os (declaration_order gates callable_gates) timeout tr)
      as [submitted tr2].
    cbv zeta.
    assert (Htwo : forall done : list Future,
              Forall two_valued (map (fun f => result_of (fst f) (snd f)) done)).
    { intros done. apply Forall_map, Forall_forall. intros f _.
      unfold two_valued, result_of. simpl. destruct (fst (snd f)); auto. }
    destruct (map parallel_failure_block _); apply Htwo.
  - rewrite sequential_observed.
    pose proof (first_failure_shape os (declaration_order gates callable_gates)
                  timeout tr) as H. cbv zeta in H.
    destruct (run_until_first_failure os _ timeout tr) as [[[ok text] rs] tr2].
    apply H.
Qed.

(** X15. For the results of the executor, a gate status of "skipped" in the
    metrics means exactly that no result was recorded under that name: the
    gate was not configured, or the sequential discipline stopped before
    it.  A gate that ran shows "pass" or "fail". *)
Theorem skipped_means_not_recorded (gates : list (string * string))
    (callable_gates : list (string * GateFunction)) (use_parallel : bool)
    (timeout : Z) (tr : list Event)
    (i : Z) (d : seconds) (p1 : bool) (vs : GateStatus.t)
    (o : option IterationOutcome.t) (n : string) :
  let rs := gate_results_of
              (_run_quality_gates os gates callable_gates use_parallel timeout tr) in
  let im := mkIterationMetrics i d p1 rs vs o in
  (_gate_status im n = "skipped" <-> ~ In n (map name rs))
  /\ (In n (map name rs) ->
      _gate_status im n = "pass" \/ _gate_status im n = "fail").
Proof.
  cbv zeta. unfold _gate_status. cbn [gate_results].
  pose proof (executor_results_two_valued gates callable_gates use_parallel
                timeout tr) as Htwo.
  split; [now apply gate_status_skipped|].
  induction Htwo as [|r rs Hr Hrs IH]; cbn [_gate_status_loop map In];
    [contradiction|].
  intros Hin. destruct (String.eqb_spec (name r) n) as [E|E].
  - destruct Hr as [Hr|Hr]; rewrite Hr; auto.
  - apply IH. destruct Hin; [contradiction | assumption].
Qed.

(** X16. Under the sequential discipline a failing lint gate is the only
    gate recorded: the metrics show lint as "fail", test and security as
    "skipped", and no plugin result. *)
Theorem failing_lint_skips_the_rest (c : ProjectConfig)
    (plugins : list (string * string))
    (callable_gates : list (string * GateFunction)) (timeout : Z)
    (tr : list Event)
    (i : Z) (d : seconds) (p1 : bool) (vs : GateStatus.t)
    (o : option IterationOutcome.t) :
  Str.truthy (lint_cmd c) = true ->
  fst (fst (_run_gate_command os (lint_cmd c) timeout tr)) = false ->
  let rs := gate_results_of
              (_run_gates_sequential os (build_gates c plugins) callable_gates
                 timeout tr) in
  let im := mkIterationMetrics i d p1 rs vs o in
  lint_result im = "fail"
  /\ test_result im = "skipped"
  /\ security_result im = "skipped"
  /\ plugin_results im = [].
Proof.
  intros Hlint Hfail. cbv zeta.
  unfold build_gates. rewrite Hlint. cbn [app].
  unfold _run_gates_sequential. cbn [sequential_commands gate_pass negb seq_trace].
  destruct (_run_gate_command os (lint_cmd c) timeout tr) as [[p out] tr'].
  cbn [fst] in Hfail. subst p.
  rewrite sequential_commands_stopped by reflexivity.
  rewrite sequential_callables_stopped by reflexivity.
  unfold gate_results_of. cbn. auto.
Qed.

End PresentationFacts.

Lemma failing_lint_skips_the_rest_witness :
  let os := Scenario.calm_os Scenario.mock_claude Scenario.sh true in
  let c := Scenario.config "false" "true" "true" in
  let rs := gate_results_of (_run_gates_sequential os (build_gates c []) [] 300 []) in
  let im := mkIterationMetrics 1 0 true rs GateStatus.SKIPPED None in
  lint_result im = "fail"
  /\ test_result im = "skipped"
  /\ security_result im = "skipped"
  /\ plugin_results im = [].
Proof.
  cbv zeta.
  apply (failing_lint_skips_the_rest
           (Scenario.calm_os Scenario.mock_claude Scenario.sh true)
           (Scenario.config "false" "true" "true") [] [] 300 []
           1 0 true GateStatus.SKIPPED None);
    reflexivity.
Defined.

(** ** Sorting *)

Module SortFacts.

Lemma compare_not_gt_trans (a : string) :
  forall b c,
  String.compare a b <> Gt -> String.compare b c <> Gt ->
  String.compare a c <> Gt.
Proof.
  induction a as [|x a IH]; intros [|y b] [|z c]; simpl; try congruence.
  unfold Ascii.compare.
  destruct (N.compare_spec (N_of_ascii x) (N_of_ascii y));
    destruct (N.compare_spec (N_of_ascii y) (N_of_ascii z));
    destruct (N.compare_spec (N_of_ascii x) (N_of_ascii z));
    try congruence; try lia.
  apply IH.
Qed.

Lemma leb_trans (a b c : string) :
  String.leb a b = true -> String.leb b c = true -> String.leb a c = true.
Proof.
  unfold String.leb. intros Hab Hbc.
  pose proof (compare_not_gt_trans a b c) as H.
  destruct (String.compare a b); try discriminate;
    destruct (String.compare b c); try discriminate;
    destruct (String.compare a c); try reflexivity;
    exfalso; apply H; congruence.
Qed.

Section WithKey.
Context {A : Type} (key : A -> string).

Lemma insert_by_perm (x : A) (l : list A) :
  Permutation (x :: l) (insert_by key x l).
Proof.
  induction l as [|y l IH]; cbn [insert_by]; [apply Permutation_refl|].
  destruct (String.leb (key x) (key y)); [apply Permutation_refl|].
  eapply perm_trans; [apply perm_swap | now apply perm_skip].
Qed.

Lemma sorted_by_perm (l : list A) : Permutation l (sorted_by key l).
Proof.
  induction l as [|x l IH]; cbn [sorted_by fold_right]; [constructor|].
  eapply perm_trans; [apply perm_skip, IH | apply insert_by_perm].
Qed.

Lemma insert_by_sorted (x : A) (l : list A) :
  StronglySorted (key_le key) l -> StronglySorted (key_le key) (insert_by key x l).
Proof.
  induction 1 as [|y l Hs IH Hy]; cbn [insert_by].
  - constructor; constructor.
  - destruct (String.leb (key x) (key y)) eqn:Hxy.
    + constructor; [now constructor|]. constructor; [exact Hxy|].
      eapply Forall_impl; [|exact Hy]. intros z Hz.
      unfold key_le in *. eapply leb_trans; eassumption.
    + constructor; [exact IH|].
      assert (Hyx : key_le key y x).
      { unfold key_le. destruct (String.leb_total (key x) (key y)); congruence. }
      eapply Permutation_Forall; [apply insert_by_perm|].
      now constructor.
Qed.

Lemma sorted_by_sorted (l : list A) : StronglySorted (key_le key) (sorted_by key l).
Proof.
  induction l as [|x l IH]; cbn [sorted_by fold_right]; [constructor|].
  now apply insert_by_sorted.
Qed.

Lemma filter_sorted (f : A -> bool) (l : list A) :
  StronglySorted (key_le key) l -> StronglySorted (key_le key) (filter f l).
Proof.
  induction 1 as [|y l Hs IH Hy]; cbn [filter]; [constructor|].
  destruct (f y); [|exact IH]. constructor; [exact IH|].
  rewrite Forall_forall in *. intros z Hz. apply filter_In in Hz as [Hz _]. auto.
Qed.

End WithKey.

Lemma filter_perm {A : Type} (f : A -> bool) (l l' : list A) :
  Permutation l l' -> Permutation (filter f l) (filter f l').
Proof.
  induction 1 as [|x l l' H IH|x y l|l l' l'' H1 IH1 H2 IH2]; cbn [filter].
  - constructor.
  - destruct (f x); [now constructor | exact IH].
  - destruct (f x), (f y); try apply Permutation_refl. apply perm_swap.
  - eapply perm_trans; eassumption.
Qed.

End SortFacts.

(** ** Plugin discovery *)

Lemma plugins_of_entries (l : list DirEntry) :
  flat_map plugin_of_entry l
  = map (fun f => (entry_stem f,
                   (if String.eqb (entry_suffix f) ".sh"
                    then "bash " else "python3 ") ++ entry_path f))
        (filter is_plugin l).
Proof.
  induction l as [|f l IH]; [reflexivity|].
  cbn [flat_map filter]. rewrite IH.
  unfold plugin_of_entry at 1. unfold is_plugin at 2.
  destruct (String.eqb (entry_suffix f) ".sh") eqn:Hsh;
    destruct (String.eqb (entry_suffix f) ".py");
    destruct (entry_is_file f);
    cbn [andb orb app map]; rewrite ?Hsh; reflexivity.
Qed.

(** X17. Plugin discovery returns one plugin for every regular file of the
    directory whose suffix is .sh or .py and for nothing else, in the
    ascending order of the file names; each is named after the stem of
    its file and runs it with [bash] or [python3].  Without a directory
    (none given and none in the environment, or a path that is not a
    directory) it returns no plugin. *)
Theorem plugins_are_the_sorted_script_files (plugin_dir environ : option string)
    (iterdir : string -> option (list DirEntry)) :
  exists selected : list DirEntry,
    _load_plugins plugin_dir environ iterdir
    = map (fun f => (entry_stem f,
                     (if String.eqb (entry_suffix f) ".sh"
                      then "bash " else "python3 ") ++ entry_path f))
          selected
    /\ StronglySorted
         (fun f g => String.leb (entry_name f) (entry_name g) = true) selected
    /\ Forall (fun f => is_plugin f = true) selected
    /\ (let from_environ := match environ with Some d => d | None => "" end in
        let pdir :=
          match plugin_dir with
          | Some "" | None => from_environ
          | Some d => d
          end in
        match pdir, iterdir pdir with
        | "", _ | _, None => selected = []
        | _, Some entries => Permutation selected (filter is_plugin entries)
        end).
Proof.
  unfold _load_plugins.
  set (from_environ := match environ with Some d => d | None => "" end).
  assert (Hpdir :
    match plugin_dir with
    | Some d => if Str.truthy d then d else from_environ
    | None => from_environ
    end
    = match plugin_dir with
      | Some "" | None => from_environ
      | Some d => d
      end).
  { destruct plugin_dir as [[|c d]|]; reflexivity. }
  cbv zeta. rewrite Hpdir.
  set (pdir := match plugin_dir with
               | Some "" | None => from_environ
               | Some d => d
               end).
  destruct pdir as [|c d] eqn:Hp.
  - exists []. cbn. repeat split; constructor.
  - cbn [Str.truthy negb].
    destruct (iterdir (String c d)) as [entries|].
    + exists (filter is_plugin (sorted_by entry_name entries)).
      split; [apply plugins_of_entries|]. split.
      { apply (SortFacts.filter_sorted entry_name), SortFacts.sorted_by_sorted. }
      split.
      { apply Forall_forall. intros f Hf. now apply filter_In in Hf. }
      apply Permutation_sym, SortFacts.filter_perm, SortFacts.sorted_by_perm.
    + exists []. cbn. repeat split; constructor.
Qed.

(** ** Layered configuration *)

Module ConfigFacts.
Import Config.

Lemma get_set (k k' : string) (v : object) (d : dict) :
  dict_get k (dict_set k' v d)
  = if String.eqb k' k then Some v else dict_get k d.
Proof.
  induction d as [|[k0 v0] d IH]; cbn [dict_set dict_get].
  - destruct (String.eqb k' k); reflexivity.
  - destruct (String.eqb k0 k') eqn:E0; cbn [dict_get].
    + apply String.eqb_eq in E0. subst k0.
      destruct (String.eqb k' k); reflexivity.
    + destruct (String.eqb k0 k) eqn:E1; [|exact IH].
      apply String.eqb_eq in E1. subst k0. now rewrite String.eqb_sym, E0.
Qed.

Lemma get_absent (k : string) (d : dict) :
  ~ In k (map fst d) -> dict_get k d = None.
Proof.
  induction d as [|[k0 v0] d IH]; cbn [dict_get map fst In]; [reflexivity|].
  intros H. destruct (String.eqb k0 k) eqn:E.
  - apply String.eqb_eq in E. tauto.
  - apply IH. tauto.
Qed.

Lemma get_merge_layer (k : string) (layer : dict) :
  well_formed layer ->
  forall merged,
  dict_get k (merge_layer merged layer)
  = match given k layer with
    | Some v => Some v
    | None => dict_get k merged
    end.
Proof.
  unfold well_formed, merge_layer, given.
  induction layer as [|[k0 v0] layer IH]; intros Hnd merged;
    cbn [fold_left map fst snd dict_get] in *; [reflexivity|].
  inversion Hnd as [|? ? Hnotin Hnd']; subst.
  rewrite (IH Hnd'). destruct (String.eqb k0 k) eqn:E.
  - apply String.eqb_eq in E. subst k0.
    rewrite (get_absent k layer Hnotin).
    destruct (is_None v0); [reflexivity|].
    now rewrite get_set, String.eqb_refl.
  - destruct (dict_get k layer) as [v|]; [destruct (is_None v)|];
      try reflexivity;
      (destruct (is_None v0); [reflexivity | now rewrite get_set, E]).
Qed.

Lemma get_filter (k : string) (d : dict) :
  dict_get k (filter (fun kv => is_known (fst kv)) d)
  = if is_known k then dict_get k d else None.
Proof.
  induction d as [|[k0 v0] d IH]; cbn [filter dict_get fst].
  - now destruct (is_known k).
  - destruct (String.eqb k0 k) eqn:E.
    + apply String.eqb_eq in E. subst k0.
      destruct (is_known k) eqn:Hk; [|exact IH].
      cbn [dict_get]. now rewrite String.eqb_refl.
    + destruct (is_known k0); [|exact IH].
      cbn [dict_get]. now rewrite E.
Qed.

Lemma filtered_keys_known (d : dict) :
  forallb (fun kv => is_known (fst kv))
          (filter (fun kv => is_known (fst kv)) d) = true.
Proof.
  apply forallb_forall. intros kv Hin. now apply filter_In in Hin.
Qed.

End ConfigFacts.

(** X18. Resolving the configuration never fails, whatever keys the layers
    hold, and every field takes the value of the first source that gives
    one, in the order explicit arguments, pyproject section, standalone
    file, environment; a field no source gives keeps its default.  A source
    that holds [None] for a key, or a key that is not a field, gives
    nothing. *)
Theorem configuration_sources_override_in_order
    (explicit : option Config.dict)
    (env_layer file_layer pyproject_layer : Config.dict) :
  let explicit_layer := match explicit with Some d => d | None => [] end in
  Config.well_formed explicit_layer ->
  Config.well_formed pyproject_layer ->
  Config.well_formed file_layer ->
  Config.well_formed env_layer ->
  exists c : Config.PipelineConfig,
    Config.resolve explicit env_layer file_layer pyproject_layer = Some c
    /\ forall name, In name Config.known ->
         Config.getattr c name
         = Some match Config.first_given name
                        [explicit_layer; pyproject_layer; file_layer; env_layer]
                with
                | Some v => v
                | None => Config.default name
                end.
Proof.
  intros explicit_layer Hx Hp Hf He. unfold Config.resolve.
  fold explicit_layer. cbv zeta.
  unfold Config.PipelineConfig_init.
  rewrite ConfigFacts.filtered_keys_known.
  eexists. split; [reflexivity|].
  intros name Hin.
  assert (Hget : forall k, Config.is_known k = true ->
    Config.dict_get k
      (filter (fun kv => Config.is_known (fst kv))
         (fold_left Config.merge_layer
            [env_layer; file_layer; pyproject_layer; explicit_layer] []))
    = Config.first_given k
        [explicit_layer; pyproject_layer; file_layer; env_layer]).
  { intros k Hk. rewrite ConfigFacts.get_filter, Hk.
    cbn [fold_left Config.first_given].
    rewrite (ConfigFacts.get_merge_layer k _ Hx),
            (ConfigFacts.get_merge_layer k _ Hp),
            (ConfigFacts.get_merge_layer k _ Hf),
            (ConfigFacts.get_merge_layer k _ He).
    cbn [Config.dict_get].
    destruct (Config.given k explicit_layer); [reflexivity|].
    destruct (Config.given k pyproject_layer); [reflexivity|].
    destruct (Config.given k file_layer); [reflexivity|].
    destruct (Config.given k env_layer); reflexivity. }
  cbn [Config.known In] in Hin.
  destruct Hin as [<-|[<-|[<-|[<-|[<-|[<-|[]]]]]]];
    cbn [Config.getattr String.eqb Ascii.eqb Bool.eqb
         Config.prompt_file Config.requirements_file Config.max_iterations
         Config.timeout Config.max_retries Config.base_branch];
    rewrite Hget by reflexivity; reflexivity.
Qed.

Lemma configuration_sources_override_in_order_witness :
  let explicit := Some [("timeout", Config.PyInt 60);
                        ("max_retries", Config.PyNone)] in
  let env_layer := [("max_retries", Config.PyInt 7);
                    ("timeout", Config.PyInt 10)] in
  let file_layer := [("verbose", Config.PyOther "True")] in
  let pyproject_layer := [("base_branch", Config.PyStr "develop")] in
  exists c : Config.PipelineConfig,
    Config.resolve explicit env_layer file_layer pyproject_layer = Some c
    /\ Config.getattr c "timeout" = Some (Config.PyInt 60)
    /\ Config.getattr c "max_retries" = Some (Config.PyInt 7)
    /\ Config.getattr c "base_branch" = Some (Config.PyStr "develop")
    /\ Config.getattr c "max_iterations" = Some (Config.PyInt 5)
    /\ Config.getattr c "prompt_file" = Some Config.PyNone.
Proof.
  cbv zeta.
  destruct (configuration_sources_override_in_order
              (Some [("timeout", Config.PyInt 60);
                     ("max_retries", Config.PyNone)])
              [("max_retries", Config.PyInt 7); ("timeout", Config.PyInt 10)]
              [("verbose", Config.PyOther "True")]
              [("base_branch", Config.PyStr "develop")])
    as [c [Hc Hfields]].
  - unfold Config.well_formed. cbn [map fst].
    repeat (apply NoDup_cons; [cbn [In]; intuition discriminate|]).
    apply NoDup_nil.
  - unfold Config.well_formed. cbn [map fst].
    repeat (apply NoDup_cons; [cbn [In]; intuition discriminate|]).
    apply NoDup_nil.
  - unfold Config.well_formed. cbn [map fst].
    repeat (apply NoDup_cons; [cbn [In]; intuition discriminate|]).
    apply NoDup_nil.
  - unfold Config.well_formed. cbn [map fst].
    repeat (apply NoDup_cons; [cbn [In]; intuition discriminate|]).
    apply NoDup_nil.
  - exists c. split; [exact Hc|].
    repeat split; (rewrite Hfields; [reflexivity | cbn; tauto]).
Defined.

(** ** The changed files *)

Module DetectFacts.
Import Detect.

Lemma strict_of_sorted (l : list string) :
  StronglySorted (key_le (fun x : string => x)) l -> NoDup l -> ascending l.
Proof.
  unfold ascending.
  induction 1 as [|x l Hs IH Hx]; intros Hnd; [constructor|].
  inversion Hnd as [|? ? Hnotin Hnd']; subst.
  constructor; [now apply IH|].
  rewrite Forall_forall in *. intros y Hy. split; [now apply Hx|].
  intros ->. contradiction.
Qed.

Lemma sorted_set_In (l : list string) (x : string) :
  In x (sorted_set l) <-> In x l.
Proof.
  unfold sorted_set. rewrite <- (nodup_In string_dec l x).
  split; apply Permutation_in;
    [apply Permutation_sym|]; apply SortFacts.sorted_by_perm.
Qed.

Lemma sorted_set_ascending (l : list string) : ascending (sorted_set l).
Proof.
  apply strict_of_sorted; [apply SortFacts.sorted_by_sorted|].
  eapply Permutation_NoDup; [apply SortFacts.sorted_by_perm | apply NoDup_nodup].
Qed.

Lemma sorted_set_length (l : list string) :
  (length (sorted_set l) <= length l)%nat.
Proof.
  unfold sorted_set.
  rewrite <- (Permutation_length (SortFacts.sorted_by_perm _ _)).
  apply NoDup_incl_length; [apply NoDup_nodup|].
  intros x. apply nodup_In.
Qed.

Lemma sorted_set_nil (l : list string) : sorted_set l = [] -> l = [].
Proof.
  intros H. destruct l as [|x l]; [reflexivity|].
  assert (Hin : In x (sorted_set (x :: l))) by (apply sorted_set_In; now left).
  rewrite H in Hin. destruct Hin.
Qed.

Lemma firstn_sorted {A : Type} (R : A -> A -> Prop) (n : nat) (l : list A) :
  StronglySorted R l -> StronglySorted R (firstn n l).
Proof.
  intros H. revert n.
  induction H as [|x l Hs IH Hx]; intros [|n]; cbn [firstn]; try constructor.
  - apply IH.
  - rewrite Forall_forall in *. intros y Hy. apply Hx.
    rewrite <- (firstn_skipn n l). apply in_or_app. now left.
Qed.

Lemma _git_handled (p : Project) (args : list string) :
  handled (git p args) ->
  exists lines, _git p args = Ok lines /\ (length lines <= 200)%nat.
Proof.
  unfold _git, handled.
  destruct (git p args); intros H; try contradiction; eexists;
    (split; [reflexivity|]); try apply firstn_le_length; cbn; lia.
Qed.

End DetectFacts.

(** X19. Without a [CHANGED_FILES] override, and as long as every run of
    git ends in a way the code handles, the list of changed files is
    returned and is never empty; it is in strictly ascending order, so
    sorted and free of duplicates; it has at most 800 entries; and it holds
    every line that any of the four git listings contributed. *)
Theorem changed_files_are_sorted_and_never_empty (p : Detect.Project)
    (base_branch : string) (project_type : option string) :
  Detect.env_override p "CHANGED_FILES" = None ->
  (forall args, Detect.handled (Detect.git p args)) ->
  exists files : list string,
    Detect.detect_changed_files p base_branch project_type = Ok files
    /\ files <> []
    /\ Detect.ascending files
    /\ (length files <= 800)%nat
    /\ forall args lines,
         In args (Detect.git_queries base_branch) ->
         Detect._git p args = Ok lines -> incl lines files.
Proof.
  intros Henv Hgit. unfold Detect.detect_changed_files. rewrite Henv.
  destruct (DetectFacts._git_handled p
              ["diff"; "--name-only"; base_branch ++ "..HEAD"] (Hgit _))
    as [committed [Hc Lc]].
  destruct (DetectFacts._git_handled p
              ["diff"; "--name-only"; "--cached"] (Hgit _))
    as [staged [Hs Ls]].
  destruct (DetectFacts._git_handled p
              ["diff"; "--name-only"; "HEAD"] (Hgit _))
    as [unstaged [Hu Lu]].
  destruct (DetectFacts._git_handled p
              ["ls-files"; "--others"; "--exclude-standard"] (Hgit _))
    as [untracked [Ht Lt]].
  rewrite Hc, Hs, Hu, Ht. cbv zeta.
  set (reported := (committed ++ staged ++ unstaged ++ untracked)%list).
  assert (Hlen : (length reported <= 800)%nat).
  { unfold reported. rewrite !length_app. lia. }
  assert (Hincl : forall args lines,
            In args (Detect.git_queries base_branch) ->
            Detect._git p args = Ok lines -> incl lines reported).
  { intros args lines Hin Hl x Hx. unfold reported.
    cbn [Detect.git_queries In] in Hin.
    destruct Hin as [<-|[<-|[<-|[<-|[]]]]];
      [rewrite Hc in Hl | rewrite Hs in Hl | rewrite Hu in Hl | rewrite Ht in Hl];
      injection Hl as <-; rewrite !in_app_iff; tauto. }
  destruct (Detect.sorted_set reported) as [|f fs] eqn:Hall.
  - apply DetectFacts.sorted_set_nil in Hall.
    assert (Hnone : forall args lines,
              In args (Detect.git_queries base_branch) ->
              Detect._git p args = Ok lines ->
              forall files : list string, incl lines files).
    { intros args lines Hin Hl files x Hx.
      specialize (Hincl args lines Hin Hl x Hx). rewrite Hall in Hincl.
      destruct Hincl. }
    set (ptype := match project_type with
                  | Some t => if Str.truthy t then t
                              else Detect.detect_project_type p
                  | None => Detect.detect_project_type p
                  end).
    destruct (Detect.source_files p ptype) as [|g gs] eqn:Hsrc.
    + eexists. split; [reflexivity|]. split; [discriminate|]. split.
      { unfold Detect.ascending. repeat constructor. }
      split; [cbn; lia|]. intros args lines Hin Hl. now apply (Hnone args).
    + eexists. split; [reflexivity|]. split; [discriminate|]. split.
      { rewrite <- Hsrc. unfold Detect.source_files.
        apply DetectFacts.firstn_sorted, DetectFacts.sorted_set_ascending. }
      split.
      { rewrite <- Hsrc. unfold Detect.source_files.
        etransitivity; [apply firstn_le_length | lia]. }
      intros args lines Hin Hl. now apply (Hnone args).
  - eexists. split; [reflexivity|]. split; [discriminate|]. split.
    { rewrite <- Hall. apply DetectFacts.sorted_set_ascending. }
    split.
    { rewrite <- Hall.
      etransitivity; [apply DetectFacts.sorted_set_length | exact Hlen]. }
    intros args lines Hin Hl x Hx. rewrite <- Hall.
    apply DetectFacts.sorted_set_In. now apply (Hincl args lines).
Qed.

Lemma changed_files_are_sorted_and_never_empty_witness :
  let p := {| Detect.environ := fun _ => None;
              Detect.is_file := fun _ => false;
              Detect.git := fun args =>
                match args with
                | ["diff"; "--name-only"; "HEAD"] => TimeoutExpired
                | _ => Exited 0 ("b.py" ++ nl ++ "a.py" ++ nl ++ nl ++ "b.py" ++ nl) ""
                end;
              Detect.rglob := fun _ => [] |} in
  Detect.detect_changed_files p "main" None = Ok ["a.py"; "b.py"]
  /\ exists files : list string,
       Detect.detect_changed_files p "main" None = Ok files
       /\ files <> []
       /\ Detect.ascending files
       /\ (length files <= 800)%nat
       /\ forall args lines,
            In args (Detect.git_queries "main") ->
            Detect._git p args = Ok lines -> incl lines files.
Proof.
  cbv zeta. split; [vm_compute; reflexivity|].
  apply (changed_files_are_sorted_and_never_empty
           {| Detect.environ := fun _ => None;
              Detect.is_file := fun _ => false;
              Detect.git := fun args =>
                match args with
                | ["diff"; "--name-only"; "HEAD"] => TimeoutExpired
                | _ => Exited 0 ("b.py" ++ nl ++ "a.py" ++ nl ++ nl ++ "b.py" ++ nl) ""
                end;
              Detect.rglob := fun _ => [] |} "main" None).
  - reflexivity.
  - intros args. cbn [Detect.git Detect.handled].
    repeat match goal with
           | |- context [match ?x with _ => _ end] => destruct x
           end; exact I.
Defined.
